(** * Multimodal RAG system: ingestion pipeline and cross-modal retrieval merge

    A shallow embedding of [app/ingestion.py], [app/retrieval.py],
    [app/utils/ocr_utils.py] and [app/utils/pdf_utils.py], with the
    properties the specification states about them.

    Conventions of the embedding:
    - a Python [str] is a [string]; a character is an 8-bit code point;
    - a Python [float] score is an exact rational ([Q]): rounding is not
      modelled, comparisons and [math.isclose] are;
    - a Python [dict] with string keys is a [gmap string _];
    - exceptions are values of [exn], a computation that may raise returns a
      [result], and the ingestion routines run in a state monad over the
      [world] (files on disk, calls made to the collaborators, identifiers
      drawn);
    - the embedding models, the vector store, the OCR engine, the image
      decoder and the PDF libraries are collaborators behind interfaces
      (type classes); whatever they answer, the theorems hold. *)

From Stdlib Require Import ZArith QArith Qabs Lia Ascii String List.
From Stdlib Require Import Numbers.DecimalString Numbers.DecimalZ.
From Stdlib Require Import Sorting.Sorted Sorting.Permutation.
From stdpp Require Import base option list gmap strings.

Local Open Scope Z_scope.

(** ** Strings *)

Module Str.

(** The line feed, Python's ["\n"]. *)
Definition LF : ascii := "010"%char.

(** [str.isspace] on one character, for code points below 256. *)
Definition isspace (c : ascii) : bool :=
  let n := N_of_ascii c in
  ((9 <=? n) && (n <=? 13) || (28 <=? n) && (n <=? 32)
   || (n =? 133) || (n =? 160))%N.

(** [str.lstrip()]. *)
Fixpoint lstrip (s : string) : string :=
  match s with
  | EmptyString => EmptyString
  | String c s' => if isspace c then lstrip s' else s
  end.

(** [str.rstrip()]. *)
Fixpoint rstrip (s : string) : string :=
  match s with
  | EmptyString => EmptyString
  | String c s' =>
      match rstrip s' with
      | EmptyString => if isspace c then EmptyString else String c EmptyString
      | r => String c r
      end
  end.

(** [str.strip()]. *)
Definition strip (s : string) : string := rstrip (lstrip s).

(** Truth value of a string: [bool(s)]. *)
Definition nonempty (s : string) : bool :=
  match s with EmptyString => false | String _ _ => true end.

(** [str.lower()] on one character (ASCII letters). *)
Definition lower_char (c : ascii) : ascii :=
  let n := N_of_ascii c in
  if ((65 <=? n) && (n <=? 90))%N then ascii_of_N (n + 32) else c.

(** [str.lower()]. *)
Fixpoint lower (s : string) : string :=
  match s with
  | EmptyString => EmptyString
  | String c s' => String (lower_char c) (lower s')
  end.

(** [s.endswith(suffix)]. *)
Definition endswith (s suffix : string) : bool :=
  let n := String.length s in
  let m := String.length suffix in
  (m <=? n)%nat && String.eqb (String.substring (n - m) m s) suffix.

(** [s.endswith((a, b, ...))]. *)
Definition endswith_any (s : string) (suffixes : list string) : bool :=
  existsb (endswith s) suffixes.

(** [sep.join(parts)]. *)
Fixpoint join (sep : string) (parts : list string) : string :=
  match parts with
  | [] => EmptyString
  | [p] => p
  | p :: ps => p +:+ sep +:+ join sep ps
  end.

(** Puts a character in front of the first piece of a split. *)
Definition cons_first (c : ascii) (pieces : list string) : list string :=
  match pieces with
  | [] => [String c EmptyString]
  | p :: ps => String c p :: ps
  end.

(** [s.split(sep)] for a non-empty [sep]: the occurrences of [sep] are
    taken leftmost first and do not overlap. [skip] counts the characters
    of a matched separator that are still to be passed over. *)
Fixpoint split_go (sep : string) (skip : nat) (s : string) : list string :=
  match s with
  | EmptyString => [EmptyString]
  | String c s' =>
      match skip with
      | S k => split_go sep k s'
      | O =>
          if String.prefix sep s
          then EmptyString :: split_go sep (String.length sep - 1) s'
          else cons_first c (split_go sep 0 s')
      end
  end.

Definition split (s sep : string) : list string := split_go sep 0 s.

(** [str(n)] for an [int]. *)
Definition of_Z (n : Z) : string := NilEmpty.string_of_int (Z.to_int n).

(** [str(n)] for a non-negative [int] such as an index or a length. *)
Definition of_nat (n : nat) : string := of_Z (Z.of_nat n).

End Str.

(** ** The chunker *)

(** The paragraph separator of the chunker, ["\n\n"]. *)
Definition PARA_SEP : string := String Str.LF (String Str.LF EmptyString).

(** [[c.strip() for c in text.split("\n\n") if c.strip()]]
    ([_ingest_text] and, per page, [_ingest_pdf]). *)
Definition chunk_paragraphs (text : string) : list string :=
  omap (fun c => if Str.nonempty (Str.strip c) then Some (Str.strip c) else None)
       (Str.split text PARA_SEP).

(** ** Values, exceptions and the world *)

(** A value stored in a metadata record or in a returned record. *)
Inductive pyval :=
| PStr (s : string)
| PInt (n : Z).

(** [str(v)], what an f-string prints for [v]. *)
Definition py_str (v : pyval) : string :=
  match v with
  | PStr s => s
  | PInt n => Str.of_Z n
  end.

(** A metadata record or a returned record: a [dict] with string keys. *)
Abbreviation pydict := (gmap string pyval).

(** An embedding vector, one row of the array a model returns. *)
Definition vec : Type := list Q.

(** A decoded image. *)
Definition image : Type := string.

(** Exceptions. [Exception] stands for any exception that is neither an
    [HTTPException] nor a [TesseractNotFoundError]; all of them derive from
    Python's [Exception]. *)
Inductive exn :=
| HTTPException (status_code : Z) (detail : string)
| TesseractNotFoundError (msg : string)
| Exception (msg : string).

(** [str(e)]. *)
Definition exn_str (e : exn) : string :=
  match e with
  | HTTPException c d => Str.of_Z c +:+ ": " +:+ d
  | TesseractNotFoundError m => m
  | Exception m => m
  end.

Definition is_HTTPException (e : exn) : bool :=
  match e with HTTPException _ _ => true | _ => false end.

Inductive result (A : Type) :=
| Ok (a : A)
| Raise (e : exn).
Arguments Ok {A} a.
Arguments Raise {A} e.

(** What one similarity query of a collection answers. The store is asked
    one query at a time, so every field of its answer is either missing or
    a table of one row: the row is kept. *)
Record QueryResult := {
  qr_ids : list string;
  qr_distances : option (list Q);
  qr_metadatas : option (list pydict);
  qr_documents : option (list string);
}.

(** The calls made to the collaborators, as they reach them. *)
Inductive call :=
| CEncodeText (texts : list string)
| CEncodeClipText (texts : list string)
| CEncodeImage (img : image)
| CImageToString (img : image) (lang : string)
| CUpsert (collection : string) (ids : list string) (embeddings : list vec)
          (metadatas : list pydict) (documents : option (list string))
| CQuery (collection : string) (query_embedding : vec) (n_results : Z).

(** The world a request runs in: the files on disk, the calls made so far
    (oldest first) and the number of identifiers drawn from [uuid4]. *)
Record world := {
  files : gmap string string;
  calls : list call;
  drawn : nat;
}.

(** ** Collaborators *)

(** The two sentence-transformer models. *)
Class EmbeddingModels := {
  text_model_encode : list string -> result (list vec);
  clip_model_encode : list string -> result (list vec);
  clip_model_encode_image : image -> result (list vec);
}.

(** The Chroma collections. *)
Class VectorStore := {
  collection_upsert :
    string -> list string -> list vec -> list pydict -> option (list string) ->
    result unit;
  collection_query : string -> vec -> Z -> result QueryResult;
}.

(** [pytesseract.image_to_string]. *)
Class Tesseract := {
  image_to_string : image -> string -> result string;
}.

(** [Image.open(path).convert("RGB")], [PdfReader(path).pages] with
    [extract_text] of each page, and pypdfium2's rendering of each page to
    the bytes of a PNG file; each reads the bytes of the file. *)
Class Decoders := {
  image_open : string -> result image;
  pdf_page_texts : string -> result (list (option string));
  pdf_render_pages : string -> result (list string);
}.

(** The host: [uuid.uuid4] (the [n]-th identifier drawn),
    [datetime.utcnow().isoformat()] and [os.path]. *)
Class Host := {
  uuid4 : nat -> string;
  utcnow_isoformat : string;
  path_join : string -> string -> string;
  path_basename : string -> string;
  path_splitext_root : string -> string;
}.

(** ** The monad of a request *)

Definition M (A : Type) : Type := world -> result A * world.

Definition ret {A} (a : A) : M A := fun w => (Ok a, w).

Definition raise {A} (e : exn) : M A := fun w => (Raise e, w).

Definition bind {A B} (m : M A) (k : A -> M B) : M B :=
  fun w =>
    match m w with
    | (Ok a, w') => k a w'
    | (Raise e, w') => (Raise e, w')
    end.

(** [try: body except Exception as e: handler(e)]. *)
Definition try_except {A} (body : M A) (handler : exn -> M A) : M A :=
  fun w =>
    match body w with
    | (Ok a, w') => (Ok a, w')
    | (Raise e, w') => handler e w'
    end.

Notation "x <- m ;; k" := (bind m (fun x => k))
  (at level 100, m at next level, right associativity).
Notation "m ;;; k" := (bind m (fun _ => k))
  (at level 100, right associativity).

(** A call to a collaborator: it is recorded, then answered. *)
Definition perform {A} (c : call) (answer : result A) : M A :=
  fun w =>
    (answer, {| files := files w; calls := calls w ++ [c]; drawn := drawn w |}).

(** [open(path, "wb")] with [f.write(content)]. *)
Definition write_file (path content : string) : M unit :=
  fun w =>
    (Ok tt, {| files := <[path := content]> (files w);
               calls := calls w; drawn := drawn w |}).

(** [open(path)] with [f.read()]; the file is read as the text it decodes
    to. *)
Definition read_file (path : string) : M string :=
  fun w =>
    match files w !! path with
    | Some content => (Ok content, w)
    | None => (Raise (Exception ("No such file or directory: " +:+ path)), w)
    end.

(** The answer of a collaborator that is not recorded as a call. *)
Definition lift {A} (answer : result A) : M A := fun w => (answer, w).

(** [l[i]]. *)
Definition index {A} (l : list A) (i : nat) : M A :=
  match l !! i with
  | Some a => ret a
  | None => raise (Exception "list index out of range")
  end.

(** Runs [f] on each element in turn, left to right. *)
Fixpoint for_each {A B} (f : A -> M B) (l : list A) : M (list B) :=
  match l with
  | [] => ret []
  | a :: l' => b <- f a ;; bs <- for_each f l' ;; ret (b :: bs)
  end.

Section Program.

Context `{EmbeddingModels, VectorStore, Tesseract, Decoders, Host}.

(** [str(uuid.uuid4())]. *)
Definition fresh_uuid : M string :=
fun w =>
  (Ok (uuid4 (drawn w)),
   {| files := files w; calls := calls w; drawn := S (drawn w) |}).

(** ** app/embeddings.py *)

Definition embed_text (texts : list string) : M (list vec) :=
perform (CEncodeText texts) (text_model_encode texts).

Definition embed_clip_text (texts : list string) : M (list vec) :=
perform (CEncodeClipText texts) (clip_model_encode texts).

Definition embed_image (img : image) : M (list vec) :=
perform (CEncodeImage img) (clip_model_encode_image img).

(** ** app/storage.py *)

Definition TEXT_COLLECTION : string := "documents_text".
Definition IMAGE_COLLECTION : string := "documents_image".

Definition upsert_text (ids : list string) (embeddings : list vec)
  (metadatas : list pydict) (documents : list string) : M unit :=
perform (CUpsert TEXT_COLLECTION ids embeddings metadatas (Some documents))
        (collection_upsert TEXT_COLLECTION ids embeddings metadatas
                           (Some documents)).

Definition upsert_images (ids : list string) (embeddings : list vec)
  (metadatas : list pydict) : M unit :=
perform (CUpsert IMAGE_COLLECTION ids embeddings metadatas None)
        (collection_upsert IMAGE_COLLECTION ids embeddings metadatas None).

Definition query_text (query_embedding : vec) (top_k : Z) : M QueryResult :=
perform (CQuery TEXT_COLLECTION query_embedding top_k)
        (collection_query TEXT_COLLECTION query_embedding top_k).

Definition query_images (query_embedding : vec) (top_k : Z) : M QueryResult :=
perform (CQuery IMAGE_COLLECTION query_embedding top_k)
        (collection_query IMAGE_COLLECTION query_embedding top_k).

(** ** app/utils/ocr_utils.py *)

(** [ocr_image]: the text the engine reads, stripped; the empty string when
  the engine is not found or raises anything else. *)
Definition ocr_image (img : image) : M string :=
try_except
  (text <- perform (CImageToString img "eng") (image_to_string img "eng") ;;
   ret (Str.strip text))
  (fun e =>
     match e with
     | TesseractNotFoundError _ => ret EmptyString
     | _ => ret EmptyString
     end).

(** ** app/utils/pdf_utils.py *)

(** [enumerate(l, start)]. *)
Definition enumerate {A} (start : nat) (l : list A) : list (nat * A) :=
imap (fun i a => (start + i, a))%nat l.

(** [extract_pdf_text_per_page]: the pages numbered from 1, the text of each
  stripped, a page without text as the empty string. *)
Definition extract_pdf_text_per_page (pdf_path : string) : M (list (nat * string)) :=
content <- read_file pdf_path ;;
pages <- lift (pdf_page_texts content) ;;
ret (map (fun '(idx, text) => (idx, Str.strip (default EmptyString text)))
         (enumerate 1 pages)).

(** [extract_pdf_images]: each page rendered and saved as
  [page<n>.png] under [output_dir]; the records hold the page number and
  the path. *)
Definition extract_pdf_images (pdf_path output_dir : string) : M (list (nat * string)) :=
content <- read_file pdf_path ;;
rendered <- lift (pdf_render_pages content) ;;
for_each
  (fun '(page_index, png) =>
     let filename := "page" +:+ Str.of_nat (page_index + 1) +:+ ".png" in
     let out_path := path_join output_dir filename in
     write_file out_path png ;;;
     ret ((page_index + 1)%nat, out_path))
  (enumerate 0 rendered).

(** ** app/ingestion.py *)

Definition SUPPORTED_TEXT : gset string := {[ "text/plain" ]}.
Definition SUPPORTED_IMAGES : gset string :=
{[ "image/png"; "image/jpeg"; "image/jpg" ]}.
Definition SUPPORTED_PDF : gset string := {[ "application/pdf" ]}.

(** A dict literal. *)
Definition dict (items : list (string * pyval)) : pydict := list_to_map items.

(** [len(x)] as a stored value. *)
Definition PLen (n : nat) : pyval := PInt (Z.of_nat n).

(** The identifier of chunk [i] of a text file: [f"txt::{doc_id}::{i}"]. *)
Definition text_chunk_id (doc_id : string) (i : nat) : string :=
"txt::" +:+ doc_id +:+ "::" +:+ Str.of_nat i.

(** The identifier of an image file: [f"img::{doc_id}"]. *)
Definition image_id (doc_id : string) : string := "img::" +:+ doc_id.

(** The identifier of a rendered page of a PDF:
  [f"pdfimg::{doc_id}::p{rec['page']}::{os.path.basename(img_path)}"]. *)
Definition pdf_image_id (doc_id : string) (page : nat) (img_path : string) : string :=
"pdfimg::" +:+ doc_id +:+ "::p" +:+ Str.of_nat page +:+ "::"
+:+ path_basename img_path.

(** The identifier of a text chunk of a PDF, read back from its metadata:
  [f"pdftext::{doc_id}::p{m['page']}::c{m['chunk_index']}"]. *)
Definition pdf_text_id (doc_id : string) (m : pydict) : string :=
"pdftext::" +:+ doc_id +:+ "::p" +:+ from_option py_str EmptyString (m !! "page")
+:+ "::c" +:+ from_option py_str EmptyString (m !! "chunk_index").

Definition _ingest_text (path : string) : M pydict :=
raw <- read_file path ;;
let text := Str.strip raw in
if negb (Str.nonempty text)
then raise (HTTPException 400 "Empty text file")
else
  let chunks := chunk_paragraphs text in
  emb <- embed_text chunks ;;
  doc_id <- fresh_uuid ;;
  let timestamp := utcnow_isoformat in
  let ids := map (text_chunk_id doc_id) (seq 0 (length chunks)) in
  let metas :=
    map (fun i : nat =>
           dict [("doc_id", PStr doc_id);
                 ("file_type", PStr "text");
                 ("source_path", PStr path);
                 ("chunk_index", PLen i);
                 ("uploaded_at", PStr timestamp)])
        (seq 0 (length chunks)) in
  upsert_text ids emb metas chunks ;;;
  ret (dict [("status", PStr "ok");
             ("ingested_chunks", PLen (length chunks));
             ("doc_id", PStr doc_id)]).

Definition _ingest_image (path : string) : M pydict :=
try_except
  (content <- read_file path ;;
   img <- lift (image_open content) ;;
   image_emb <- embed_image img ;;
   doc_id <- fresh_uuid ;;
   let timestamp := utcnow_isoformat in
   ocr_text <- ocr_image img ;;
   let ids := [image_id doc_id] in
   let metas :=
     [dict [("doc_id", PStr doc_id);
            ("file_type", PStr "image");
            ("source_path", PStr path);
            ("uploaded_at", PStr timestamp);
            ("ocr_text", PStr ocr_text)]] in
   upsert_images ids image_emb metas ;;;
   ret (dict [("status", PStr "ok");
              ("ingested_images", PInt 1);
              ("doc_id", PStr doc_id);
              ("ocr_chars", PLen (String.length ocr_text))]))
  (fun e => raise e).

(** The text pass of [_ingest_pdf] over one page: its chunks, each with its
  metadata. *)
Definition pdf_page_chunks (doc_id path timestamp : string)
  (page : nat * string) : list (string * pydict) :=
let '(page_num, page_text) := page in
if Str.nonempty page_text
then
  map (fun '(idx, chunk) =>
         (chunk,
          dict [("doc_id", PStr doc_id);
                ("file_type", PStr "pdf_text");
                ("source_path", PStr path);
                ("uploaded_at", PStr timestamp);
                ("page", PLen page_num);
                ("chunk_index", PLen idx)]))
      (enumerate 0 (chunk_paragraphs page_text))
else [].

(** The raster pass of [_ingest_pdf] over one rendered page: its embedding,
  its identifier and its metadata. *)
Definition pdf_page_image (doc_id path timestamp : string)
  (rec : nat * string) : M (vec * string * pydict) :=
let '(page, img_path) := rec in
content <- read_file img_path ;;
img <- lift (image_open content) ;;
ocr_text <- ocr_image img ;;
emb <- embed_image img ;;
row <- index emb 0 ;;
ret (row,
     pdf_image_id doc_id page img_path,
     dict [("doc_id", PStr doc_id);
           ("file_type", PStr "pdf_image");
           ("source_path", PStr path);
           ("uploaded_at", PStr timestamp);
           ("page", PLen page);
           ("image_path", PStr img_path);
           ("ocr_text", PStr ocr_text)]).

Definition _ingest_pdf (path : string) : M pydict :=
doc_id <- fresh_uuid ;;
let timestamp := utcnow_isoformat in
try_except
  (pages <- extract_pdf_text_per_page path ;;
   let text_units := flat_map (pdf_page_chunks doc_id path timestamp) pages in
   let text_chunks := map fst text_units in
   let text_metas := map snd text_units in
   let extract_dir :=
     path_join "data/extracted" (path_splitext_root (path_basename path)) in
   image_records <- extract_pdf_images path extract_dir ;;
   image_units <- for_each (pdf_page_image doc_id path timestamp) image_records ;;
   let image_embeddings_list := map (fun u => fst (fst u)) image_units in
   let image_ids := map (fun u => snd (fst u)) image_units in
   let image_metas := map snd image_units in
   (match text_chunks with
    | [] => ret tt
    | _ =>
        text_emb <- embed_text text_chunks ;;
        let text_ids := map (pdf_text_id doc_id) text_metas in
        upsert_text text_ids text_emb text_metas text_chunks
    end) ;;;
   (match image_embeddings_list with
    | [] => ret tt
    | _ => upsert_images image_ids image_embeddings_list image_metas
    end) ;;;
   ret (dict [("status", PStr "ok");
              ("doc_id", PStr doc_id);
              ("text_chunks", PLen (length text_chunks));
              ("embedded_images", PLen (length image_embeddings_list))]))
  (fun e => raise e).

(** What an upload is routed to. *)
Inductive kind := KText | KImage | KPdf.

(** The [if]/[elif] chain of [process_upload]: the first branch whose test
  holds. *)
Definition classify (content_type filename : string) : option kind :=
if bool_decide (content_type ∈ SUPPORTED_TEXT)
   || Str.endswith (Str.lower filename) ".txt"
then Some KText
else if bool_decide (content_type ∈ SUPPORTED_IMAGES)
        || Str.endswith_any (Str.lower filename) [".png"; ".jpg"; ".jpeg"]
then Some KImage
else if bool_decide (content_type ∈ SUPPORTED_PDF)
        || Str.endswith (Str.lower filename) ".pdf"
then Some KPdf
else None.

(** FastAPI's [UploadFile]: the declared content type and the file name may
  be missing. *)
Record UploadFile := {
upload_content_type : option string;
upload_filename : option string;
upload_content : string;
}.

(** [x or y] on optional strings: [x] unless it is missing or empty. *)
Definition str_or (x : option string) (y : string) : string :=
match x with
| Some (String c s) => String c s
| _ => y
end.

Definition process_upload (file : UploadFile) : M pydict :=
let content_type := str_or (upload_content_type file) EmptyString in
filename <-
  (match upload_filename file with
   | Some (String c s) => ret (String c s)
   | _ => u <- fresh_uuid ;; ret ("upload_" +:+ u)
   end) ;;
let upload_dir := "data/uploads" in
let stored_path := path_join upload_dir filename in
try_except
  (write_file stored_path (upload_content file) ;;;
   match classify content_type filename with
   | Some KText => _ingest_text stored_path
   | Some KImage => _ingest_image stored_path
   | Some KPdf => _ingest_pdf stored_path
   | None =>
       raise (HTTPException 415 ("Unsupported file type: " +:+ content_type))
   end)
  (fun e =>
     if is_HTTPException e
     then raise e
     else raise (HTTPException 500 ("Error processing file: " +:+ exn_str e))).

End Program.

(** ** app/retrieval.py *)

Local Open Scope Q_scope.

(** [x < y] on scores. *)
Definition Qlt_bool (x y : Q) : bool := negb (Qle_bool y x).

(** [min(scores)] from its first element on: a later element replaces the
    current minimum when it is strictly smaller. *)
Definition py_min (first : Q) (rest : list Q) : Q :=
  fold_left (fun m x => if Qlt_bool x m then x else m) rest first.

(** [max(scores)], likewise with strictly greater. *)
Definition py_max (first : Q) (rest : list Q) : Q :=
  fold_left (fun m x => if Qlt_bool m x then x else m) rest first.

(** The default tolerances of [math.isclose]. *)
Definition REL_TOL : Q := 1 # 1000000000.
Definition ABS_TOL : Q := 0.

(** [math.isclose(a, b)]: equal, or apart by at most [REL_TOL] times the
    larger magnitude (or by at most [ABS_TOL]). *)
Definition isclose (a b : Q) : bool :=
  Qeq_bool a b
  || (let diff := Qabs (b - a) in
      Qle_bool diff (Qabs (REL_TOL * b))
      || Qle_bool diff (Qabs (REL_TOL * a))
      || Qle_bool diff ABS_TOL).

Definition _normalize_scores (scores : list Q) : list Q :=
  match scores with
  | [] => []
  | first :: rest =>
      let mn := py_min first rest in
      let mx := py_max first rest in
      if isclose mx mn
      then map (fun _ => 1) scores
      else map (fun s => (s - mn) / (mx - mn)) scores
  end.

Local Close Scope Q_scope.

(** [parts.append(x) if cond]. *)
Definition append_if (cond : bool) (x : string) (parts : list string) : list string :=
  if cond then parts ++ [x] else parts.

(** [key in metadata]. *)
Definition has_key (metadata : pydict) (key : string) : bool :=
  bool_decide (is_Some (metadata !! key)).

(** [metadata[key]] where the key is known to be there. *)
Definition item (metadata : pydict) (key : string) : pyval :=
  default (PStr EmptyString) (metadata !! key).

Definition _format_source_attribution (metadata : pydict) : string :=
  let file_type := default (PStr "unknown") (metadata !! "file_type") in
  let source_path := default (PStr "unknown") (metadata !! "source_path") in
  let parts := ["Source: " +:+ py_str source_path; "Type: " +:+ py_str file_type] in
  let parts :=
    append_if (has_key metadata "page")
              ("Page: " +:+ py_str (item metadata "page")) parts in
  let parts :=
    append_if (has_key metadata "chunk_index")
              ("Chunk: " +:+ py_str (item metadata "chunk_index")) parts in
  let parts :=
    append_if (has_key metadata "uploaded_at")
              ("Uploaded: " +:+ py_str (item metadata "uploaded_at")) parts in
  Str.join " | " parts.

(** One entry of the merged list. [mr_ocr_text] is there for image entries
    only. *)
Record MergedResult := {
  mr_id : string;
  mr_score : Q;
  mr_modality : string;
  mr_document : option string;
  mr_metadata : pydict;
  mr_source : string;
  mr_ocr_text : option pyval;
}.

(** What [multimodal_query] returns. *)
Record QueryResponse := {
  resp_query : string;
  resp_results : list MergedResult;
  resp_total_results : nat;
}.

(** [list.sort(key=..., reverse=True)]: Python's sort is stable, also when
    reversed, so an element goes in front of the first one whose key is not
    greater than its own. *)
Fixpoint insert_desc {A} (key : A -> Q) (x : A) (l : list A) : list A :=
  match l with
  | [] => [x]
  | y :: l' =>
      if Qlt_bool (key x) (key y) then y :: insert_desc key x l' else x :: l
  end.

Definition sort_desc {A} (key : A -> Q) (l : list A) : list A :=
  foldr (insert_desc key) [] l.

(** [l[:k]]: the first [k] elements, or all but the last [-k] when [k] is
    negative. *)
Definition slice_to {A} (l : list A) (k : Z) : list A :=
  if (0 <=? k)%Z
  then take (Z.to_nat k) l
  else take (Z.to_nat (Z.of_nat (length l) + k)) l.

(** The last two statements before the return of [multimodal_query]:
    [merged.sort(key=lambda x: x["score"], reverse=True)] and
    [merged[:top_k]]. *)
Definition merge_top_k (merged : list MergedResult) (top_k : Z) : list MergedResult :=
  slice_to (sort_desc mr_score merged) top_k.

(** [scores[i] if i < len(scores) else 0.0]. *)
Definition score_at (scores : list Q) (i : nat) : Q :=
  default 0%Q (scores !! i).

(** [1.0 - d] for each distance of the answer, none when the answer has no
    distances. *)
Definition raw_scores (r : QueryResult) : list Q :=
  match qr_distances r with
  | Some ds => map (fun d => (1 - d)%Q) ds
  | None => []
  end.

(** The metadata of entry [i], an empty dict when the answer has none. *)
Definition metadata_at (r : QueryResult) (i : nat) : M pydict :=
  match qr_metadatas r with
  | Some ms => index ms i
  | None => ret ∅
  end.

(** The loop over the text answer. *)
Definition text_entries (r : QueryResult) (scores : list Q) : M (list MergedResult) :=
  for_each
    (fun '(i, _id) =>
       metadata <- metadata_at r i ;;
       document <-
         (match qr_documents r with
          | Some ds => d <- index ds i ;; ret (Some d)
          | None => ret None
          end) ;;
       ret {| mr_id := _id;
              mr_score := score_at scores i;
              mr_modality := "text";
              mr_document := document;
              mr_metadata := metadata;
              mr_source := _format_source_attribution metadata;
              mr_ocr_text := None |})
    (enumerate 0 (qr_ids r)).

(** The loop over the image answer. *)
Definition image_entries (r : QueryResult) (scores : list Q) : M (list MergedResult) :=
  for_each
    (fun '(i, _id) =>
       metadata <- metadata_at r i ;;
       ret {| mr_id := _id;
              mr_score := score_at scores i;
              mr_modality := "image";
              mr_document := None;
              mr_metadata := metadata;
              mr_source := _format_source_attribution metadata;
              mr_ocr_text :=
                Some (default (PStr EmptyString) (metadata !! "ocr_text")) |})
    (enumerate 0 (qr_ids r)).

Section Retrieval.

Context `{EmbeddingModels, VectorStore}.

Definition multimodal_query (query : string) (top_k : Z) : M QueryResponse :=
text_emb <- (embs <- embed_text [query] ;; index embs 0) ;;
text_results <- query_text text_emb top_k ;;
clip_text_emb <- (embs <- embed_clip_text [query] ;; index embs 0) ;;
image_results <- query_images clip_text_emb top_k ;;
let text_scores := _normalize_scores (raw_scores text_results) in
let image_scores := _normalize_scores (raw_scores image_results) in
from_text <- text_entries text_results text_scores ;;
from_images <- image_entries image_results image_scores ;;
let merged := from_text ++ from_images in
let final_results := merge_top_k merged top_k in
ret {| resp_query := query;
       resp_results := final_results;
       resp_total_results := length final_results |}.

End Retrieval.

(** ** Sample collaborators

    Stand-ins for the collaborators, for running the program on concrete
    inputs. *)

Module Sample.

(** Models that embed everything as the one-dimensional vector [1]. *)
Definition models : EmbeddingModels := {|
  text_model_encode texts := Ok (map (fun _ => [1%Q]) texts);
  clip_model_encode texts := Ok (map (fun _ => [1%Q]) texts);
  clip_model_encode_image _ := Ok [[1%Q]];
|}.

(** A store that accepts every upsert and answers every query of the text
    collection with [text_answer] and of the image collection with
    [image_answer]. *)
Definition store (text_answer image_answer : QueryResult) : VectorStore := {|
  collection_upsert _ _ _ _ _ := Ok tt;
  collection_query collection _ _ :=
    if String.eqb collection TEXT_COLLECTION
    then Ok text_answer else Ok image_answer;
|}.

Definition no_answer : QueryResult := {|
  qr_ids := []; qr_distances := Some []; qr_metadatas := Some [];
  qr_documents := Some [];
|}.

(** A machine without Tesseract. *)
Definition tesseract_missing : Tesseract := {|
  image_to_string _ _ :=
    Raise (TesseractNotFoundError "tesseract is not installed");
|}.

(** An engine that fails on every image. *)
Definition tesseract_failing : Tesseract := {|
  image_to_string _ _ := Raise (Exception "Tesseract error");
|}.

(** An engine that reads [text] on every image. *)
Definition tesseract_reading (text : string) : Tesseract := {|
  image_to_string _ _ := Ok text;
|}.

(** Decoders for files whose bytes are their own pixels, and for PDF
    files that hold one line of native text, and one rendered image,
    per page. *)
Definition decoders : Decoders := {|
  image_open content := Ok content;
  pdf_page_texts content :=
    Ok (map Some (Str.split content (String Str.LF EmptyString)));
  pdf_render_pages content :=
    Ok (Str.split content (String Str.LF EmptyString));
|}.

(** A host with POSIX paths whose [n]-th identifier is [doc<n>]. *)
Definition host : Host := {|
  uuid4 n := "doc" +:+ Str.of_nat n;
  utcnow_isoformat := "2024-01-01T00:00:00";
  path_join a b := a +:+ "/" +:+ b;
  path_basename p := List.last (Str.split p "/") EmptyString;
  path_splitext_root p :=
    match Str.split p "." with
    | [] | [_] => p
    | parts => Str.join "." (removelast parts)
    end;
|}.

(** Two text chunks at cosine distances 0.1 and 0.6. *)
Definition text_answer : QueryResult := {|
  qr_ids := ["txt::d::0"; "txt::d::1"];
  qr_distances := Some [1 # 10; 6 # 10]%Q;
  qr_metadatas :=
    Some [dict [("file_type", PStr "text"); ("source_path", PStr "data/uploads/d.txt");
                ("chunk_index", PInt 0)];
          dict [("file_type", PStr "text"); ("source_path", PStr "data/uploads/d.txt");
                ("chunk_index", PInt 1)]];
  qr_documents := Some ["A"; "B"];
|}.

(** Two images at cosine distances 0.05 and 0.5. *)
Definition image_answer : QueryResult := {|
  qr_ids := ["img::e"; "img::f"];
  qr_distances := Some [5 # 100; 5 # 10]%Q;
  qr_metadatas :=
    Some [dict [("file_type", PStr "image"); ("source_path", PStr "data/uploads/e.png");
                ("ocr_text", PStr "cat")];
          dict [("file_type", PStr "image"); ("source_path", PStr "data/uploads/f.png");
                ("ocr_text", PStr "")]];
  qr_documents := None;
|}.

Definition empty_world : world := {| files := ∅; calls := []; drawn := 0 |}.

(** An upload declared and named as a PNG image. *)
Definition png_upload : UploadFile := {|
  upload_content_type := Some "image/png";
  upload_filename := Some "sign.png";
  upload_content := "pixels";
|}.

(** A world whose only file is [path]. *)
Definition world_with (path content : string) : world :=
  {| files := {[ path := content ]}; calls := []; drawn := 0 |}.

End Sample.

(** ** Closed forms of what the routines compute

    What the statements below say the routines return and leave behind,
    and the wording of the specification where a statement compares the
    code with it. *)

(** The part of an attribution string for an optional field: there when the
    key is. *)
Definition optional_part (label : string) (metadata : pydict) (key : string) : list string :=
  match metadata !! key with
  | Some v => [label +:+ py_str v]
  | None => []
  end.

(** The elements of [l] whose score equals [v], in the order of [l]. *)
Definition with_score (v : Q) (l : list MergedResult) : list MergedResult :=
  List.filter (fun r => Qeq_bool (mr_score r) v) l.

(** A merged entry with only its identifier, score and modality filled in. *)
Definition candidate (modality id : string) (score : Q) : MergedResult := {|
  mr_id := id; mr_score := score; mr_modality := modality;
  mr_document := None; mr_metadata := ∅; mr_source := EmptyString;
  mr_ocr_text := None;
|}.

Section ClosedForms.

Context `{EmbeddingModels, VectorStore, Tesseract, Decoders, Host}.

(** Descending: every element is followed only by elements whose key is
    not greater. *)
Definition descending {A} (key : A -> Q) : list A -> Prop :=
  StronglySorted (fun a b => (key b <= key a)%Q).

(** The answer of the store has a metadata record, and a document when it
    has documents at all, for each of its identifiers. *)
Definition aligned (r : QueryResult) : bool :=
  match qr_metadatas r with
  | Some ms => (length (qr_ids r) <=? length ms)%nat
  | None => true
  end
  && match qr_documents r with
     | Some ds => (length (qr_ids r) <=? length ds)%nat
     | None => true
     end.

(** The entry [text_entries] builds for the identifier at position [i]. *)
Definition text_entry (r : QueryResult) (scores : list Q) (p : nat * string) : MergedResult :=
  let metadata := default ∅ (ms ← qr_metadatas r; ms !! p.1) in
  {| mr_id := p.2;
     mr_score := score_at scores p.1;
     mr_modality := "text";
     mr_document := ds ← qr_documents r; ds !! p.1;
     mr_metadata := metadata;
     mr_source := _format_source_attribution metadata;
     mr_ocr_text := None |}.

(** The entry [image_entries] builds for the identifier at position [i]. *)
Definition image_entry (r : QueryResult) (scores : list Q) (p : nat * string) : MergedResult :=
  let metadata := default ∅ (ms ← qr_metadatas r; ms !! p.1) in
  {| mr_id := p.2;
     mr_score := score_at scores p.1;
     mr_modality := "image";
     mr_document := None;
     mr_metadata := metadata;
     mr_source := _format_source_attribution metadata;
     mr_ocr_text := Some (default (PStr EmptyString) (metadata !! "ocr_text")) |}.

(** The candidates of the two modalities, scores normalized per modality. *)
Definition text_candidates (r : QueryResult) : list MergedResult :=
  map (text_entry r (_normalize_scores (raw_scores r))) (enumerate 0 (qr_ids r)).

Definition image_candidates (r : QueryResult) : list MergedResult :=
  map (image_entry r (_normalize_scores (raw_scores r))) (enumerate 0 (qr_ids r)).

(** The collaborators answer the query [query] for [top_k] results:
    the two models with at least one row each, the store with [tr] for the
    text collection and [ir] for the image collection. *)
Definition answered (query : string) (top_k : Z) (tr ir : QueryResult) : Prop :=
  exists text_emb text_rows clip_emb clip_rows,
    text_model_encode [query] = Ok (text_emb :: text_rows) /\
    collection_query TEXT_COLLECTION text_emb top_k = Ok tr /\
    clip_model_encode [query] = Ok (clip_emb :: clip_rows) /\
    collection_query IMAGE_COLLECTION clip_emb top_k = Ok ir.

(** What [ocr_image] returns for [img]: the stripped text when the engine
    answers, the empty string when it raises. *)
Definition ocr_outcome (img : image) : string :=
  match image_to_string img "eng" with
  | Ok text => Str.strip text
  | Raise _ => EmptyString
  end.

(** The world after [cs] more calls and [n] more identifiers drawn. *)
Definition after (w : world) (cs : list call) (n : nat) : world :=
  {| files := files w; calls := calls w ++ cs; drawn := (drawn w + n)%nat |}.

(** The metadata [_ingest_image] stores with the image. *)
Definition image_metadata (doc_id path ocr_text : string) : pydict :=
  dict [("doc_id", PStr doc_id);
        ("file_type", PStr "image");
        ("source_path", PStr path);
        ("uploaded_at", PStr utcnow_isoformat);
        ("ocr_text", PStr ocr_text)].





(** What [process_upload] raises for an exception of its [try] block. *)
Definition as_http_error (e : exn) : exn :=
  if is_HTTPException e then e
  else HTTPException 500 ("Error processing file: " +:+ exn_str e).

(** The name an upload is stored under: its own, or a generated one when it
    has none. *)
Definition upload_name (file : UploadFile) (w : world) : string :=
  match upload_filename file with
  | Some (String c s) => String c s
  | _ => "upload_" +:+ uuid4 (drawn w)
  end.

(** Where an upload is stored. *)
Definition stored_path (file : UploadFile) (w : world) : string :=
  path_join "data/uploads" (upload_name file w).

(** The world once the upload is stored. *)
Definition saved (file : UploadFile) (w : world) : world :=
  {| files := <[stored_path file w := upload_content file]> (files w);
     calls := calls w;
     drawn := match upload_filename file with
              | Some (String _ _) => drawn w
              | _ => S (drawn w)
              end |}.

(** [c == "\n"]. *)
Definition is_LF (c : ascii) : bool := Ascii.eqb c Str.LF.

(** [text.split("\n\n")] by its equations: at a line feed followed by
    another the current piece ends and both are passed over; any other
    character goes to the current piece. *)
Fixpoint split_para (s : string) : list string :=
  match s with
  | EmptyString => [EmptyString]
  | String c s' =>
      match s' with
      | String d s'' =>
          if is_LF c && is_LF d then EmptyString :: split_para s''
          else Str.cons_first c (split_para s')
      | EmptyString => Str.cons_first c (split_para s')
      end
  end.

(** Trims a segment and drops it when nothing is left. *)
Definition trimmed (segment : string) : option string :=
  if Str.nonempty (Str.strip segment) then Some (Str.strip segment) else None.

(** The segments of a text as the specification words them: a paragraph
    ends at a boundary, which is the line feed ending its last line and
    then one or more lines without any character, each with its line feed;
    so a boundary is a maximal run of two or more line feeds. A single line
    feed is a line break inside the paragraph. [in_boundary] says that the
    characters read last were line feeds of a boundary. *)
Fixpoint spec_segments (in_boundary : bool) (s : string) : list string :=
  match s with
  | EmptyString => [EmptyString]
  | String c s' =>
      if is_LF c then
        if in_boundary then spec_segments true s'
        else
          match s' with
          | String d s'' =>
              if is_LF d then EmptyString :: spec_segments true s''
              else Str.cons_first c (spec_segments false s')
          | EmptyString => Str.cons_first c (spec_segments false s')
          end
      else Str.cons_first c (spec_segments false s')
  end.

(** The chunker as the specification words it: split at the boundaries,
    trim each segment, drop the empty ones, keep the order. *)
Definition spec_chunks (text : string) : list string :=
  omap trimmed (spec_segments false text).

(** The text has a line without any character between two line feeds. *)
Fixpoint has_blank_line (s : string) : bool :=
  match s with
  | EmptyString => false
  | String c s' =>
      match s' with
      | String d _ => is_LF c && is_LF d || has_blank_line s'
      | EmptyString => false
      end
  end.

(** Every character is white space. *)
Fixpoint blank (s : string) : bool :=
  match s with
  | EmptyString => true
  | String c s' => Str.isspace c && blank s'
  end.

(** The pieces of the code and the segments of the specification: the
    first ones are the same string, the others give the same chunks; and
    the pieces give the chunks of the segments read from inside a
    boundary. *)
Definition same_chunks (s : string) : Prop :=
  (exists x X Y,
     split_para s = x :: X /\ spec_segments false s = x :: Y
     /\ omap trimmed X = omap trimmed Y)
  /\ omap trimmed (split_para s) = omap trimmed (spec_segments true s).

(** The metadata [_ingest_text] stores with chunk [i]. *)
Definition text_metadata (doc_id path : string) (i : nat) : pydict :=
  dict [("doc_id", PStr doc_id);
        ("file_type", PStr "text");
        ("source_path", PStr path);
        ("chunk_index", PLen i);
        ("uploaded_at", PStr utcnow_isoformat)].

(** What follows the document, and the page, in an identifier. *)
Inductive id_suffix :=
| NoSuffix
| ChunkSuffix (chunk_index : nat)
| BasenameSuffix (basename : string).

(** The scheme of the specification:
    [{prefix}::{doc_id}[::p{page}][::c{chunk_index}|::{basename}]]. *)
Definition scheme_id (prefix doc_id : string) (page : option nat)
    (suffix : id_suffix) : string :=
  prefix +:+ "::" +:+ doc_id
  +:+ match page with
      | Some p => "::p" +:+ Str.of_nat p
      | None => EmptyString
      end
  +:+ match suffix with
      | NoSuffix => EmptyString
      | ChunkSuffix i => "::c" +:+ Str.of_nat i
      | BasenameSuffix b => "::" +:+ b
      end.

(** The identifiers handed to the store, call by call, with the collection
    of each call. *)
Definition upserted_ids (cs : list call) : list (string * list string) :=
  omap (fun c =>
          match c with
          | CUpsert collection ids _ _ _ => Some (collection, ids)
          | _ => None
          end) cs.

(** The world changed, the identifiers handed to the store did not. *)
Definition no_upsert (w w' : world) : Prop :=
  upserted_ids (calls w') = upserted_ids (calls w).

(** The pages [extract_pdf_text_per_page] makes of the texts of the
    library. *)
Definition numbered_pages (texts : list (option string)) : list (nat * string) :=
  map (fun '(idx, text) => (idx, Str.strip (default EmptyString text)))
      (enumerate 1 texts).

(** The records [extract_pdf_images] makes of the pages rendered. *)
Definition page_records (output_dir : string) (rendered : list string) : list (nat * string) :=
  map (fun '(page_index, _) =>
         ((page_index + 1)%nat,
          path_join output_dir ("page" +:+ Str.of_nat (page_index + 1) +:+ ".png")))
      (enumerate 0 rendered).

(** The identifiers of the text chunks of the pages, page by page. *)
Definition pdf_text_ids (doc_id : string) (pages : list (nat * string)) : list string :=
  flat_map (fun '(page_num, page_text) =>
              map (fun idx => scheme_id "pdftext" doc_id (Some page_num) (ChunkSuffix idx))
                  (seq 0 (length (chunk_paragraphs page_text))))
           pages.

(** The identifiers of the rendered pages. *)
Definition pdf_image_ids (doc_id : string) (records : list (nat * string)) : list string :=
  map (fun '(page, img_path) =>
         scheme_id "pdfimg" doc_id (Some page)
                   (BasenameSuffix (path_basename img_path)))
      records.

(** One upsert of [ids], none when there is no identifier. *)
Definition upsert_of (collection : string) (ids : list string) : list (string * list string) :=
  match ids with
  | [] => []
  | _ => [(collection, ids)]
  end.

(** Where [_ingest_pdf] has the pages of [path] rendered. *)
Definition extract_dir (path : string) : string :=
  path_join "data/extracted" (path_splitext_root (path_basename path)).

End ClosedForms.

(** ** app/main.py *)

(** The body of a [/query] request; [top_k] is 5 when the request does not
    give it. *)
Record QueryRequest := {
  req_query : string;
  req_top_k : Z;
}.

(** The request [{"query": query}], or [{"query": query, "top_k": k}]. *)
Definition query_request (query : string) (top_k : option Z) : QueryRequest :=
  {| req_query := query; req_top_k := default 5 top_k |}.

(** What both endpoints do with an exception: an [HTTPException] passes,
    anything else becomes status 500 with its text. *)
Definition endpoint_error (e : exn) : exn :=
  if is_HTTPException e then e else HTTPException 500 (exn_str e).

Section Endpoints.

Context `{EmbeddingModels, VectorStore, Tesseract, Decoders, Host}.

(** [GET /health]. *)
Definition health : M pydict :=
  ret (dict [("status", PStr "ok");
             ("timestamp", PStr utcnow_isoformat);
             ("service", PStr "Multimodal RAG System")]).


(** [POST /query]. *)
Definition query_documents (payload : QueryRequest) : M QueryResponse :=
  try_except
    (results <- multimodal_query (req_query payload) (req_top_k payload) ;;
     ret results)
    (fun exc => raise (endpoint_error exc)).

End Endpoints.

(** ** What the properties are stated with *)

(** A computation that leaves the files, the identifiers drawn and the
    identifiers handed to the store as they were, however it ends. *)
Definition read_only {A} (m : M A) : Prop :=
  forall w,
    files (m w).2 = files w
    /\ drawn (m w).2 = drawn w
    /\ upserted_ids (calls (m w).2) = upserted_ids (calls w).

(** A call that is not an upsert. *)
Definition not_upsert (c : call) : Prop :=
  match c with CUpsert _ _ _ _ _ => False | _ => True end.

(** The keys [_format_source_attribution] reads. *)
Definition attribution_keys : list string :=
  ["file_type"; "source_path"; "page"; "chunk_index"; "uploaded_at"].

(** The routine an upload of a kind is handed to. *)
Definition routine `{EmbeddingModels, VectorStore, Tesseract, Decoders, Host}
    (k : kind) : string -> M pydict :=
  match k with
  | KText => _ingest_text
  | KImage => _ingest_image
  | KPdf => _ingest_pdf
  end.

(** [m] takes every world to one that [I] relates it to, however it
    ends. *)
Definition preserves {A} (I : world -> world -> Prop) (m : M A) : Prop :=
  forall w, I w (m w).2.



(** The pieces of [q] are those of [p] but for white space after the last
    one, which may have gone to further pieces. *)
Inductive padded : list string -> list string -> Prop :=
| padded_last (l q : string) (B : list string) :
    Str.rstrip l = Str.rstrip q ->
    Forall (fun p => blank p = true) B ->
    padded [l] (q :: B)
| padded_cons (x : string) (P Q : list string) :
    padded P Q -> padded (x :: P) (x :: Q).

(** A batch handed to the store: the collection, the identifiers, the
    metadatas and the documents. *)
Definition batch : Type :=
  string * list string * list pydict * option (list string).

(** The batches handed to the store, call by call. *)
Definition upserted (cs : list call) : list batch :=
  omap (fun c =>
          match c with
          | CUpsert collection ids _ metadatas documents =>
              Some (collection, ids, metadatas, documents)
          | _ => None
          end) cs.

(** The collection of a batch and how many identifiers, metadatas and
    documents it holds. *)
Definition batch_shape (b : batch) : string * nat * nat * option nat :=
  let '(collection, ids, metadatas, documents) := b in
  (collection, length ids, length metadatas, length <$> documents).

(** One batch of [n] units, none when there is no unit. *)
Definition shape_of (collection : string) (n : nat) (documents : bool)
    : list (string * nat * nat * option nat) :=
  match n with
  | O => []
  | _ => [(collection, n, n, if documents then Some n else None)]
  end.

Section Stored.

Context `{Host}.

(** The metadata [_ingest_pdf] stores with chunk [idx] of page [page]. *)
Definition pdf_text_metadata (doc_id path : string) (page idx : nat) : pydict :=
  dict [("doc_id", PStr doc_id);
        ("file_type", PStr "pdf_text");
        ("source_path", PStr path);
        ("uploaded_at", PStr utcnow_isoformat);
        ("page", PLen page);
        ("chunk_index", PLen idx)].

(** The metadata [_ingest_pdf] stores with the rendered page [page]. *)
Definition pdf_image_metadata (doc_id path : string) (page : nat)
    (img_path ocr_text : string) : pydict :=
  dict [("doc_id", PStr doc_id);
        ("file_type", PStr "pdf_image");
        ("source_path", PStr path);
        ("uploaded_at", PStr utcnow_isoformat);
        ("page", PLen page);
        ("image_path", PStr img_path);
        ("ocr_text", PStr ocr_text)].

(** The chunks of the pages, page by page. *)
Definition pdf_chunks (pages : list (nat * string)) : list string :=
  flat_map (fun page => chunk_paragraphs page.2) pages.

(** The metadatas of the chunks of the pages, page by page. *)
Definition pdf_text_metadatas (doc_id path : string) (pages : list (nat * string))
    : list pydict :=
  flat_map (fun page =>
              map (pdf_text_metadata doc_id path page.1)
                  (seq 0 (length (chunk_paragraphs page.2))))
           pages.

(** What [_format_source_attribution] makes of a stored unit: the file,
    the type, the page and the chunk where the unit has one, the time of
    the upload. *)
Definition attribution (path file_type : string) (page chunk : option nat) : string :=
  "Source: " +:+ path +:+ " | Type: " +:+ file_type
  +:+ from_option (fun p => " | Page: " +:+ Str.of_nat p) EmptyString page
  +:+ from_option (fun i => " | Chunk: " +:+ Str.of_nat i) EmptyString chunk
  +:+ " | Uploaded: " +:+ utcnow_isoformat.

End Stored.

(** The world changed, the batches handed to the store did not. *)
Definition same_upserted (w w' : world) : Prop :=
  upserted (calls w') = upserted (calls w).

(** One batch, none when there is no identifier. *)
Definition batch_of (collection : string) (ids : list string)
    (metadatas : list pydict) (documents : option (list string)) : list batch :=
  match ids with
  | [] => []
  | _ => [(collection, ids, metadatas, documents)]
  end.

(** The type [_ingest_text], [_ingest_image] and [_ingest_pdf] store with
    a unit of a collection. *)
Definition stored_type (k : kind) (collection : string) : string :=
  match k with
  | KText => "text"
  | KImage => "image"
  | KPdf => if String.eqb collection TEXT_COLLECTION then "pdf_text" else "pdf_image"
  end.

(** The prefixes of the identifiers. *)
Definition id_prefixes : list string := ["txt"; "img"; "pdftext"; "pdfimg"].

(** [id] is [<prefix>::<doc_id>] and what follows, for one of the
    prefixes. *)
Definition id_of_document (doc_id id : string) : Prop :=
  exists prefix rest,
    In prefix id_prefixes /\ id = prefix +:+ "::" +:+ doc_id +:+ rest.

(** A call an ingestion may make: the text model is given at least one
    text, and the store at least one identifier, with a metadata for each
    and, where there are documents, a document for each. *)
Definition well_formed_call (c : call) : Prop :=
  match c with
  | CEncodeText texts => texts <> []
  | CUpsert _ ids _ metadatas documents =>
      ids <> []
      /\ length metadatas = length ids
      /\ from_option (fun ds => length ds = length ids) True documents
  | _ => True
  end.

(** The calls made from [w] to [w'] are all well formed. *)
Definition calls_well_formed (w w' : world) : Prop :=
  exists new, calls w' = calls w ++ new /\ Forall well_formed_call new.

(** A column of an answer, when the answer has it, has an entry for each
    of the identifiers. *)
Definition covers {A} (ids : list string) (column : option (list A)) : Prop :=
  forall l, column = Some l -> (length ids <= length l)%nat.

(** What indexing a list out of its range raises. *)
Definition IndexError : exn := Exception "list index out of range".

(** * Properties *)

(** ** Sorting by descending score *)

Section SortDesc.

Context {A : Type} (key : A -> Q).

Lemma Qlt_bool_true (x y : Q) : Qlt_bool x y = true <-> (x < y)%Q.
Proof.
  unfold Qlt_bool. rewrite negb_true_iff.
  split.
  - intros Hle. apply Qnot_le_lt. intros Hyx.
    apply Qle_bool_iff in Hyx. congruence.
  - intros Hlt. destruct (Qle_bool y x) eqn:E; [|reflexivity].
    apply Qle_bool_iff in E. exfalso. exact (Qlt_not_le _ _ Hlt E).
Qed.

Lemma Qlt_bool_false (x y : Q) : Qlt_bool x y = false <-> (y <= x)%Q.
Proof.
  unfold Qlt_bool. rewrite negb_false_iff. apply Qle_bool_iff.
Qed.

Lemma insert_desc_perm (x : A) (l : list A) :
  Permutation (insert_desc key x l) (x :: l).
Proof.
  induction l as [|y l IH]; simpl.
  - reflexivity.
  - destruct (Qlt_bool (key x) (key y)).
    + rewrite IH. apply perm_swap.
    + reflexivity.
Qed.

Lemma sort_desc_perm (l : list A) : Permutation (sort_desc key l) l.
Proof.
  induction l as [|x l IH]; simpl.
  - reflexivity.
  - rewrite insert_desc_perm. now apply perm_skip.
Qed.

Lemma sort_desc_length (l : list A) : length (sort_desc key l) = length l.
Proof. apply Permutation_length, sort_desc_perm. Qed.

Lemma insert_desc_sorted (x : A) (l : list A) :
  descending key l -> descending key (insert_desc key x l).
Proof.
  induction l as [|y l IH]; simpl; intros Hs.
  - constructor; [constructor | constructor].
  - inversion Hs as [|? ? Hl Hy]; subst.
    destruct (Qlt_bool (key x) (key y)) eqn:E.
    + apply Qlt_bool_true in E.
      constructor; [now apply IH |].
      apply List.Forall_forall. intros z Hz.
      apply (Permutation_in _ (insert_desc_perm x l)) in Hz.
      destruct Hz as [<- | Hz].
      * now apply Qlt_le_weak.
      * revert z Hz. now apply List.Forall_forall.
    + apply Qlt_bool_false in E.
      constructor; [exact Hs |].
      constructor; [exact E |].
      eapply List.Forall_impl; [| exact Hy].
      intros z Hz. simpl in Hz. now apply Qle_trans with (key y).
Qed.

Lemma sort_desc_sorted (l : list A) : descending key (sort_desc key l).
Proof.
  induction l as [|x l IH]; simpl.
  - constructor.
  - now apply insert_desc_sorted.
Qed.

(** Stability: among the elements of one key, the order is that of the
    input. *)
Lemma insert_desc_filter (v : Q) (x : A) (l : list A) :
  List.filter (fun a => Qeq_bool (key a) v) (insert_desc key x l) =
  List.filter (fun a => Qeq_bool (key a) v) (x :: l).
Proof.
  induction l as [|y l IH]; [reflexivity|].
  cbn [insert_desc].
  destruct (Qlt_bool (key x) (key y)) eqn:E; [|reflexivity].
  apply Qlt_bool_true in E.
  cbn [List.filter] in *.
  destruct (Qeq_bool (key y) v) eqn:Ey, (Qeq_bool (key x) v) eqn:Ex;
    rewrite IH; try reflexivity.
  apply Qeq_bool_iff in Ey, Ex.
  rewrite Ex, Ey in E. now apply Qlt_irrefl in E.
Qed.

Lemma sort_desc_stable (v : Q) (l : list A) :
  List.filter (fun a => Qeq_bool (key a) v) (sort_desc key l) =
  List.filter (fun a => Qeq_bool (key a) v) l.
Proof.
  induction l as [|x l IH]; [reflexivity|].
  cbn [sort_desc foldr]. fold (sort_desc key l).
  rewrite insert_desc_filter. cbn [List.filter]. now rewrite IH.
Qed.

End SortDesc.

Lemma slice_to_nonneg {A} (l : list A) (k : Z) :
  (0 <= k)%Z -> slice_to l k = take (Z.to_nat k) l.
Proof.
  intros Hk. unfold slice_to.
  destruct (0 <=? k)%Z eqn:E; [reflexivity|]. lia.
Qed.

Lemma slice_to_length {A} (l : list A) (k : Z) :
  (0 <= k)%Z -> length (slice_to l k) = Nat.min (Z.to_nat k) (length l).
Proof.
  intros Hk. rewrite slice_to_nonneg by assumption. apply length_take.
Qed.

(** ** Running the query *)

Lemma for_each_pure {A B} (f : A -> M B) (g : A -> B) (l : list A) (w : world) :
  (forall a, a ∈ l -> f a w = (Ok (g a), w)) ->
  for_each f l w = (Ok (map g l), w).
Proof.
  induction l as [|a l IH]; intros Hf; [reflexivity|].
  cbn [for_each]. unfold bind.
  rewrite Hf by apply list_elem_of_here.
  rewrite IH; [reflexivity|].
  intros b Hb. apply Hf. now apply list_elem_of_further.
Qed.

Lemma for_each_length {A B} (f : A -> M B) (l : list A) (w w' : world) (bs : list B) :
  for_each f l w = (Ok bs, w') -> length bs = length l.
Proof.
  revert w w' bs. induction l as [|a l IH]; intros w w' bs; cbn [for_each].
  - unfold ret. intros [= <- _]. reflexivity.
  - unfold bind. destruct (f a w) as [[b|e] w1]; [|discriminate].
    destruct (for_each f l w1) as [[bs'|e] w2] eqn:E; [|discriminate].
    unfold ret. intros [= <- _]. cbn. f_equal. exact (IH _ _ _ E).
Qed.

Lemma enumerate_length {A} (start : nat) (l : list A) :
  length (enumerate start l) = length l.
Proof. unfold enumerate. apply length_imap. Qed.

Lemma enumerate_lookup {A} (start : nat) (l : list A) (p : nat * A) :
  p ∈ enumerate start l -> l !! (p.1 - start)%nat = Some p.2 /\ (start <= p.1)%nat.
Proof.
  unfold enumerate. intros Hp.
  apply elem_of_lookup_imap in Hp as (i & a & -> & Hi). cbn.
  replace (start + i - start)%nat with i by lia. split; [exact Hi | lia].
Qed.

Lemma index_lookup {A} (l : list A) (i : nat) (a : A) (w : world) :
  l !! i = Some a -> index l i w = (Ok a, w).
Proof. intros Hi. unfold index. now rewrite Hi. Qed.

Lemma metadata_at_run (r : QueryResult) (p : nat * string) (w : world) :
  aligned r = true -> p ∈ enumerate 0 (qr_ids r) ->
  metadata_at r p.1 w = (Ok (default ∅ (ms ← qr_metadatas r; ms !! p.1)), w).
Proof.
  intros Hal Hp. apply enumerate_lookup in Hp as [Hp _].
  rewrite Nat.sub_0_r in Hp. apply lookup_lt_Some in Hp.
  unfold aligned in Hal. apply andb_prop in Hal as [Hm _].
  unfold metadata_at. destruct (qr_metadatas r) as [ms|]; [|reflexivity].
  apply Nat.leb_le in Hm.
  destruct (lookup_lt_is_Some_2 ms p.1) as [m Hlk]; [lia|].
  cbn. rewrite Hlk. now apply index_lookup.
Qed.

Lemma text_entries_run (r : QueryResult) (scores : list Q) (w : world) :
  aligned r = true ->
  text_entries r scores w = (Ok (map (text_entry r scores) (enumerate 0 (qr_ids r))), w).
Proof.
  intros Hal. unfold text_entries. apply for_each_pure.
  intros [i _id] Hp. unfold bind.
  pose proof (metadata_at_run r (i, _id) w Hal Hp) as Hm. cbn [fst] in Hm.
  rewrite Hm. unfold text_entry. cbn [fst snd].
  destruct (qr_documents r) as [ds|] eqn:Eds; [|reflexivity].
  apply enumerate_lookup in Hp as [Hp _]. cbn [fst] in Hp.
  rewrite Nat.sub_0_r in Hp. apply lookup_lt_Some in Hp.
  unfold aligned in Hal. apply andb_prop in Hal as [_ Hd]. rewrite Eds in Hd.
  apply Nat.leb_le in Hd.
  destruct (lookup_lt_is_Some_2 ds i) as [d Hlk]; [lia|].
  rewrite (index_lookup _ _ _ _ Hlk). cbn. now rewrite Hlk.
Qed.

Lemma image_entries_run (r : QueryResult) (scores : list Q) (w : world) :
  aligned r = true ->
  image_entries r scores w = (Ok (map (image_entry r scores) (enumerate 0 (qr_ids r))), w).
Proof.
  intros Hal. unfold image_entries. apply for_each_pure.
  intros [i _id] Hp. unfold bind.
  pose proof (metadata_at_run r (i, _id) w Hal Hp) as Hm. cbn [fst] in Hm.
  now rewrite Hm.
Qed.

Section QueryRun.

Context `{EmbeddingModels, VectorStore}.

Lemma multimodal_query_run (query : string) (top_k : Z) (tr ir : QueryResult) (w : world) :
  answered query top_k tr ir -> aligned tr = true -> aligned ir = true ->
  exists w',
    multimodal_query query top_k w =
      (Ok {| resp_query := query;
             resp_results :=
               merge_top_k (text_candidates tr ++ image_candidates ir) top_k;
             resp_total_results :=
               length (merge_top_k (text_candidates tr ++ image_candidates ir) top_k) |},
       w')
    /\ files w' = files w.
Proof.
  intros (te & trows & ce & crows & Hte & Htr & Hce & Hir) Htal Hial.
  unfold multimodal_query, bind, embed_text, embed_clip_text, query_text,
    query_images, perform.
  rewrite Hte. cbn [index lookup list_lookup ret].
  rewrite Htr, Hce. cbn [index lookup list_lookup ret].
  rewrite Hir.
  rewrite (text_entries_run _ _ _ Htal), (image_entries_run _ _ _ Hial).
  eexists. split; reflexivity.
Qed.

End QueryRun.

(** ** The merge (C1, C10) *)

Lemma merge_top_k_example :
  merge_top_k
    ([candidate "text" "t1" (9 # 10); candidate "text" "t2" (4 # 10)]
     ++ [candidate "image" "i1" (95 # 100); candidate "image" "i2" (5 # 10)]) 3
  = [candidate "image" "i1" (95 # 100); candidate "text" "t1" (9 # 10);
     candidate "image" "i2" (5 # 10)].
Proof. reflexivity. Qed.

Lemma with_score_app (v : Q) (l1 l2 : list MergedResult) :
  with_score v (l1 ++ l2) = with_score v l1 ++ with_score v l2.
Proof. unfold with_score. apply List.filter_app. Qed.

(** C1. For a query with result count [top_k] that the collaborators answer,
    [multimodal_query] returns the first [top_k] entries of the list
    obtained by concatenating the text candidates and then the image
    candidates and sorting it by descending normalized score. That list is
    a rearrangement of the concatenation, its scores never increase, and
    the entries of any one score keep the order of the concatenation: the
    text ones first, then the image ones. Text candidates with scores 0.9
    and 0.4 and image candidates with scores 0.95 and 0.5, merged with
    [top_k = 3], give image 0.95, text 0.9, image 0.5. *)
Theorem merge_sorts_concatenation_and_truncates
    `{EmbeddingModels, VectorStore}
    (query : string) (top_k : Z) (tr ir : QueryResult) (w : world) :
  (0 <= top_k)%Z ->
  answered query top_k tr ir -> aligned tr = true -> aligned ir = true ->
  let merged := text_candidates tr ++ image_candidates ir in
  let ranked := sort_desc mr_score merged in
  (exists w',
     multimodal_query query top_k w =
       (Ok {| resp_query := query;
              resp_results := take (Z.to_nat top_k) ranked;
              resp_total_results := length (take (Z.to_nat top_k) ranked) |},
        w'))
  /\ Permutation ranked merged
  /\ descending mr_score ranked
  /\ (forall v : Q,
        with_score v ranked =
        with_score v (text_candidates tr) ++ with_score v (image_candidates ir))
  /\ merge_top_k
       ([candidate "text" "t1" (9 # 10); candidate "text" "t2" (4 # 10)]
        ++ [candidate "image" "i1" (95 # 100); candidate "image" "i2" (5 # 10)]) 3
     = [candidate "image" "i1" (95 # 100); candidate "text" "t1" (9 # 10);
        candidate "image" "i2" (5 # 10)].
Proof.
  intros Hk Hans Htr Hir merged ranked.
  split; [|split; [|split; [|split]]].
  - destruct (multimodal_query_run query top_k tr ir w Hans Htr Hir)
      as (w' & Hrun & _).
    exists w'. rewrite Hrun. unfold merge_top_k.
    now rewrite slice_to_nonneg by assumption.
  - apply sort_desc_perm.
  - apply sort_desc_sorted.
  - intros v. unfold ranked, with_score.
    rewrite sort_desc_stable. apply with_score_app.
  - exact merge_top_k_example.
Qed.

(** C10. For a query with [top_k = k] that the collaborators answer, the
    query returns when the answers are aligned, and whenever it returns,
    the list of results has length [min k (text candidates + image
    candidates)] and [total_results] is the length of that list. *)
Theorem results_length_is_min_of_top_k_and_candidates
    `{EmbeddingModels, VectorStore}
    (query : string) (top_k : Z) (tr ir : QueryResult) (w : world) :
  (0 <= top_k)%Z ->
  answered query top_k tr ir ->
  (aligned tr = true -> aligned ir = true ->
   exists resp w', multimodal_query query top_k w = (Ok resp, w'))
  /\ (forall resp w',
        multimodal_query query top_k w = (Ok resp, w') ->
        length (resp_results resp) =
          Nat.min (Z.to_nat top_k) (length (qr_ids tr) + length (qr_ids ir))
        /\ resp_total_results resp = length (resp_results resp)).
Proof.
  intros Hk Hans. split.
  - intros Htr Hir.
    destruct (multimodal_query_run query top_k tr ir w Hans Htr Hir)
      as (w' & Hrun & _).
    eauto.
  - destruct Hans as (te & trows & ce & crows & Hte & Htr & Hce & Hir).
    intros resp w'.
    unfold multimodal_query, bind, embed_text, embed_clip_text, query_text,
      query_images, perform.
    rewrite Hte. cbn [index lookup list_lookup ret].
    rewrite Htr, Hce. cbn [index lookup list_lookup ret].
    rewrite Hir.
    destruct (text_entries tr _ _) as [[ts|e] w1] eqn:Et; [|discriminate].
    destruct (image_entries ir _ _) as [[ims|e] w2] eqn:Ei; [|discriminate].
    intros [= <- _]. cbn [resp_results resp_total_results].
    split; [|reflexivity].
    unfold merge_top_k. rewrite slice_to_length by assumption.
    rewrite sort_desc_length, length_app.
    apply for_each_length in Et, Ei.
    rewrite enumerate_length in Et, Ei. now rewrite Et, Ei.
Qed.

Lemma sample_answered (query : string) (top_k : Z) :
  @answered Sample.models (Sample.store Sample.text_answer Sample.image_answer)
            query top_k Sample.text_answer Sample.image_answer.
Proof. exists [1%Q], [], [1%Q], []. repeat split; reflexivity. Qed.

Lemma merge_sorts_concatenation_and_truncates_witness :
  exists w' resp,
    @multimodal_query Sample.models
      (Sample.store Sample.text_answer Sample.image_answer)
      "cats" 3 Sample.empty_world = (Ok resp, w')
    /\ map mr_id (resp_results resp) = ["txt::d::0"; "img::e"; "txt::d::1"]
    /\ map mr_modality (resp_results resp) = ["text"; "image"; "text"].
Proof.
  destruct (@merge_sorts_concatenation_and_truncates Sample.models
              (Sample.store Sample.text_answer Sample.image_answer)
              "cats" 3 Sample.text_answer Sample.image_answer Sample.empty_world)
    as [[w' Hrun] _].
  - lia.
  - apply sample_answered.
  - reflexivity.
  - reflexivity.
  - exists w'. eexists. split; [exact Hrun |]. split; vm_compute; reflexivity.
Defined.

Lemma results_length_witness :
  exists resp w',
    @multimodal_query Sample.models
      (Sample.store Sample.text_answer Sample.image_answer)
      "cats" 3 Sample.empty_world = (Ok resp, w')
    /\ length (resp_results resp) = 3%nat
    /\ resp_total_results resp = 3%nat.
Proof.
  destruct (@results_length_is_min_of_top_k_and_candidates Sample.models
              (Sample.store Sample.text_answer Sample.image_answer)
              "cats" 3 Sample.text_answer Sample.image_answer Sample.empty_world)
    as [Hreturns Hlength].
  - lia.
  - apply sample_answered.
  - destruct Hreturns as (resp & w' & Hrun); [reflexivity | reflexivity |].
    exists resp, w'. split; [exact Hrun |].
    destruct (Hlength resp w' Hrun) as [Hlen Htotal].
    rewrite Htotal, Hlen. split; reflexivity.
Defined.

(** ** Source attribution (C8) *)

Lemma append_if_has_key (label : string) (metadata : pydict) (key : string)
    (parts : list string) :
  append_if (has_key metadata key) (label +:+ py_str (item metadata key)) parts
  = parts ++ optional_part label metadata key.
Proof.
  unfold append_if, has_key, item, optional_part.
  destruct (metadata !! key) as [v|]; cbn.
  - reflexivity.
  - now rewrite app_nil_r.
Qed.

(** C8. For every metadata record, the attribution string is the parts
    [Source: <path>] and [Type: <file_type>] (each [unknown] when the key is
    missing), then [Page: <n>], [Chunk: <idx>] and [Uploaded: <timestamp>],
    each only if its key is in the record, in this order and joined with
    [" | "]. The record of the PDF chunk on page 5 with index 2 gives
    [Source: data/uploads/document.pdf | Type: pdf_text | Page: 5 | Chunk: 2]. *)
Theorem source_attribution_fixed_field_order (metadata : pydict) :
  _format_source_attribution metadata =
    Str.join " | "
      (["Source: " +:+ py_str (default (PStr "unknown") (metadata !! "source_path"));
        "Type: " +:+ py_str (default (PStr "unknown") (metadata !! "file_type"))]
       ++ optional_part "Page: " metadata "page"
       ++ optional_part "Chunk: " metadata "chunk_index"
       ++ optional_part "Uploaded: " metadata "uploaded_at")
  /\ _format_source_attribution
       (dict [("file_type", PStr "pdf_text");
              ("source_path", PStr "data/uploads/document.pdf");
              ("page", PInt 5); ("chunk_index", PInt 2)])
     = "Source: data/uploads/document.pdf | Type: pdf_text | Page: 5 | Chunk: 2".
Proof.
  split.
  - unfold _format_source_attribution.
    rewrite !append_if_has_key. now rewrite <- !app_assoc.
  - vm_compute. reflexivity.
Qed.

(** ** Score normalization (C2) *)

Lemma py_min_spec (first : Q) (rest : list Q) :
  In (py_min first rest) (first :: rest)
  /\ forall x, In x (first :: rest) -> (py_min first rest <= x)%Q.
Proof.
  unfold py_min. revert first.
  induction rest as [|y rest IH]; intros first; cbn [fold_left].
  - split; [now left|]. intros x [<- | []]. apply Qle_refl.
  - destruct (IH (if Qlt_bool y first then y else first)) as [Hin Hle].
    split.
    + destruct Hin as [Hin | Hin]; [|now right; right].
      rewrite <- Hin. destruct (Qlt_bool y first); [right; now left | now left].
    + intros x Hx.
      assert (Hm : ((if Qlt_bool y first then y else first) <= first
                    /\ (if Qlt_bool y first then y else first) <= y)%Q).
      { destruct (Qlt_bool y first) eqn:E.
        - apply Qlt_bool_true in E. split; [now apply Qlt_le_weak | apply Qle_refl].
        - apply Qlt_bool_false in E. split; [apply Qle_refl | exact E]. }
      destruct Hm as [Hf Hy].
      destruct Hx as [<- | [<- | Hx]].
      * eapply Qle_trans; [apply Hle; now left | exact Hf].
      * eapply Qle_trans; [apply Hle; now left | exact Hy].
      * apply Hle. now right.
Qed.

Lemma py_max_spec (first : Q) (rest : list Q) :
  In (py_max first rest) (first :: rest)
  /\ forall x, In x (first :: rest) -> (x <= py_max first rest)%Q.
Proof.
  unfold py_max. revert first.
  induction rest as [|y rest IH]; intros first; cbn [fold_left].
  - split; [now left|]. intros x [<- | []]. apply Qle_refl.
  - destruct (IH (if Qlt_bool first y then y else first)) as [Hin Hle].
    split.
    + destruct Hin as [Hin | Hin]; [|now right; right].
      rewrite <- Hin. destruct (Qlt_bool first y); [right; now left | now left].
    + intros x Hx.
      assert (Hm : (first <= (if Qlt_bool first y then y else first)
                    /\ y <= (if Qlt_bool first y then y else first))%Q).
      { destruct (Qlt_bool first y) eqn:E.
        - apply Qlt_bool_true in E. split; [now apply Qlt_le_weak | apply Qle_refl].
        - apply Qlt_bool_false in E. split; [apply Qle_refl | exact E]. }
      destruct Hm as [Hf Hy].
      destruct Hx as [<- | [<- | Hx]].
      * eapply Qle_trans; [exact Hf | apply Hle; now left].
      * eapply Qle_trans; [exact Hy | apply Hle; now left].
      * apply Hle. now right.
Qed.

(** Scores that are not close are apart. *)
Lemma isclose_false_lt (mx mn : Q) :
  (mn <= mx)%Q -> isclose mx mn = false -> (mn < mx)%Q.
Proof.
  intros Hle Hc. unfold isclose in Hc.
  apply orb_false_elim in Hc as [Heq _].
  apply Qle_lteq in Hle as [Hlt | Heq']; [exact Hlt|].
  exfalso. assert (Ht : Qeq_bool mx mn = true)
    by (apply Qeq_bool_iff; now symmetry).
  congruence.
Qed.

(** Equal scores are close. *)
Lemma isclose_eq (a b : Q) : (a == b)%Q -> isclose a b = true.
Proof.
  intros Heq. unfold isclose.
  apply Qeq_bool_iff in Heq. now rewrite Heq.
Qed.

Lemma scaled_in_unit_interval (mn mx s : Q) :
  (mn < mx)%Q -> (mn <= s)%Q -> (s <= mx)%Q ->
  (0 <= (s - mn) / (mx - mn) /\ (s - mn) / (mx - mn) <= 1)%Q.
Proof.
  intros Hlt Hlo Hhi.
  assert (Hpos : (0 < mx - mn)%Q).
  { apply Qlt_minus_iff in Hlt. exact Hlt. }
  split.
  - apply Qle_shift_div_l; [exact Hpos|].
    rewrite Qmult_0_l. apply Qle_minus_iff in Hlo. exact Hlo.
  - apply Qle_shift_div_r; [exact Hpos|].
    rewrite Qmult_1_l. unfold Qminus.
    apply Qplus_le_compat; [exact Hhi | apply Qle_refl].
Qed.

Lemma scaled_max_is_one (mn mx : Q) :
  (mn < mx)%Q -> ((mx - mn) / (mx - mn) == 1)%Q.
Proof.
  intros Hlt. unfold Qdiv. apply Qmult_inv_r.
  intros Hz. apply Qlt_minus_iff in Hlt. unfold Qminus in Hz.
  rewrite Hz in Hlt. now apply Qlt_irrefl in Hlt.
Qed.

Lemma scaled_min_is_zero (mn mx : Q) : ((mn - mn) / (mx - mn) == 0)%Q.
Proof.
  unfold Qdiv, Qminus. rewrite Qplus_opp_r. apply Qmult_0_l.
Qed.

(** C2, as the code has it. For a non-empty list of scores every normalized
    score lies in [0, 1] and at least one equals 1; when the maximum and
    the minimum are not close in the sense of [math.isclose] at least one
    equals 0; when they are close, and so whenever all the scores are
    equal, every normalized score is 1; the empty list gives the empty
    list. *)
Theorem normalize_scores_unit_interval (first : Q) (rest : list Q) :
  let scores := first :: rest in
  let close := isclose (py_max first rest) (py_min first rest) in
  Forall (fun x => 0 <= x /\ x <= 1)%Q (_normalize_scores scores)
  /\ Exists (fun x => x == 1)%Q (_normalize_scores scores)
  /\ (close = false -> Exists (fun x => x == 0)%Q (_normalize_scores scores))
  /\ (close = true -> Forall (fun x => x = 1%Q) (_normalize_scores scores))
  /\ (Forall (fun x => x == first)%Q rest ->
      Forall (fun x => x = 1%Q) (_normalize_scores scores))
  /\ length (_normalize_scores scores) = length scores
  /\ _normalize_scores [] = [].
Proof.
  intros scores close.
  destruct (py_min_spec first rest) as [Hmin_in Hmin_le].
  destruct (py_max_spec first rest) as [Hmax_in Hmax_le].
  assert (Hle : (py_min first rest <= py_max first rest)%Q)
    by (apply Hmin_le, Hmax_in).
  subst close.
  destruct (isclose (py_max first rest) (py_min first rest)) eqn:Hc.
  - assert (Hout : _normalize_scores scores = map (fun _ => 1%Q) scores)
      by (unfold _normalize_scores, scores; now rewrite Hc).
    rewrite Hout.
    assert (Hones : Forall (fun x => x = 1%Q) (map (fun _ : Q => 1%Q) scores)).
    { apply List.Forall_forall. intros x Hx.
      apply List.in_map_iff in Hx as (? & <- & _). reflexivity. }
    repeat split.
    + apply List.Forall_forall. intros x Hx.
      apply List.in_map_iff in Hx as (? & <- & _). split; discriminate.
    + apply List.Exists_exists. exists 1%Q. split; [now left | reflexivity].
    + discriminate.
    + intros _. exact Hones.
    + intros _. exact Hones.
    + apply length_map.
  - assert (Hout : _normalize_scores scores =
                   map (fun s => (s - py_min first rest)
                                 / (py_max first rest - py_min first rest))%Q scores)
      by (unfold _normalize_scores, scores; now rewrite Hc).
    rewrite Hout.
    pose proof (isclose_false_lt _ _ Hle Hc) as Hlt.
    repeat split.
    + apply List.Forall_forall. intros x Hx.
      apply List.in_map_iff in Hx as (s & <- & Hs).
      apply scaled_in_unit_interval; [exact Hlt | now apply Hmin_le | now apply Hmax_le].
    + apply List.Exists_exists.
      exists ((py_max first rest - py_min first rest)
              / (py_max first rest - py_min first rest))%Q.
      split; [| now apply scaled_max_is_one].
      apply List.in_map_iff. exists (py_max first rest). now split.
    + intros _. apply List.Exists_exists.
      exists ((py_min first rest - py_min first rest)
              / (py_max first rest - py_min first rest))%Q.
      split; [| apply scaled_min_is_zero].
      apply List.in_map_iff. exists (py_min first rest). now split.
    + discriminate.
    + intros Hall. exfalso.
      assert (Heq : forall x, In x (first :: rest) -> (x == first)%Q).
      { intros x [<- | Hx]; [reflexivity|].
        revert x Hx. now apply List.Forall_forall. }
      assert (Hclose : isclose (py_max first rest) (py_min first rest) = true).
      { apply isclose_eq. rewrite (Heq _ Hmax_in), (Heq _ Hmin_in). reflexivity. }
      congruence.
    + apply length_map.
Qed.

Lemma normalize_scores_witness :
  (Forall (fun x => 0 <= x /\ x <= 1) (_normalize_scores [1 # 10; 5 # 10; 9 # 10])
   /\ Exists (fun x => x == 1) (_normalize_scores [1 # 10; 5 # 10; 9 # 10])
   /\ Exists (fun x => x == 0) (_normalize_scores [1 # 10; 5 # 10; 9 # 10]))%Q.
Proof.
  destruct (normalize_scores_unit_interval (1 # 10) [5 # 10; 9 # 10]%Q)
    as (Hrange & Hone & Hzero & _).
  split; [exact Hrange|]. split; [exact Hone|]. apply Hzero. reflexivity.
Defined.

(** The scores 1.0 and 1.0000000001 are not equal, yet both are normalized
    to 1 and none to 0. *)
Lemma normalize_scores_nearly_equal :
  (Qeq_bool 1 (10000000001 # 10000000000) = false
   /\ _normalize_scores [1; 10000000001 # 10000000000] = [1; 1]
   /\ List.existsb (fun x => Qeq_bool x 0)
        (_normalize_scores [1; 10000000001 # 10000000000]) = false)%Q.
Proof. vm_compute. repeat split; reflexivity. Qed.

(** ** Image ingestion and OCR (C7, C9) *)

Section ImageIngestion.

Context `{EmbeddingModels, VectorStore, Tesseract, Decoders, Host}.

Lemma ocr_image_run (img : image) (w : world) :
  ocr_image img w = (Ok (ocr_outcome img), after w [CImageToString img "eng"] 0).
Proof.
  unfold ocr_image, try_except, bind, perform, ocr_outcome, after, ret.
  rewrite Nat.add_0_r.
  destruct (image_to_string img "eng") as [text|[]]; reflexivity.
Qed.

(** [_ingest_image] returns exactly when the file is there, decodes and is
    embedded, and the store accepts the upsert; this is what it then
    returns and leaves behind. *)
Lemma _ingest_image_inv (path : string) (w w' : world) (r : pydict) :
  _ingest_image path w = (Ok r, w') ->
  exists content img emb,
    files w !! path = Some content
    /\ image_open content = Ok img
    /\ clip_model_encode_image img = Ok emb
    /\ r = dict [("status", PStr "ok");
                 ("ingested_images", PInt 1);
                 ("doc_id", PStr (uuid4 (drawn w)));
                 ("ocr_chars", PLen (String.length (ocr_outcome img)))]
    /\ w' = after w [CEncodeImage img; CImageToString img "eng";
                     CUpsert IMAGE_COLLECTION [image_id (uuid4 (drawn w))] emb
                       [image_metadata (uuid4 (drawn w)) path (ocr_outcome img)]
                       None] 1.
Proof.
  unfold _ingest_image, try_except, bind, read_file, lift, embed_image,
    fresh_uuid, upsert_images, perform.
  destruct (files w !! path) as [content|] eqn:Ef; [|discriminate].
  destruct (image_open content) as [img|e] eqn:Ei; [|discriminate].
  destruct (clip_model_encode_image img) as [emb|e] eqn:Ee; [|discriminate].
  rewrite ocr_image_run. cbn [files calls drawn after].
  destruct (collection_upsert _ _ _ _ _) as [[]|e]; [|discriminate].
  unfold ret. intros [= <- <-].
  exists content, img, emb. repeat split; try assumption.
  unfold after. cbn [files calls drawn].
  rewrite <- !app_assoc, Nat.add_0_r, Nat.add_1_r. reflexivity.
Qed.

Lemma _ingest_image_run (path content : string) (img : image) (emb : list vec)
    (w : world) :
  files w !! path = Some content ->
  image_open content = Ok img ->
  clip_model_encode_image img = Ok emb ->
  collection_upsert IMAGE_COLLECTION [image_id (uuid4 (drawn w))] emb
    [image_metadata (uuid4 (drawn w)) path (ocr_outcome img)] None = Ok tt ->
  _ingest_image path w =
    (Ok (dict [("status", PStr "ok");
               ("ingested_images", PInt 1);
               ("doc_id", PStr (uuid4 (drawn w)));
               ("ocr_chars", PLen (String.length (ocr_outcome img)))]),
     after w [CEncodeImage img; CImageToString img "eng";
              CUpsert IMAGE_COLLECTION [image_id (uuid4 (drawn w))] emb
                [image_metadata (uuid4 (drawn w)) path (ocr_outcome img)]
                None] 1).
Proof.
  intros Ef Ei Ee Hu.
  unfold _ingest_image, try_except, bind, read_file, lift, embed_image,
    fresh_uuid, upsert_images, perform.
  rewrite Ef, Ei, Ee, ocr_image_run. cbn [files calls drawn after].
  unfold image_metadata in Hu. rewrite Nat.add_0_r. rewrite Hu.
  unfold ret, after. cbn [files calls drawn].
  rewrite <- !app_assoc, Nat.add_1_r. reflexivity.
Qed.

End ImageIngestion.

(** ** Routing an upload (C3) *)

Section Upload.

Context `{EmbeddingModels, VectorStore, Tesseract, Decoders, Host}.

(** [process_upload] stores the upload, runs the routine of its kind and
    turns what that raises into an HTTP error. *)
Lemma process_upload_run (file : UploadFile) (w : world) :
  process_upload file w =
    let content_type := str_or (upload_content_type file) EmptyString in
    let '(r, w') :=
      match classify content_type (upload_name file w) with
      | Some KText => _ingest_text (stored_path file w) (saved file w)
      | Some KImage => _ingest_image (stored_path file w) (saved file w)
      | Some KPdf => _ingest_pdf (stored_path file w) (saved file w)
      | None =>
          (Raise (HTTPException 415 ("Unsupported file type: " +:+ content_type)),
           saved file w)
      end in
    match r with
    | Ok a => (Ok a, w')
    | Raise e => (Raise (as_http_error e), w')
    end.
Proof.
  unfold process_upload, stored_path, saved, upload_name.
  destruct file as [ct fn content].
  cbn [upload_filename upload_content_type upload_content].
  destruct fn as [[|c s]|];
    unfold bind, try_except, fresh_uuid, ret, write_file, raise;
    cbn [files calls drawn];
    (destruct (classify _ _) as [[| |]|];
     [ destruct (_ingest_text _ _) as [[a|e] w1]
     | destruct (_ingest_image _ _) as [[a|e] w1]
     | destruct (_ingest_pdf _ _) as [[a|e] w1]
     | reflexivity ];
     first
       [ reflexivity
       | unfold as_http_error;
         match goal with |- context [is_HTTPException ?x] =>
           destruct (is_HTTPException x) end;
         reflexivity ]).
Qed.

End Upload.





(** ** The record of an image upload (C9) and OCR failures (C7) *)

(** C9, as the code has it. Every upload routed as an image that succeeds
    returns a record with exactly the keys [status], [ingested_images],
    [doc_id] and [ocr_chars]: the count, always 1, is under
    [ingested_images] and there is no key [embedded_images]; [doc_id] is
    the identifier of the unit just upserted and [ocr_chars] the length of
    the OCR text stored with it. *)
Theorem image_upload_record
    `{EmbeddingModels, VectorStore, Tesseract, Decoders, Host}
    (file : UploadFile) (w w' : world) (r : pydict) :
  classify (str_or (upload_content_type file) EmptyString) (upload_name file w)
    = Some KImage ->
  process_upload file w = (Ok r, w') ->
  exists (doc_id ocr_text : string) (emb : list vec) (metadata : pydict),
    r = dict [("status", PStr "ok");
              ("ingested_images", PInt 1);
              ("doc_id", PStr doc_id);
              ("ocr_chars", PLen (String.length ocr_text))]
    /\ r !! "ingested_images" = Some (PInt 1)
    /\ r !! "doc_id" = Some (PStr doc_id)
    /\ r !! "ocr_chars" = Some (PLen (String.length ocr_text))
    /\ r !! "embedded_images" = None
    /\ last (calls w') =
         Some (CUpsert IMAGE_COLLECTION [image_id doc_id] emb [metadata] None)
    /\ metadata !! "doc_id" = Some (PStr doc_id)
    /\ metadata !! "ocr_text" = Some (PStr ocr_text).
Proof.
  intros Hkind. rewrite process_upload_run. cbv zeta. rewrite Hkind.
  destruct (_ingest_image _ _) as [[a|e] w1] eqn:Hrun; [|discriminate].
  intros [= <- <-].
  apply _ingest_image_inv in Hrun
    as (content & img & emb & _ & _ & _ & -> & ->).
  exists (uuid4 (drawn (saved file w))), (ocr_outcome img), emb,
    (image_metadata (uuid4 (drawn (saved file w))) (stored_path file w)
       (ocr_outcome img)).
  repeat split.
  unfold after. cbn [calls].
  match goal with |- last (?l ++ [?a; ?b; ?c]) = _ =>
    replace (l ++ [a; b; c]) with ((l ++ [a; b]) ++ [c])
      by (now rewrite <- app_assoc)
  end.
  apply last_snoc.
Qed.

Lemma image_upload_record_witness :
  exists (r : pydict) (w' : world),
    @process_upload Sample.models (Sample.store Sample.no_answer Sample.no_answer)
      (Sample.tesseract_reading "  STOP ") Sample.decoders Sample.host
      Sample.png_upload Sample.empty_world = (Ok r, w')
    /\ r !! "ingested_images" = Some (PInt 1)
    /\ r !! "doc_id" = Some (PStr "doc0")
    /\ r !! "ocr_chars" = Some (PInt 4).
Proof.
  destruct (@process_upload Sample.models
              (Sample.store Sample.no_answer Sample.no_answer)
              (Sample.tesseract_reading "  STOP ") Sample.decoders Sample.host
              Sample.png_upload Sample.empty_world) as [[r|e] w'] eqn:Hrun;
    [| vm_compute in Hrun; discriminate].
  exists r, w'. split; [reflexivity|].
  destruct (@image_upload_record Sample.models
              (Sample.store Sample.no_answer Sample.no_answer)
              (Sample.tesseract_reading "  STOP ") Sample.decoders Sample.host
              Sample.png_upload Sample.empty_world w' r eq_refl Hrun)
    as (doc_id & ocr_text & emb & metadata & Hr & Hn & Hd & Ho & _).
  vm_compute in Hrun. injection Hrun as Hrec _.
  rewrite Hn. split; [reflexivity|].
  rewrite <- Hrec. split; vm_compute; reflexivity.
Defined.

(** An image upload that succeeds: its record has the key
    [ingested_images] and no key [embedded_images]. *)
Lemma image_upload_has_no_embedded_images_key :
  exists (r : pydict) (w' : world),
    @process_upload Sample.models (Sample.store Sample.no_answer Sample.no_answer)
      (Sample.tesseract_reading "  STOP ") Sample.decoders Sample.host
      Sample.png_upload Sample.empty_world = (Ok r, w')
    /\ r !! "embedded_images" = None
    /\ r !! "ingested_images" = Some (PInt 1).
Proof.
  eexists _, _. split; [vm_compute; reflexivity|].
  split; vm_compute; reflexivity.
Qed.

(** C7. [ocr_image] never raises: whatever the engine does it returns a
    string, and the empty string when the engine raises, be it missing or
    failing otherwise. An image ingestion whose OCR failed goes on: once
    the file is decoded and embedded and the store accepts the upsert, it
    upserts the unit with an empty [ocr_text] and returns its record. *)
Theorem ocr_failure_never_aborts_image_ingestion
    `{EmbeddingModels, VectorStore, Tesseract, Decoders, Host}
    (img : image) (w : world) :
  (exists text : string,
     ocr_image img w = (Ok text, after w [CImageToString img "eng"] 0))
  /\ (forall e : exn,
        image_to_string img "eng" = Raise e ->
        ocr_image img w = (Ok EmptyString, after w [CImageToString img "eng"] 0))
  /\ (forall (e : exn) (path content : string) (emb : list vec),
        image_to_string img "eng" = Raise e ->
        files w !! path = Some content ->
        image_open content = Ok img ->
        clip_model_encode_image img = Ok emb ->
        collection_upsert IMAGE_COLLECTION [image_id (uuid4 (drawn w))] emb
          [image_metadata (uuid4 (drawn w)) path EmptyString] None = Ok tt ->
        _ingest_image path w =
          (Ok (dict [("status", PStr "ok");
                     ("ingested_images", PInt 1);
                     ("doc_id", PStr (uuid4 (drawn w)));
                     ("ocr_chars", PInt 0)]),
           after w [CEncodeImage img; CImageToString img "eng";
                    CUpsert IMAGE_COLLECTION [image_id (uuid4 (drawn w))] emb
                      [image_metadata (uuid4 (drawn w)) path EmptyString]
                      None] 1)).
Proof.
  split; [|split].
  - exists (ocr_outcome img). apply ocr_image_run.
  - intros e He. rewrite ocr_image_run. unfold ocr_outcome. now rewrite He.
  - intros e path content emb He Hf Hi Hemb Hup.
    assert (Hocr : ocr_outcome img = EmptyString)
      by (unfold ocr_outcome; now rewrite He).
    rewrite (_ingest_image_run path content img emb w Hf Hi Hemb);
      rewrite Hocr; [reflexivity | exact Hup].
Qed.

Lemma ocr_failure_witness :
  @_ingest_image Sample.models (Sample.store Sample.no_answer Sample.no_answer)
    Sample.tesseract_missing Sample.decoders Sample.host
    "data/uploads/sign.png" (Sample.world_with "data/uploads/sign.png" "pixels")
  = (Ok (dict [("status", PStr "ok");
               ("ingested_images", PInt 1);
               ("doc_id", PStr "doc0");
               ("ocr_chars", PInt 0)]),
     {| files := {[ "data/uploads/sign.png" := "pixels" ]};
        calls := [CEncodeImage "pixels"; CImageToString "pixels" "eng";
                  CUpsert IMAGE_COLLECTION ["img::doc0"] [[1%Q]]
                    [dict [("doc_id", PStr "doc0");
                           ("file_type", PStr "image");
                           ("source_path", PStr "data/uploads/sign.png");
                           ("uploaded_at", PStr "2024-01-01T00:00:00");
                           ("ocr_text", PStr EmptyString)]]
                    None];
        drawn := 1 |}).
Proof.
  destruct (@ocr_failure_never_aborts_image_ingestion
              Sample.models (Sample.store Sample.no_answer Sample.no_answer)
              Sample.tesseract_missing Sample.decoders Sample.host
              "pixels" (Sample.world_with "data/uploads/sign.png" "pixels"))
    as (_ & _ & Hgoes_on).
  rewrite (Hgoes_on (TesseractNotFoundError "tesseract is not installed")
             "data/uploads/sign.png" "pixels" [[1%Q]]);
    reflexivity.
Defined.

(** ** The chunker (C5) *)

(** Induction over a string two characters at a time. *)
Lemma string_pair_ind (P : string -> Prop) :
  P EmptyString ->
  (forall c, P (String c EmptyString)) ->
  (forall c d s, P s -> P (String d s) -> P (String c (String d s))) ->
  forall s, P s.
Proof.
  intros H0 H1 H2 s.
  assert (Hboth : P s /\ forall c, P (String c s)).
  { induction s as [|d s [IHs IHc]].
    - split; [exact H0 | exact H1].
    - split; [apply IHc |]. intros c. apply H2; [exact IHs | apply IHc]. }
  apply Hboth.
Qed.

Lemma is_LF_dec (c : ascii) :
  is_LF c = if ascii_dec Str.LF c then true else false.
Proof.
  unfold is_LF. destruct (ascii_dec Str.LF c) as [<- | Hne].
  - apply Ascii.eqb_refl.
  - apply Ascii.eqb_neq. congruence.
Qed.

Lemma split_para_pair (c d : ascii) (s : string) :
  split_para (String c (String d s)) =
    if is_LF c && is_LF d then EmptyString :: split_para s
    else Str.cons_first c (split_para (String d s)).
Proof. reflexivity. Qed.

Lemma split_go_pair (c d : ascii) (s : string) :
  Str.split_go PARA_SEP 0 (String c (String d s)) =
    if is_LF c && is_LF d then EmptyString :: Str.split_go PARA_SEP 0 s
    else Str.cons_first c (Str.split_go PARA_SEP 0 (String d s)).
Proof.
  rewrite !is_LF_dec.
  change (Str.split_go PARA_SEP 0 (String c (String d s)))
    with (if String.prefix PARA_SEP (String c (String d s))
          then EmptyString :: Str.split_go PARA_SEP 0 s
          else Str.cons_first c (Str.split_go PARA_SEP 0 (String d s))).
  cbn [String.prefix PARA_SEP].
  destruct (ascii_dec Str.LF c), (ascii_dec Str.LF d); try reflexivity.
  now destruct s.
Qed.

(** [split_para] is [split] at the paragraph separator. *)
Lemma split_para_correct (s : string) : Str.split s PARA_SEP = split_para s.
Proof.
  unfold Str.split.
  induction s as [| c | c d s IHs IHd] using string_pair_ind.
  - reflexivity.
  - cbn [split_para Str.split_go String.prefix PARA_SEP].
    destruct (ascii_dec Str.LF c); reflexivity.
  - now rewrite split_para_pair, split_go_pair, IHs, IHd.
Qed.

Lemma chunk_paragraphs_split_para (text : string) :
  chunk_paragraphs text = omap trimmed (split_para text).
Proof. unfold chunk_paragraphs. now rewrite split_para_correct. Qed.

Lemma is_LF_eq (c : ascii) : is_LF c = true -> c = Str.LF.
Proof. apply Ascii.eqb_eq. Qed.

Lemma trimmed_space (c : ascii) (s : string) :
  Str.isspace c = true -> trimmed (String c s) = trimmed s.
Proof.
  intros Hc. unfold trimmed, Str.strip. cbn [Str.lstrip]. now rewrite Hc.
Qed.

Lemma omap_trimmed_cons_first_LF (c : ascii) (pieces : list string) :
  is_LF c = true ->
  omap trimmed (Str.cons_first c pieces) = omap trimmed pieces.
Proof.
  intros Hc. apply is_LF_eq in Hc as ->.
  destruct pieces as [|p ps]; [reflexivity|].
  cbn [Str.cons_first omap list_omap]. now rewrite trimmed_space.
Qed.

(** A line feed in front of a text does not change its chunks. *)
Lemma split_para_leading_LF (t : string) :
  omap trimmed (split_para (String Str.LF t)) = omap trimmed (split_para t).
Proof.
  induction t as [|d t IH]; [reflexivity|].
  rewrite split_para_pair.
  destruct (is_LF d) eqn:Hd; cbn [is_LF Ascii.eqb Str.LF andb];
    change (Ascii.eqb Str.LF Str.LF) with true; cbn [andb].
  - apply is_LF_eq in Hd as ->. rewrite IH. reflexivity.
  - now apply omap_trimmed_cons_first_LF.
Qed.

Lemma spec_segments_pair (c d : ascii) (s : string) :
  spec_segments false (String c (String d s)) =
    if is_LF c && is_LF d then EmptyString :: spec_segments true s
    else Str.cons_first c (spec_segments false (String d s)).
Proof.
  cbn [spec_segments]. destruct (is_LF c), (is_LF d); reflexivity.
Qed.

Lemma spec_segments_boundary (c : ascii) (s : string) :
  spec_segments true (String c s) =
    if is_LF c then spec_segments true s
    else spec_segments false (String c s).
Proof.
  cbn [spec_segments]. destruct (is_LF c); reflexivity.
Qed.

Lemma same_chunks_whole (s : string) :
  (exists x X Y,
     split_para s = x :: X /\ spec_segments false s = x :: Y
     /\ omap trimmed X = omap trimmed Y) ->
  omap trimmed (split_para s) = omap trimmed (spec_segments false s).
Proof.
  intros (x & X & Y & -> & -> & HXY).
  cbn [omap list_omap]. now rewrite HXY.
Qed.

Lemma split_para_same_chunks (s : string) : same_chunks s.
Proof.
  induction s as [| c | c d s IHs IHd] using string_pair_ind.
  - split; [|reflexivity]. now exists EmptyString, [], [].
  - assert (H1 : exists x X Y,
               split_para (String c EmptyString) = x :: X
               /\ spec_segments false (String c EmptyString) = x :: Y
               /\ omap trimmed X = omap trimmed Y).
    { exists (String c EmptyString), [], []. cbn [split_para spec_segments].
      destruct (is_LF c); now repeat split. }
    split; [exact H1|].
    rewrite spec_segments_boundary. destruct (is_LF c) eqn:Hc.
    + apply is_LF_eq in Hc as ->. reflexivity.
    + now apply same_chunks_whole.
  - assert (H1 : exists x X Y,
               split_para (String c (String d s)) = x :: X
               /\ spec_segments false (String c (String d s)) = x :: Y
               /\ omap trimmed X = omap trimmed Y).
    { rewrite split_para_pair, spec_segments_pair.
      destruct (is_LF c && is_LF d).
      - exists EmptyString, (split_para s), (spec_segments true s).
        repeat split. apply IHs.
      - destruct IHd as [(x & X & Y & -> & -> & HXY) _].
        exists (String c x), X, Y. now repeat split. }
    split; [exact H1|].
    rewrite spec_segments_boundary. destruct (is_LF c) eqn:Hc.
    + apply is_LF_eq in Hc as ->.
      rewrite split_para_leading_LF. apply IHd.
    + now apply same_chunks_whole.
Qed.

Lemma split_para_no_blank_line (s : string) :
  has_blank_line s = false -> split_para s = [s].
Proof.
  induction s as [| c | c d s IHs IHd] using string_pair_ind; intros Hs.
  - reflexivity.
  - reflexivity.
  - rewrite split_para_pair.
    change (has_blank_line (String c (String d s)))
      with (is_LF c && is_LF d || has_blank_line (String d s)) in Hs.
    apply orb_false_elim in Hs as [Hcd Hd].
    rewrite Hcd, (IHd Hd). reflexivity.
Qed.

Lemma chunk_paragraphs_example :
  chunk_paragraphs
    (String "A" (String Str.LF (String Str.LF (String "B"
       (String Str.LF (String Str.LF (String Str.LF (String "C" EmptyString))))))))
  = ["A"; "B"; "C"].
Proof. reflexivity. Qed.

(** A line of white space is not a line without any character: it does not
    end a paragraph, in the code as in the wording of the specification. *)
Lemma whitespace_line_is_not_a_boundary :
  chunk_paragraphs
    (String "A" (String Str.LF (String " " (String Str.LF (String "B" EmptyString)))))
  = [String "A" (String Str.LF (String " " (String Str.LF (String "B" EmptyString))))]
  /\ spec_chunks
       (String "A" (String Str.LF (String " " (String Str.LF (String "B" EmptyString)))))
     = [String "A" (String Str.LF (String " " (String Str.LF (String "B" EmptyString))))].
Proof. split; reflexivity. Qed.

(** C5. For every text the chunks are those of the specification: the text
    cut at its blank-line boundaries (a boundary being a line feed and then
    one or more lines without any character), each segment trimmed, the
    empty ones dropped, in the order of the text. ["A\n\nB\n\n\nC"] gives
    ["A"; "B"; "C"], and a text with no blank line, unless all white space,
    gives the one chunk that is the text trimmed. *)
Theorem chunker_splits_at_blank_lines (text : string) :
  chunk_paragraphs text = spec_chunks text
  /\ chunk_paragraphs
       (String "A" (String Str.LF (String Str.LF (String "B"
          (String Str.LF (String Str.LF (String Str.LF (String "C" EmptyString))))))))
     = ["A"; "B"; "C"]
  /\ (has_blank_line text = false ->
      Str.nonempty (Str.strip text) = true ->
      chunk_paragraphs text = [Str.strip text]).
Proof.
  split; [|split].
  - rewrite chunk_paragraphs_split_para. unfold spec_chunks.
    apply same_chunks_whole, split_para_same_chunks.
  - exact chunk_paragraphs_example.
  - intros Hblank Hne.
    rewrite chunk_paragraphs_split_para, split_para_no_blank_line by assumption.
    cbn [omap list_omap]. unfold trimmed. now rewrite Hne.
Qed.

Lemma chunker_single_block_witness :
  chunk_paragraphs
    (String " " (String "a" (String Str.LF (String "b" (String Str.LF EmptyString)))))
  = [String "a" (String Str.LF (String "b" EmptyString))].
Proof.
  destruct (chunker_splits_at_blank_lines
              (String " " (String "a" (String Str.LF (String "b"
                 (String Str.LF EmptyString)))))) as (_ & _ & Hsingle).
  rewrite Hsingle; reflexivity.
Defined.

(** ** Empty text files (C6) *)

Lemma nonempty_false (s : string) : Str.nonempty s = false <-> s = EmptyString.
Proof. destruct s; cbn; split; congruence. Qed.

Lemma lstrip_empty_iff (s : string) :
  Str.lstrip s = EmptyString <-> blank s = true.
Proof.
  induction s as [|c s IH]; cbn [Str.lstrip blank]; [tauto|].
  destruct (Str.isspace c); cbn [andb]; [exact IH|].
  split; discriminate.
Qed.

Lemma rstrip_empty_iff (s : string) :
  Str.rstrip s = EmptyString <-> blank s = true.
Proof.
  induction s as [|c s IH]; cbn [Str.rstrip blank]; [tauto|].
  destruct (Str.rstrip s) as [|d r].
  - destruct (Str.isspace c); cbn [andb].
    + split; [intros _; now apply IH | reflexivity].
    + split; discriminate.
  - split; [discriminate|].
    intros Hb. apply andb_prop in Hb as [_ Hb]. now apply IH in Hb.
Qed.

Lemma blank_lstrip (s : string) : blank (Str.lstrip s) = blank s.
Proof.
  induction s as [|c s IH]; [reflexivity|].
  cbn [Str.lstrip blank]. destruct (Str.isspace c) eqn:Hc; cbn [andb]; [exact IH|].
  cbn [blank]. now rewrite Hc.
Qed.

Lemma strip_empty_iff (s : string) :
  Str.strip s = EmptyString <-> blank s = true.
Proof.
  unfold Str.strip. rewrite rstrip_empty_iff, blank_lstrip. tauto.
Qed.

Lemma rstrip_blank_empty (s : string) :
  blank (Str.rstrip s) = true -> Str.rstrip s = EmptyString.
Proof.
  induction s as [|c s IH]; cbn [Str.rstrip]; [reflexivity|].
  destruct (Str.rstrip s) as [|d r].
  - destruct (Str.isspace c) eqn:Hc; [reflexivity|].
    cbn [blank]. rewrite Hc. discriminate.
  - intros Hb. cbn [blank] in Hb. apply andb_prop in Hb as [_ Hb].
    now apply IH in Hb.
Qed.

Lemma blank_strip (s : string) : blank (Str.strip s) = true <-> blank s = true.
Proof.
  split.
  - intros Hb. apply strip_empty_iff. unfold Str.strip in *.
    now apply rstrip_blank_empty.
  - intros Hb. apply strip_empty_iff in Hb. now rewrite Hb.
Qed.

Lemma trimmed_none_iff (p : string) : trimmed p = None <-> blank p = true.
Proof.
  unfold trimmed. rewrite <- strip_empty_iff.
  destruct (Str.strip p); cbn; split; congruence.
Qed.

Lemma omap_trimmed_nil (pieces : list string) :
  omap trimmed pieces = [] <-> Forall (fun p => blank p = true) pieces.
Proof.
  induction pieces as [|p ps IH]; cbn [omap list_omap].
  - split; [constructor | reflexivity].
  - destruct (trimmed p) as [t|] eqn:Ht.
    + split; [discriminate|]. intros Hall. inversion Hall as [|? ? Hp _]; subst.
      apply trimmed_none_iff in Hp. congruence.
    + apply trimmed_none_iff in Ht. rewrite IH. split.
      * now constructor.
      * intros Hall. now inversion Hall.
Qed.

Lemma Forall_blank_cons_first (c : ascii) (pieces : list string) :
  Forall (fun p => blank p = true) (Str.cons_first c pieces)
  <-> Str.isspace c = true /\ Forall (fun p => blank p = true) pieces.
Proof.
  destruct pieces as [|p ps]; cbn [Str.cons_first].
  - split.
    + intros Hall. inversion Hall as [|? ? Hc _]; subst. cbn [blank] in Hc.
      apply andb_prop in Hc as [Hc _]. split; [exact Hc | constructor].
    + intros [Hc _]. constructor; [|constructor]. cbn [blank]. now rewrite Hc.
  - split.
    + intros Hall. inversion Hall as [|? ? Hc Hps]; subst. cbn [blank] in Hc.
      apply andb_prop in Hc as [Hc Hp]. split; [exact Hc | now constructor].
    + intros [Hc Hall]. inversion Hall as [|? ? Hp Hps]; subst.
      constructor; [|exact Hps]. cbn [blank]. now rewrite Hc, Hp.
Qed.

Lemma isspace_LF : Str.isspace Str.LF = true.
Proof. reflexivity. Qed.

Lemma Forall_blank_split_para (s : string) :
  Forall (fun p => blank p = true) (split_para s) <-> blank s = true.
Proof.
  induction s as [| c | c d s IHs IHd] using string_pair_ind.
  - cbn. split; [reflexivity | intros _; now repeat constructor].
  - cbn [split_para]. rewrite Forall_blank_cons_first. cbn [blank].
    rewrite andb_true_r. split; [tauto | intros Hc; split; [exact Hc | now repeat constructor]].
  - rewrite split_para_pair.
    destruct (is_LF c && is_LF d) eqn:Hcd.
    + apply andb_prop in Hcd as [Hc Hd].
      apply is_LF_eq in Hc as ->. apply is_LF_eq in Hd as ->.
      cbn [blank]. rewrite isspace_LF. cbn [andb]. rewrite <- IHs.
      split.
      * intros Hall. now inversion Hall.
      * intros Hall. now constructor.
    + rewrite Forall_blank_cons_first, IHd.
      change (blank (String c (String d s)))
        with (Str.isspace c && blank (String d s)).
      rewrite andb_true_iff. tauto.
Qed.

(** The chunk sequence is empty exactly when the text is all white space. *)
Lemma chunk_paragraphs_nil_iff (text : string) :
  chunk_paragraphs text = [] <-> blank text = true.
Proof.
  rewrite chunk_paragraphs_split_para, omap_trimmed_nil.
  apply Forall_blank_split_para.
Qed.

Section TextIngestion.

Context `{EmbeddingModels, VectorStore, Host}.

(** A text file that is all white space is refused before any collaborator
    is called. *)
Lemma _ingest_text_blank (path content : string) (w : world) :
  files w !! path = Some content -> blank content = true ->
  _ingest_text path w = (Raise (HTTPException 400 "Empty text file"), w).
Proof.
  intros Hf Hb. unfold _ingest_text, bind, read_file. rewrite Hf.
  apply strip_empty_iff in Hb. now rewrite Hb.
Qed.

(** Any other text file has its chunks sent to the text model first. *)
Lemma _ingest_text_not_blank (path content : string) (w : world) :
  files w !! path = Some content -> blank content = false ->
  exists rest,
    calls (_ingest_text path w).2 =
      calls w ++ CEncodeText (chunk_paragraphs (Str.strip content)) :: rest.
Proof.
  intros Hf Hb. unfold _ingest_text, bind, read_file. rewrite Hf.
  destruct (Str.nonempty (Str.strip content)) eqn:Hne.
  - cbn [negb]. unfold embed_text, fresh_uuid, upsert_text, perform, ret.
    destruct (text_model_encode _) as [emb|e]; cbn [snd calls].
    + destruct (collection_upsert _ _ _ _ _) as [[]|e]; cbn [snd calls];
        rewrite <- app_assoc; eexists; reflexivity.
    + exists []. reflexivity.
  - apply nonempty_false, strip_empty_iff in Hne. congruence.
Qed.

(** [_ingest_text] returns exactly when the file is there and not all
    white space, the model embeds its chunks and the store accepts the
    upsert; this is what it then returns and leaves behind. *)
Lemma _ingest_text_inv (path : string) (w w' : world) (r : pydict) :
  _ingest_text path w = (Ok r, w') ->
  exists content emb,
    files w !! path = Some content
    /\ blank content = false
    /\ let chunks := chunk_paragraphs (Str.strip content) in
       let doc_id := uuid4 (drawn w) in
       text_model_encode chunks = Ok emb
       /\ r = dict [("status", PStr "ok");
                    ("ingested_chunks", PLen (length chunks));
                    ("doc_id", PStr doc_id)]
       /\ w' = after w
                 [CEncodeText chunks;
                  CUpsert TEXT_COLLECTION
                    (map (text_chunk_id doc_id) (seq 0 (length chunks))) emb
                    (map (text_metadata doc_id path) (seq 0 (length chunks)))
                    (Some chunks)] 1.
Proof.
  unfold _ingest_text, bind, read_file.
  destruct (files w !! path) as [content|] eqn:Hf; [|discriminate].
  destruct (Str.nonempty (Str.strip content)) eqn:Hne; cbn [negb];
    [|discriminate].
  unfold embed_text, fresh_uuid, upsert_text, perform, ret.
  destruct (text_model_encode _) as [emb|e] eqn:He; [|discriminate].
  cbn [files calls drawn].
  destruct (collection_upsert _ _ _ _ _) as [[]|e]; [|discriminate].
  intros [= <- <-]. exists content, emb.
  split; [reflexivity|]. split.
  - destruct (blank content) eqn:Hb; [|reflexivity].
    apply strip_empty_iff in Hb. rewrite Hb in Hne. discriminate.
  - cbv zeta. split; [exact He|]. split; [reflexivity|].
    unfold after. cbn [files calls drawn].
    rewrite <- app_assoc, Nat.add_1_r. reflexivity.
Qed.

End TextIngestion.

(** C6. For a text file, the chunk sequence is empty (the content is empty
    or all white space; stripping the content first, as the routine does,
    changes nothing to that) if and only if the ingestion fails with status
    400, [Empty text file], without a call to any collaborator: nothing is
    embedded and nothing upserted. *)
Theorem empty_text_file_fails_before_any_call
    `{EmbeddingModels, VectorStore, Host}
    (path content : string) (w : world) :
  files w !! path = Some content ->
  (chunk_paragraphs content = [] <-> chunk_paragraphs (Str.strip content) = [])
  /\ (chunk_paragraphs content = [] <->
      (_ingest_text path w).1 = Raise (HTTPException 400 "Empty text file")
      /\ calls (_ingest_text path w).2 = calls w)
  /\ (chunk_paragraphs content = [] ->
      _ingest_text path w = (Raise (HTTPException 400 "Empty text file"), w)).
Proof.
  intros Hf. split; [|split].
  - rewrite !chunk_paragraphs_nil_iff. symmetry. apply blank_strip.
  - rewrite chunk_paragraphs_nil_iff. split.
    + intros Hb. now rewrite (_ingest_text_blank path content w Hf Hb).
    + intros [_ Hcalls]. destruct (blank content) eqn:Hb; [reflexivity|].
      destruct (_ingest_text_not_blank path content w Hf Hb) as [rest Hrest].
      rewrite Hrest in Hcalls.
      apply (f_equal length) in Hcalls. rewrite length_app in Hcalls.
      cbn [length] in Hcalls. lia.
  - intros Hnil. apply chunk_paragraphs_nil_iff in Hnil.
    exact (_ingest_text_blank path content w Hf Hnil).
Qed.

Lemma empty_text_file_witness :
  @_ingest_text Sample.models (Sample.store Sample.no_answer Sample.no_answer)
    Sample.host "data/uploads/blank.txt"
    (Sample.world_with "data/uploads/blank.txt"
       (String " " (String Str.LF (String Str.LF (String " " EmptyString)))))
  = (Raise (HTTPException 400 "Empty text file"),
     Sample.world_with "data/uploads/blank.txt"
       (String " " (String Str.LF (String Str.LF (String " " EmptyString))))).
Proof.
  destruct (@empty_text_file_fails_before_any_call
              Sample.models (Sample.store Sample.no_answer Sample.no_answer)
              Sample.host "data/uploads/blank.txt"
              (String " " (String Str.LF (String Str.LF (String " " EmptyString))))
              (Sample.world_with "data/uploads/blank.txt"
                 (String " " (String Str.LF (String Str.LF (String " " EmptyString))))))
    as (_ & _ & Hfails).
  - reflexivity.
  - apply Hfails. reflexivity.
Defined.

(** ** Identifiers of the units (C4) *)

Lemma append_empty_r (s : string) : s +:+ EmptyString = s.
Proof.
  induction s as [|c s IH]; [reflexivity|].
  change (String c (s +:+ EmptyString) = String c s). now rewrite IH.
Qed.

Lemma for_each_inv {A B} (f : A -> M B) (P : A -> B -> Prop)
    (I : world -> world -> Prop) :
  (forall w, I w w) ->
  (forall w1 w2 w3, I w1 w2 -> I w2 w3 -> I w1 w3) ->
  (forall a w b w', f a w = (Ok b, w') -> P a b /\ I w w') ->
  forall l w bs w',
    for_each f l w = (Ok bs, w') -> Forall2 P l bs /\ I w w'.
Proof.
  intros Hrefl Htrans Hstep.
  induction l as [|a l IH]; intros w bs w'; cbn [for_each].
  - unfold ret. intros [= <- <-]. split; [constructor | apply Hrefl].
  - unfold bind. destruct (f a w) as [[b|e] w1] eqn:Ef; [|discriminate].
    destruct (for_each f l w1) as [[bs'|e] w2] eqn:El; [|discriminate].
    unfold ret. intros [= <- <-].
    apply Hstep in Ef as [HP HI]. apply IH in El as [Hall HI'].
    split; [now constructor | now apply Htrans with w1].
Qed.

Lemma Forall2_is_map {A B} (g : A -> B) (l : list A) (bs : list B) :
  Forall2 (fun a b => b = g a) l bs -> bs = map g l.
Proof. induction 1; cbn; congruence. Qed.

Lemma enumerate_fst {A} (start : nat) (l : list A) :
  map fst (enumerate start l) = seq start (length l).
Proof.
  unfold enumerate. change (map fst (imap ?f l)) with (fst <$> imap f l).
  rewrite fmap_imap.
  rewrite (imap_ext _ (fun j _ => id (start + j)%nat)) by reflexivity.
  rewrite imap_seq. apply list_fmap_id.
Qed.

Section PdfIngestion.

Context `{EmbeddingModels, VectorStore, Tesseract, Decoders, Host}.

Lemma pdf_text_id_of_unit (doc_id path timestamp : string) (page_num idx : nat) :
  pdf_text_id doc_id
    (dict [("doc_id", PStr doc_id);
           ("file_type", PStr "pdf_text");
           ("source_path", PStr path);
           ("uploaded_at", PStr timestamp);
           ("page", PLen page_num);
           ("chunk_index", PLen idx)])
  = scheme_id "pdftext" doc_id (Some page_num) (ChunkSuffix idx).
Proof.
  unfold pdf_text_id, scheme_id.
  assert (Hp : (dict [("doc_id", PStr doc_id);
                      ("file_type", PStr "pdf_text");
                      ("source_path", PStr path);
                      ("uploaded_at", PStr timestamp);
                      ("page", PLen page_num);
                      ("chunk_index", PLen idx)] : pydict) !! "page"
               = Some (PLen page_num)) by reflexivity.
  assert (Hc : (dict [("doc_id", PStr doc_id);
                      ("file_type", PStr "pdf_text");
                      ("source_path", PStr path);
                      ("uploaded_at", PStr timestamp);
                      ("page", PLen page_num);
                      ("chunk_index", PLen idx)] : pydict) !! "chunk_index"
               = Some (PLen idx)) by reflexivity.
  rewrite Hp, Hc. reflexivity.
Qed.

Lemma pdf_page_chunks_ids (doc_id path timestamp : string) (page : nat * string) :
  map (pdf_text_id doc_id) (map snd (pdf_page_chunks doc_id path timestamp page))
  = pdf_text_ids doc_id [page].
Proof.
  destruct page as [page_num page_text].
  unfold pdf_text_ids, pdf_page_chunks. cbn [flat_map]. rewrite app_nil_r.
  destruct (Str.nonempty page_text) eqn:Hne.
  - rewrite <- enumerate_fst, !map_map. apply map_ext.
    intros [idx chunk]. cbn [fst snd]. apply pdf_text_id_of_unit.
  - apply nonempty_false in Hne as ->. reflexivity.
Qed.

Lemma pdf_text_units_ids (doc_id path timestamp : string) (pages : list (nat * string)) :
  map (pdf_text_id doc_id)
      (map snd (flat_map (pdf_page_chunks doc_id path timestamp) pages))
  = pdf_text_ids doc_id pages.
Proof.
  induction pages as [|page pages IH]; [reflexivity|].
  cbn [flat_map]. rewrite !map_app, IH, pdf_page_chunks_ids.
  unfold pdf_text_ids. cbn [flat_map]. now rewrite app_nil_r.
Qed.

Lemma no_upsert_refl (w : world) : no_upsert w w.
Proof. reflexivity. Qed.

Lemma no_upsert_trans (w1 w2 w3 : world) :
  no_upsert w1 w2 -> no_upsert w2 w3 -> no_upsert w1 w3.
Proof. unfold no_upsert. congruence. Qed.

Lemma extract_pdf_text_per_page_inv (path : string) (w w' : world)
    (pages : list (nat * string)) :
  extract_pdf_text_per_page path w = (Ok pages, w') ->
  exists content texts,
    files w !! path = Some content
    /\ pdf_page_texts content = Ok texts
    /\ pages = numbered_pages texts
    /\ w' = w.
Proof.
  unfold extract_pdf_text_per_page, bind, read_file, lift, ret.
  destruct (files w !! path) as [content|]; [|discriminate].
  destruct (pdf_page_texts content) as [texts|e] eqn:Et; [|discriminate].
  intros [= <- <-]. now exists content, texts.
Qed.

Lemma extract_pdf_images_inv (path output_dir : string) (w w' : world)
    (records : list (nat * string)) :
  extract_pdf_images path output_dir w = (Ok records, w') ->
  exists content rendered,
    files w !! path = Some content
    /\ pdf_render_pages content = Ok rendered
    /\ records = page_records output_dir rendered
    /\ calls w' = calls w.
Proof.
  unfold extract_pdf_images, bind at 1 2, read_file, lift.
  destruct (files w !! path) as [content|]; [|discriminate].
  destruct (pdf_render_pages content) as [rendered|e] eqn:Er; [|discriminate].
  intros Hloop.
  apply (for_each_inv _
           (fun a b => b = (let '(page_index, _) := a in
                            ((page_index + 1)%nat,
                             path_join output_dir
                               ("page" +:+ Str.of_nat (page_index + 1) +:+ ".png"))))
           (fun w1 w2 => calls w2 = calls w1)) in Hloop.
  - destruct Hloop as [Hall Hcalls].
    exists content, rendered.
    split; [reflexivity|]. split; [exact Er|]. split; [|exact Hcalls].
    apply Forall2_is_map in Hall. exact Hall.
  - reflexivity.
  - congruence.
  - intros [page_index png] w1 b w2. unfold bind, write_file, ret.
    intros [= <- <-]. split; reflexivity.
Qed.

Lemma pdf_page_image_inv (doc_id path timestamp : string) (rec : nat * string)
    (w w' : world) (u : vec * string * pydict) :
  pdf_page_image doc_id path timestamp rec w = (Ok u, w') ->
  u.1.2 = scheme_id "pdfimg" doc_id (Some rec.1)
            (BasenameSuffix (path_basename rec.2))
  /\ no_upsert w w'.
Proof.
  destruct rec as [page img_path].
  unfold pdf_page_image, bind, read_file, lift.
  destruct (files w !! img_path) as [content|]; [|discriminate].
  destruct (image_open content) as [img|e]; [|discriminate].
  rewrite ocr_image_run. unfold embed_image, perform.
  destruct (clip_model_encode_image img) as [emb|e]; [|discriminate].
  unfold index. destruct (emb !! 0%nat) as [row|]; [|discriminate].
  unfold ret. intros [= <- <-]. split; [reflexivity|].
  unfold no_upsert, after, upserted_ids. cbn [calls].
  rewrite !omap_app. cbn. now rewrite !app_nil_r.
Qed.

Lemma Forall2_map_eq {A B C} (g : B -> C) (h : A -> C) (l : list A) (bs : list B) :
  Forall2 (fun a b => g b = h a) l bs -> map g bs = map h l.
Proof. induction 1; cbn; congruence. Qed.

(** A PDF ingestion that returns has handed to the store the identifiers of
    its text chunks, if any, and then those of its rendered pages, if
    any. *)
Lemma _ingest_pdf_inv (path : string) (w w' : world) (r : pydict) :
  _ingest_pdf path w = (Ok r, w') ->
  exists content texts rendered,
    files w !! path = Some content
    /\ pdf_page_texts content = Ok texts
    /\ pdf_render_pages content = Ok rendered
    /\ upserted_ids (calls w') =
         upserted_ids (calls w)
         ++ upsert_of TEXT_COLLECTION
              (pdf_text_ids (uuid4 (drawn w)) (numbered_pages texts))
         ++ upsert_of IMAGE_COLLECTION
              (pdf_image_ids (uuid4 (drawn w))
                 (page_records (extract_dir path) rendered)).
Proof.
  unfold _ingest_pdf, bind at 1, fresh_uuid, try_except.
  set (doc_id := uuid4 (drawn w)).
  set (w1 := {| files := files w; calls := calls w; drawn := S (drawn w) |}).
  unfold bind at 1.
  destruct (extract_pdf_text_per_page path w1) as [[pages|e] w2] eqn:Ep;
    [|discriminate].
  apply extract_pdf_text_per_page_inv in Ep
    as (content & texts & Hf & Ht & -> & ->).
  unfold bind at 1. fold (extract_dir path).
  destruct (extract_pdf_images path (extract_dir path) w1)
    as [[records|e] w3] eqn:Ei; [|discriminate].
  apply extract_pdf_images_inv in Ei
    as (content' & rendered & Hf' & Hr & -> & Hc3).
  rewrite Hf in Hf'. injection Hf' as <-.
  unfold bind at 1.
  destruct (for_each _ _ w3) as [[units|e] w4] eqn:Eu; [|discriminate].
  apply (for_each_inv _
           (fun rec u => u.1.2 = scheme_id "pdfimg" doc_id (Some rec.1)
                                   (BasenameSuffix (path_basename rec.2)))
           no_upsert no_upsert_refl no_upsert_trans) in Eu;
    [| intros a wa b wb; apply pdf_page_image_inv].
  destruct Eu as [Hunits Hc4].
  assert (Hids : map (fun u => u.1.2) units
                 = pdf_image_ids doc_id (page_records (extract_dir path) rendered)).
  { unfold pdf_image_ids.
    rewrite (Forall2_map_eq _ _ _ _ Hunits).
    apply map_ext. now intros [page img_path]. }
  intros Hrun. exists content, texts, rendered.
  split; [exact Hf|]. split; [exact Ht|]. split; [exact Hr|].
  rewrite <- pdf_text_units_ids with (path := path) (timestamp := utcnow_isoformat).
  rewrite <- Hids.
  set (text_units := flat_map (pdf_page_chunks doc_id path utcnow_isoformat)
                              (numbered_pages texts)) in *.
  assert (H4 : upserted_ids (calls w4) = upserted_ids (calls w)).
  { unfold no_upsert in Hc4. rewrite Hc4, Hc3. reflexivity. }
  revert Hrun. unfold bind, embed_text, upsert_text, upsert_images, perform, ret.
  destruct text_units as [|tu text_units]; cbn [map].
  - destruct units as [|u units]; cbn [map].
    + intros [= _ <-]. rewrite H4. cbn. now rewrite app_nil_r.
    + destruct (collection_upsert _ _ _ _ _) as [[]|e]; [|discriminate].
      intros [= _ <-]. cbn [calls]. unfold upserted_ids in *.
      rewrite omap_app, H4. cbn.
      rewrite ?app_nil_r, <- ?app_assoc. reflexivity.
  - destruct (text_model_encode _) as [emb|e]; [|discriminate].
    destruct (collection_upsert TEXT_COLLECTION _ _ _ _) as [[]|e]; [|discriminate].
    destruct units as [|u units]; cbn [map].
    + intros [= _ <-]. cbn [calls]. unfold upserted_ids in *.
      rewrite !omap_app, H4. cbn.
      rewrite ?app_nil_r, <- ?app_assoc. reflexivity.
    + destruct (collection_upsert IMAGE_COLLECTION _ _ _ _) as [[]|e]; [|discriminate].
      intros [= _ <-]. cbn [calls]. unfold upserted_ids in *.
      rewrite !omap_app, H4. cbn.
      rewrite ?app_nil_r, <- ?app_assoc. reflexivity.
Qed.

End PdfIngestion.

(** C4, as the code has it. Whatever an ingestion that returns has handed
    to the store carries these identifiers: chunk [i] of a text file
    [txt::{doc_id}::{i}], with the bare index and no [c]; an image file
    [img::{doc_id}], with nothing after the document; chunk [i] of page [p]
    of a PDF [pdftext::{doc_id}::p{p}::c{i}]; the rendered page [p] of a PDF
    [pdfimg::{doc_id}::p{p}::{basename}]. The last three follow the scheme
    of the specification. Each identifier is a function of the prefix, the
    document, the page and the index or base name alone. *)
Theorem unit_identifiers_by_ingestion_path
    `{EmbeddingModels, VectorStore, Tesseract, Decoders, Host}
    (path : string) (w w' : world) (r : pydict) :
  let doc_id := uuid4 (drawn w) in
  (_ingest_text path w = (Ok r, w') ->
   exists content,
     files w !! path = Some content
     /\ upserted_ids (calls w') =
          upserted_ids (calls w)
          ++ [(TEXT_COLLECTION,
               map (fun i => "txt::" +:+ doc_id +:+ "::" +:+ Str.of_nat i)
                   (seq 0 (length (chunk_paragraphs (Str.strip content)))))])
  /\ (_ingest_image path w = (Ok r, w') ->
      upserted_ids (calls w') =
        upserted_ids (calls w)
        ++ [(IMAGE_COLLECTION, [scheme_id "img" doc_id None NoSuffix])])
  /\ (_ingest_pdf path w = (Ok r, w') ->
      exists content texts rendered,
        files w !! path = Some content
        /\ pdf_page_texts content = Ok texts
        /\ pdf_render_pages content = Ok rendered
        /\ upserted_ids (calls w') =
             upserted_ids (calls w)
             ++ upsert_of TEXT_COLLECTION
                  (flat_map
                     (fun '(page_num, page_text) =>
                        map (fun idx =>
                               scheme_id "pdftext" doc_id (Some page_num)
                                         (ChunkSuffix idx))
                            (seq 0 (length (chunk_paragraphs page_text))))
                     (numbered_pages texts))
             ++ upsert_of IMAGE_COLLECTION
                  (map (fun '(page, img_path) =>
                          scheme_id "pdfimg" doc_id (Some page)
                                    (BasenameSuffix (path_basename img_path)))
                       (page_records (extract_dir path) rendered)))
  /\ (forall prefix prefix' d d' page page' suffix suffix',
        prefix = prefix' -> d = d' -> page = page' -> suffix = suffix' ->
        scheme_id prefix d page suffix = scheme_id prefix' d' page' suffix')
  /\ (forall d d' i i',
        d = d' -> i = i' -> text_chunk_id d i = text_chunk_id d' i').
Proof.
  intros doc_id. split; [|split; [|split; [|split]]].
  - intros Hrun. apply _ingest_text_inv in Hrun
      as (content & emb & Hf & _ & _ & _ & ->).
    exists content. split; [exact Hf|].
    unfold after, upserted_ids. cbn [calls]. rewrite omap_app. reflexivity.
  - intros Hrun. apply _ingest_image_inv in Hrun
      as (content & img & emb & _ & _ & _ & _ & ->).
    unfold after, upserted_ids. cbn [calls]. rewrite omap_app. cbn.
    unfold scheme_id, image_id. now rewrite !append_empty_r.
  - intros Hrun. now apply _ingest_pdf_inv in Hrun.
  - intros; now subst.
  - intros; now subst.
Qed.

(** A text file of two paragraphs: its chunks are upserted as
    [txt::doc0::0] and [txt::doc0::1], which is not what the scheme gives
    for chunk indexes, [txt::doc0::c0] and [txt::doc0::c1]. *)
Lemma text_chunk_identifier_has_no_chunk_marker :
  upserted_ids
    (calls
       (@_ingest_text Sample.models
          (Sample.store Sample.no_answer Sample.no_answer) Sample.host
          "data/uploads/two.txt"
          (Sample.world_with "data/uploads/two.txt"
             (String "A" (String Str.LF (String Str.LF (String "B" EmptyString)))))).2)
  = [(TEXT_COLLECTION, ["txt::doc0::0"; "txt::doc0::1"])]
  /\ map (fun i => scheme_id "txt" "doc0" None (ChunkSuffix i)) [0; 1]%nat
     = ["txt::doc0::c0"; "txt::doc0::c1"]
  /\ String.eqb "txt::doc0::0" (scheme_id "txt" "doc0" None (ChunkSuffix 0)) = false.
Proof. vm_compute. repeat split; reflexivity. Qed.

Lemma unit_identifiers_witness :
  exists (r : pydict) (w' : world),
    @_ingest_pdf Sample.models (Sample.store Sample.no_answer Sample.no_answer)
      Sample.tesseract_missing Sample.decoders Sample.host
      "data/uploads/scan.pdf"
      (Sample.world_with "data/uploads/scan.pdf"
         (String "x" (String Str.LF (String "y" EmptyString))))
    = (Ok r, w')
    /\ upserted_ids (calls w') =
         [(TEXT_COLLECTION, ["pdftext::doc0::p1::c0"; "pdftext::doc0::p2::c0"]);
          (IMAGE_COLLECTION,
           ["pdfimg::doc0::p1::page1.png"; "pdfimg::doc0::p2::page2.png"])].
Proof.
  destruct (@_ingest_pdf Sample.models
              (Sample.store Sample.no_answer Sample.no_answer)
              Sample.tesseract_missing Sample.decoders Sample.host
              "data/uploads/scan.pdf"
              (Sample.world_with "data/uploads/scan.pdf"
                 (String "x" (String Str.LF (String "y" EmptyString)))))
    as [[r|e] w'] eqn:Hrun; [| vm_compute in Hrun; discriminate].
  exists r, w'. split; [reflexivity|].
  destruct (@unit_identifiers_by_ingestion_path Sample.models
              (Sample.store Sample.no_answer Sample.no_answer)
              Sample.tesseract_missing Sample.decoders Sample.host
              "data/uploads/scan.pdf"
              (Sample.world_with "data/uploads/scan.pdf"
                 (String "x" (String Str.LF (String "y" EmptyString))))
              w' r) as (_ & _ & Hpdf & _).
  destruct (Hpdf Hrun) as (content & texts & rendered & Hf & Ht & Hr & Hids).
  vm_compute in Hf. injection Hf as <-.
  vm_compute in Ht. injection Ht as <-.
  vm_compute in Hr. injection Hr as <-.
  rewrite Hids. vm_compute. reflexivity.
Defined.

(** * Further properties *)

(** ** The query, run by run *)

Lemma metadata_at_inv (r : QueryResult) (i : nat) (w w' : world) (m : pydict) :
  metadata_at r i w = (Ok m, w') ->
  w' = w /\ m = default ∅ (ms ← qr_metadatas r; ms !! i).
Proof.
  unfold metadata_at, index, ret, raise.
  destruct (qr_metadatas r) as [ms|]; cbn.
  - destruct (ms !! i) as [a|]; [|discriminate]. now intros [= <- <-].
  - now intros [= <- <-].
Qed.

Lemma text_entries_inv (r : QueryResult) (scores : list Q) (w w' : world)
    (ts : list MergedResult) :
  text_entries r scores w = (Ok ts, w') ->
  w' = w /\ ts = map (text_entry r scores) (enumerate 0 (qr_ids r)).
Proof.
  intros Hrun. unfold text_entries in Hrun.
  apply (for_each_inv _ (fun p t => t = text_entry r scores p)
           (fun w1 w2 => w2 = w1)) in Hrun.
  - destruct Hrun as [Hall ->]. split; [reflexivity|].
    now apply Forall2_is_map.
  - reflexivity.
  - congruence.
  - intros [i _id] w1 t w2. unfold bind.
    destruct (metadata_at r i w1) as [[m|e] w3] eqn:Em; [|discriminate].
    apply metadata_at_inv in Em as [-> ->].
    unfold text_entry. cbn [fst snd].
    destruct (qr_documents r) as [ds|]; cbn.
    + unfold index, ret, raise.
      destruct (ds !! i) as [d|]; [|discriminate]. now intros [= <- <-].
    + unfold ret. now intros [= <- <-].
Qed.

Lemma image_entries_inv (r : QueryResult) (scores : list Q) (w w' : world)
    (ts : list MergedResult) :
  image_entries r scores w = (Ok ts, w') ->
  w' = w /\ ts = map (image_entry r scores) (enumerate 0 (qr_ids r)).
Proof.
  intros Hrun. unfold image_entries in Hrun.
  apply (for_each_inv _ (fun p t => t = image_entry r scores p)
           (fun w1 w2 => w2 = w1)) in Hrun.
  - destruct Hrun as [Hall ->]. split; [reflexivity|].
    now apply Forall2_is_map.
  - reflexivity.
  - congruence.
  - intros [i _id] w1 t w2. unfold bind.
    destruct (metadata_at r i w1) as [[m|e] w3] eqn:Em; [|discriminate].
    apply metadata_at_inv in Em as [-> ->].
    unfold ret. now intros [= <- <-].
Qed.

(** What a query that returns has returned and left behind, given what the
    collaborators answered. *)
Lemma multimodal_query_inv `{EmbeddingModels, VectorStore}
    (query : string) (top_k : Z) (tr ir : QueryResult)
    (text_emb clip_emb : vec) (text_rows clip_rows : list vec)
    (w w' : world) (resp : QueryResponse) :
  text_model_encode [query] = Ok (text_emb :: text_rows) ->
  collection_query TEXT_COLLECTION text_emb top_k = Ok tr ->
  clip_model_encode [query] = Ok (clip_emb :: clip_rows) ->
  collection_query IMAGE_COLLECTION clip_emb top_k = Ok ir ->
  multimodal_query query top_k w = (Ok resp, w') ->
  resp = {| resp_query := query;
            resp_results :=
              merge_top_k (text_candidates tr ++ image_candidates ir) top_k;
            resp_total_results :=
              length (merge_top_k (text_candidates tr ++ image_candidates ir) top_k) |}
  /\ w' = after w [CEncodeText [query];
                   CQuery TEXT_COLLECTION text_emb top_k;
                   CEncodeClipText [query];
                   CQuery IMAGE_COLLECTION clip_emb top_k] 0.
Proof.
  intros Hte Htr Hce Hir.
  unfold multimodal_query, bind, embed_text, embed_clip_text, query_text,
    query_images, perform.
  rewrite Hte. cbn [index lookup list_lookup ret].
  rewrite Htr, Hce. cbn [index lookup list_lookup ret].
  rewrite Hir.
  destruct (text_entries tr _ _) as [[ts|e] w1] eqn:Et; [|discriminate].
  apply text_entries_inv in Et as [-> ->].
  destruct (image_entries ir _ _) as [[ims|e] w2] eqn:Ei; [|discriminate].
  apply image_entries_inv in Ei as [-> ->].
  intros [= <- <-]. split; [reflexivity|].
  unfold after. cbn [files calls drawn].
  rewrite <- !app_assoc, Nat.add_0_r. reflexivity.
Qed.

(** ** Normalized scores in the results *)

Lemma normalize_scores_in_unit (scores : list Q) (x : Q) :
  In x (_normalize_scores scores) -> (0 <= x /\ x <= 1)%Q.
Proof.
  destruct scores as [|first rest]; [intros []|].
  destruct (py_min_spec first rest) as [Hmin_in Hmin_le].
  destruct (py_max_spec first rest) as [Hmax_in Hmax_le].
  unfold _normalize_scores.
  destruct (isclose (py_max first rest) (py_min first rest)) eqn:Hc;
    intros Hx; apply List.in_map_iff in Hx as (s & <- & Hs).
  - split; discriminate.
  - apply scaled_in_unit_interval; [| now apply Hmin_le | now apply Hmax_le].
    apply isclose_false_lt; [now apply Hmin_le | exact Hc].
Qed.

Lemma normalize_scores_length (scores : list Q) :
  length (_normalize_scores scores) = length scores.
Proof.
  destruct scores as [|first rest]; [reflexivity|].
  unfold _normalize_scores.
  destruct (isclose _ _); apply length_map.
Qed.

(** In a non-empty list some position is normalized to 1. *)
Lemma normalize_scores_has_one (scores : list Q) :
  scores <> [] ->
  exists i x, _normalize_scores scores !! i = Some x /\ (x == 1)%Q.
Proof.
  destruct scores as [|first rest]; [congruence|]. intros _.
  destruct (py_min_spec first rest) as [Hmin_in Hmin_le].
  destruct (py_max_spec first rest) as [Hmax_in Hmax_le].
  unfold _normalize_scores.
  destruct (isclose (py_max first rest) (py_min first rest)) eqn:Hc.
  - exists 0%nat, 1%Q. split; reflexivity.
  - pose proof (Hmin_le _ Hmax_in) as Hle.
    apply list_elem_of_In, list_elem_of_lookup in Hmax_in as [i Hi].
    exists i. eexists. split.
    + change (map ?f ?l) with (f <$> l). rewrite list_lookup_fmap, Hi.
      reflexivity.
    + apply scaled_max_is_one, isclose_false_lt; [exact Hle | exact Hc].
Qed.

Lemma score_at_in_unit (scores : list Q) (i : nat) :
  (0 <= score_at (_normalize_scores scores) i
   /\ score_at (_normalize_scores scores) i <= 1)%Q.
Proof.
  unfold score_at.
  destruct (_normalize_scores scores !! i) as [x|] eqn:Hx; cbn.
  - apply (normalize_scores_in_unit scores).
    apply list_elem_of_In, list_elem_of_lookup. eauto.
  - split; discriminate.
Qed.

Lemma candidates_in_unit (tr ir : QueryResult) (c : MergedResult) :
  In c (text_candidates tr ++ image_candidates ir) ->
  (0 <= mr_score c /\ mr_score c <= 1)%Q.
Proof.
  intros Hc. apply List.in_app_or in Hc as [Hc | Hc];
    apply List.in_map_iff in Hc as (p & <- & _); apply score_at_in_unit.
Qed.

Lemma In_slice_to {A} (l : list A) (k : Z) (x : A) :
  In x (slice_to l k) -> In x l.
Proof.
  unfold slice_to. destruct (0 <=? k)%Z; intros Hx;
    apply list_elem_of_In in Hx; apply list_elem_of_In;
    apply elem_of_take in Hx as (i & Hi & _);
    apply list_elem_of_lookup; eauto.
Qed.

Lemma In_merge_top_k (merged : list MergedResult) (k : Z) (x : MergedResult) :
  In x (merge_top_k merged k) -> In x merged.
Proof.
  intros Hx. apply In_slice_to in Hx.
  now apply (Permutation_in _ (sort_desc_perm mr_score merged)).
Qed.

(** X1. Whatever the store answers and whatever [top_k] is, every result a
    query returns has a score between 0 and 1: the normalized similarity,
    or 0 where the answer gave no distance for the entry. *)
Theorem query_results_have_unit_scores `{EmbeddingModels, VectorStore}
    (query : string) (top_k : Z) (tr ir : QueryResult) (w w' : world)
    (resp : QueryResponse) :
  answered query top_k tr ir ->
  multimodal_query query top_k w = (Ok resp, w') ->
  Forall (fun r => 0 <= mr_score r /\ mr_score r <= 1)%Q (resp_results resp).
Proof.
  intros (te & trows & ce & crows & Hte & Htr & Hce & Hir) Hrun.
  destruct (multimodal_query_inv _ _ _ _ _ _ _ _ _ _ _ Hte Htr Hce Hir Hrun)
    as [-> _].
  apply List.Forall_forall. intros r Hr. cbn [resp_results] in Hr.
  apply In_merge_top_k in Hr. now apply (candidates_in_unit tr ir).
Qed.

Lemma query_results_have_unit_scores_witness :
  exists resp w',
    @multimodal_query Sample.models
      (Sample.store Sample.text_answer Sample.image_answer)
      "cats" 3 Sample.empty_world = (Ok resp, w')
    /\ Forall (fun r => 0 <= mr_score r /\ mr_score r <= 1)%Q (resp_results resp).
Proof.
  destruct (@multimodal_query Sample.models
              (Sample.store Sample.text_answer Sample.image_answer)
              "cats" 3 Sample.empty_world) as [[resp|e] w'] eqn:Hrun;
    [| vm_compute in Hrun; discriminate].
  exists resp, w'. split; [reflexivity|].
  exact (@query_results_have_unit_scores Sample.models
           (Sample.store Sample.text_answer Sample.image_answer)
           "cats" 3 Sample.text_answer Sample.image_answer
           Sample.empty_world w' resp (sample_answered "cats" 3) Hrun).
Defined.

(** X2. Normalization keeps the order of the scores of a list: a score that is
    not greater than another is not normalized to a greater value. *)
Theorem normalize_scores_keeps_order (scores : list Q) (i j : nat) (si sj : Q) :
  scores !! i = Some si -> scores !! j = Some sj -> (si <= sj)%Q ->
  exists oi oj,
    _normalize_scores scores !! i = Some oi
    /\ _normalize_scores scores !! j = Some oj
    /\ (oi <= oj)%Q.
Proof.
  intros Hi Hj Hle.
  destruct scores as [|first rest]; [discriminate|].
  destruct (py_min_spec first rest) as [Hmin_in Hmin_le].
  destruct (py_max_spec first rest) as [Hmax_in Hmax_le].
  unfold _normalize_scores.
  destruct (isclose (py_max first rest) (py_min first rest)) eqn:Hc;
    change (map ?f ?l) with (f <$> l); rewrite !list_lookup_fmap, Hi, Hj;
    eexists _, _; (split; [reflexivity|]); (split; [reflexivity|]).
  - apply Qle_refl.
  - assert (Hlt : (py_min first rest < py_max first rest)%Q).
    { apply isclose_false_lt; [apply Hmin_le, Hmax_in | exact Hc]. }
    unfold Qdiv. apply Qmult_le_compat_r.
    + unfold Qminus. apply Qplus_le_compat; [exact Hle | apply Qle_refl].
    + apply Qinv_le_0_compat, Qlt_le_weak.
      apply Qlt_minus_iff in Hlt. exact Hlt.
Qed.

Lemma normalize_scores_keeps_order_witness :
  (exists oi oj,
     _normalize_scores [9 # 10; 4 # 10; 6 # 10] !! 1%nat = Some oi
     /\ _normalize_scores [9 # 10; 4 # 10; 6 # 10] !! 2%nat = Some oj
     /\ oi <= oj)%Q.
Proof.
  apply (normalize_scores_keeps_order [9 # 10; 4 # 10; 6 # 10]%Q 1 2
           (4 # 10)%Q (6 # 10)%Q); [reflexivity | reflexivity | discriminate].
Defined.

(** ** What the merge keeps and what it puts first *)

Lemma strongly_sorted_app {A} (R : A -> A -> Prop) (l1 l2 : list A) :
  StronglySorted R (l1 ++ l2) ->
  forall x y, In x l1 -> In y l2 -> R x y.
Proof.
  induction l1 as [|a l1 IH]; intros Hs x y Hx Hy; [destruct Hx|].
  cbn in Hs. inversion Hs as [|? ? Hs' Hall]; subst.
  destruct Hx as [<- | Hx].
  - rewrite List.Forall_forall in Hall. apply Hall, List.in_or_app. now right.
  - now apply IH.
Qed.

(** X3. For a result count that is not negative the merge keeps the best: what
    it returns and what it leaves out are together the candidates, and
    nothing left out has a greater score than anything returned. *)
Theorem merge_top_k_keeps_the_best (merged : list MergedResult) (top_k : Z) :
  (0 <= top_k)%Z ->
  exists left_out,
    Permutation (merge_top_k merged top_k ++ left_out) merged
    /\ forall x y,
         In x (merge_top_k merged top_k) -> In y left_out ->
         (mr_score y <= mr_score x)%Q.
Proof.
  intros Hk. unfold merge_top_k. rewrite slice_to_nonneg by assumption.
  exists (drop (Z.to_nat top_k) (sort_desc mr_score merged)). split.
  - rewrite take_drop. apply sort_desc_perm.
  - apply (strongly_sorted_app (fun a b => (mr_score b <= mr_score a)%Q)).
    rewrite take_drop. apply sort_desc_sorted.
Qed.

Lemma merge_top_k_keeps_the_best_witness :
  exists left_out,
    Permutation
      (merge_top_k [candidate "text" "t1" (9 # 10); candidate "text" "t2" (4 # 10);
                    candidate "image" "i1" (95 # 100); candidate "image" "i2" (5 # 10)]
                   3 ++ left_out)
      [candidate "text" "t1" (9 # 10); candidate "text" "t2" (4 # 10);
       candidate "image" "i1" (95 # 100); candidate "image" "i2" (5 # 10)]
    /\ forall x y,
         In x (merge_top_k
                 [candidate "text" "t1" (9 # 10); candidate "text" "t2" (4 # 10);
                  candidate "image" "i1" (95 # 100); candidate "image" "i2" (5 # 10)]
                 3) ->
         In y left_out -> (mr_score y <= mr_score x)%Q.
Proof. apply merge_top_k_keeps_the_best. lia. Defined.

Lemma sort_desc_head_is_max {A} (key : A -> Q) (l : list A) (h : A) (t : list A) :
  sort_desc key l = h :: t -> forall y, In y l -> (key y <= key h)%Q.
Proof.
  intros Hs y Hy.
  apply (Permutation_in _ (Permutation_sym (sort_desc_perm key l))) in Hy.
  pose proof (sort_desc_sorted key l) as Hsorted. rewrite Hs in Hsorted, Hy.
  inversion Hsorted as [|? ? _ Hall]; subst.
  destruct Hy as [<- | Hy]; [apply Qle_refl|].
  rewrite List.Forall_forall in Hall. now apply Hall.
Qed.

Lemma text_candidates_modality (tr : QueryResult) (c : MergedResult) :
  In c (text_candidates tr) -> mr_modality c = "text".
Proof. intros Hc. now apply List.in_map_iff in Hc as (p & <- & _). Qed.

(** A text answer with a distance for each of its identifiers has a
    candidate normalized to 1. *)
Lemma text_candidates_have_one (tr : QueryResult) (ds : list Q) :
  qr_distances tr = Some ds -> length ds = length (qr_ids tr) ->
  qr_ids tr <> [] ->
  exists c, In c (text_candidates tr) /\ (mr_score c == 1)%Q.
Proof.
  intros Hd Hlen Hne.
  assert (Hraw : raw_scores tr <> []).
  { unfold raw_scores. rewrite Hd. destruct ds; [|discriminate].
    destruct (qr_ids tr); [congruence | discriminate]. }
  destruct (normalize_scores_has_one _ Hraw) as (i & x & Hi & Hx).
  assert (Hlt : (i < length (qr_ids tr))%nat).
  { apply lookup_lt_Some in Hi. rewrite normalize_scores_length in Hi.
    unfold raw_scores in Hi. rewrite Hd, length_map in Hi. lia. }
  destruct (lookup_lt_is_Some_2 (qr_ids tr) i Hlt) as [_id Hid].
  exists (text_entry tr (_normalize_scores (raw_scores tr)) (i, _id)). split.
  - apply List.in_map_iff. exists (i, _id). split; [reflexivity|].
    apply list_elem_of_In. unfold enumerate.
    apply elem_of_lookup_imap. exists i, _id. split; [reflexivity | exact Hid].
  - cbn [text_entry mr_score fst]. unfold score_at. now rewrite Hi.
Qed.

(** X4. When the text collection answers with at least one identifier, and a
    distance for each, the first result of a query for at least one result
    is a text entry, with score 1: the best text entry is normalized to 1,
    no score exceeds 1, and on a tie a text entry comes before an image
    entry. *)
Theorem first_result_is_a_text_entry `{EmbeddingModels, VectorStore}
    (query : string) (top_k : Z) (tr ir : QueryResult) (ds : list Q)
    (w w' : world) (resp : QueryResponse) :
  (0 < top_k)%Z ->
  answered query top_k tr ir ->
  qr_distances tr = Some ds -> length ds = length (qr_ids tr) ->
  qr_ids tr <> [] ->
  multimodal_query query top_k w = (Ok resp, w') ->
  exists first others,
    resp_results resp = first :: others
    /\ mr_modality first = "text"
    /\ (mr_score first == 1)%Q.
Proof.
  intros Hk (te & trows & ce & crows & Hte & Htr & Hce & Hir) Hd Hlen Hne Hrun.
  destruct (multimodal_query_inv _ _ _ _ _ _ _ _ _ _ _ Hte Htr Hce Hir Hrun)
    as [-> _].
  cbn [resp_results]. unfold merge_top_k. rewrite slice_to_nonneg by lia.
  destruct (text_candidates_have_one tr ds Hd Hlen Hne) as (c & Hc & Hc1).
  set (merged := text_candidates tr ++ image_candidates ir).
  destruct (sort_desc mr_score merged) as [|h t] eqn:Hs.
  { exfalso. apply (f_equal length) in Hs. rewrite sort_desc_length in Hs.
    unfold merged in Hs. rewrite length_app in Hs.
    destruct (text_candidates tr); [destruct Hc | cbn in Hs; lia]. }
  assert (Hh1 : (mr_score h == 1)%Q).
  { apply Qle_antisym.
    - apply (candidates_in_unit tr ir).
      apply (Permutation_in _ (sort_desc_perm mr_score merged)).
      rewrite Hs. now left.
    - rewrite <- Hc1. apply (sort_desc_head_is_max _ _ _ _ Hs).
      apply List.in_or_app. now left. }
  pose proof (sort_desc_stable mr_score (mr_score h) merged) as Hstable.
  rewrite Hs in Hstable. unfold merged in Hstable.
  rewrite List.filter_app in Hstable. cbn [List.filter] in Hstable.
  assert (Hhh : Qeq_bool (mr_score h) (mr_score h) = true)
    by (apply Qeq_bool_iff; reflexivity).
  rewrite Hhh in Hstable.
  destruct (List.filter (fun a => Qeq_bool (mr_score a) (mr_score h))
              (text_candidates tr)) as [|f fs] eqn:Hf.
  { exfalso.
    assert (Hin : In c (List.filter (fun a => Qeq_bool (mr_score a) (mr_score h))
                          (text_candidates tr))).
    { apply List.filter_In. split; [exact Hc|].
      apply Qeq_bool_iff. now rewrite Hc1, Hh1. }
    rewrite Hf in Hin. destruct Hin. }
  cbn [app] in Hstable. injection Hstable as Hhf _.
  assert (Hfin : In f (text_candidates tr)).
  { assert (Hin : In f (f :: fs)) by now left.
    rewrite <- Hf in Hin. now apply List.filter_In in Hin as [Hin _]. }
  destruct (Z.to_nat top_k) as [|n] eqn:Hn; [lia|].
  exists h, (take n t). split; [reflexivity|]. split; [|exact Hh1].
  rewrite Hhf. now apply (text_candidates_modality tr).
Qed.

Lemma first_result_is_a_text_entry_witness :
  exists resp w' first others,
    @multimodal_query Sample.models
      (Sample.store Sample.text_answer Sample.image_answer)
      "cats" 3 Sample.empty_world = (Ok resp, w')
    /\ resp_results resp = first :: others
    /\ mr_modality first = "text"
    /\ (mr_score first == 1)%Q.
Proof.
  destruct (@multimodal_query Sample.models
              (Sample.store Sample.text_answer Sample.image_answer)
              "cats" 3 Sample.empty_world) as [[resp|e] w'] eqn:Hrun;
    [| vm_compute in Hrun; discriminate].
  destruct (@first_result_is_a_text_entry Sample.models
              (Sample.store Sample.text_answer Sample.image_answer)
              "cats" 3 Sample.text_answer Sample.image_answer
              [1 # 10; 6 # 10]%Q Sample.empty_world w' resp)
    as (first & others & Hres & Hmod & Hscore);
    [lia | apply sample_answered | reflexivity | reflexivity | discriminate
    | exact Hrun |].
  exists resp, w', first, others. now repeat split.
Defined.

(** ** The fields of a result *)

(** X5. Every result of a query carries the attribution of its own metadata;
    a text result has no OCR text, an image result has no document and has
    the OCR text of its metadata, empty when the metadata has none. *)
Theorem query_results_are_consistent `{EmbeddingModels, VectorStore}
    (query : string) (top_k : Z) (tr ir : QueryResult) (w w' : world)
    (resp : QueryResponse) :
  answered query top_k tr ir ->
  multimodal_query query top_k w = (Ok resp, w') ->
  Forall
    (fun r =>
       mr_source r = _format_source_attribution (mr_metadata r)
       /\ (mr_modality r = "text" /\ mr_ocr_text r = None
           \/ mr_modality r = "image" /\ mr_document r = None
              /\ mr_ocr_text r =
                   Some (default (PStr EmptyString) (mr_metadata r !! "ocr_text"))))
    (resp_results resp).
Proof.
  intros (te & trows & ce & crows & Hte & Htr & Hce & Hir) Hrun.
  destruct (multimodal_query_inv _ _ _ _ _ _ _ _ _ _ _ Hte Htr Hce Hir Hrun)
    as [-> _].
  apply List.Forall_forall. intros r Hr. cbn [resp_results] in Hr.
  apply In_merge_top_k, List.in_app_or in Hr as [Hr | Hr];
    apply List.in_map_iff in Hr as (p & <- & _).
  - split; [reflexivity|]. left. now split.
  - split; [reflexivity|]. right. now repeat split.
Qed.

Lemma query_results_are_consistent_witness :
  exists resp w',
    @multimodal_query Sample.models
      (Sample.store Sample.text_answer Sample.image_answer)
      "cats" 3 Sample.empty_world = (Ok resp, w')
    /\ map mr_source (resp_results resp)
       = ["Source: data/uploads/d.txt | Type: text | Chunk: 0";
          "Source: data/uploads/e.png | Type: image";
          "Source: data/uploads/d.txt | Type: text | Chunk: 1"]
    /\ Forall
         (fun r => mr_source r = _format_source_attribution (mr_metadata r))
         (resp_results resp).
Proof.
  destruct (@multimodal_query Sample.models
              (Sample.store Sample.text_answer Sample.image_answer)
              "cats" 3 Sample.empty_world) as [[resp|e] w'] eqn:Hrun;
    [| vm_compute in Hrun; discriminate].
  exists resp, w'. split; [reflexivity|].
  pose proof (@query_results_are_consistent Sample.models
                (Sample.store Sample.text_answer Sample.image_answer)
                "cats" 3 Sample.text_answer Sample.image_answer
                Sample.empty_world w' resp (sample_answered "cats" 3) Hrun)
    as Hall.
  split.
  - vm_compute in Hrun. injection Hrun as <- _. vm_compute. reflexivity.
  - eapply List.Forall_impl; [|exact Hall]. now intros r [Hsrc _].
Defined.

(** ** What a query touches *)

Lemma read_only_ret {A} (a : A) : read_only (ret a).
Proof. intros w. now repeat split. Qed.

Lemma read_only_raise {A} (e : exn) : read_only (@raise A e).
Proof. intros w. now repeat split. Qed.

Lemma read_only_bind {A B} (m : M A) (k : A -> M B) :
  read_only m -> (forall a, read_only (k a)) -> read_only (bind m k).
Proof.
  intros Hm Hk w. unfold bind. specialize (Hm w).
  destruct (m w) as [[a|e] w1]; cbn [snd] in *; [|exact Hm].
  destruct Hm as (Hf & Hd & Hu). specialize (Hk a w1).
  destruct Hk as (Hf' & Hd' & Hu'). repeat split; congruence.
Qed.

Lemma read_only_index {A} (l : list A) (i : nat) : read_only (index l i).
Proof.
  unfold index. destruct (l !! i); [apply read_only_ret | apply read_only_raise].
Qed.

Lemma read_only_for_each {A B} (f : A -> M B) (l : list A) :
  (forall a, read_only (f a)) -> read_only (for_each f l).
Proof.
  intros Hf. induction l as [|a l IH]; cbn [for_each]; [apply read_only_ret|].
  apply read_only_bind; [apply Hf|]. intros b.
  apply read_only_bind; [exact IH|]. intros bs. apply read_only_ret.
Qed.

Lemma read_only_perform {A} (c : call) (answer : result A) :
  not_upsert c -> read_only (perform c answer).
Proof.
  intros Hc w. unfold perform. cbn [snd files drawn calls].
  repeat split. unfold upserted_ids. rewrite omap_app.
  destruct c; cbn; try now rewrite app_nil_r. destruct Hc.
Qed.

Lemma read_only_metadata_at (r : QueryResult) (i : nat) :
  read_only (metadata_at r i).
Proof.
  unfold metadata_at. destruct (qr_metadatas r);
    [apply read_only_index | apply read_only_ret].
Qed.

(** X6. A query never writes: however it ends, and whatever the collaborators
    answer, the files on disk are as before, no identifier has been drawn
    and nothing has been upserted. *)
Theorem query_is_read_only `{EmbeddingModels, VectorStore}
    (query : string) (top_k : Z) :
  read_only (multimodal_query query top_k).
Proof.
  unfold multimodal_query.
  apply read_only_bind.
  { apply read_only_bind; [now apply read_only_perform|].
    intros embs. apply read_only_index. }
  intros text_emb. apply read_only_bind; [now apply read_only_perform|].
  intros text_results. apply read_only_bind.
  { apply read_only_bind; [now apply read_only_perform|].
    intros embs. apply read_only_index. }
  intros clip_text_emb. apply read_only_bind; [now apply read_only_perform|].
  intros image_results. apply read_only_bind.
  { apply read_only_for_each. intros [i _id].
    apply read_only_bind; [apply read_only_metadata_at|]. intros metadata.
    apply read_only_bind.
    - destruct (qr_documents text_results).
      + apply read_only_bind; [apply read_only_index|].
        intros d. apply read_only_ret.
      + apply read_only_ret.
    - intros document. apply read_only_ret. }
  intros from_text. apply read_only_bind.
  { apply read_only_for_each. intros [i _id].
    apply read_only_bind; [apply read_only_metadata_at|]. intros metadata.
    apply read_only_ret. }
  intros from_images. apply read_only_ret.
Qed.

(** X7. A query that returns has made four calls: it has embedded the query
    with the text model and asked the text collection with the first row of
    that embedding, then embedded it with the CLIP model and asked the
    image collection with the first row of that one, both times for
    [top_k] results. *)
Theorem query_asks_each_collection_in_its_own_space
    `{EmbeddingModels, VectorStore}
    (query : string) (top_k : Z) (tr ir : QueryResult)
    (text_emb clip_emb : vec) (text_rows clip_rows : list vec)
    (w w' : world) (resp : QueryResponse) :
  text_model_encode [query] = Ok (text_emb :: text_rows) ->
  collection_query TEXT_COLLECTION text_emb top_k = Ok tr ->
  clip_model_encode [query] = Ok (clip_emb :: clip_rows) ->
  collection_query IMAGE_COLLECTION clip_emb top_k = Ok ir ->
  multimodal_query query top_k w = (Ok resp, w') ->
  calls w' =
    calls w ++ [CEncodeText [query];
                CQuery TEXT_COLLECTION text_emb top_k;
                CEncodeClipText [query];
                CQuery IMAGE_COLLECTION clip_emb top_k].
Proof.
  intros Hte Htr Hce Hir Hrun.
  destruct (multimodal_query_inv _ _ _ _ _ _ _ _ _ _ _ Hte Htr Hce Hir Hrun)
    as [_ ->].
  reflexivity.
Qed.

Lemma query_asks_each_collection_witness :
  exists resp w',
    @multimodal_query Sample.models
      (Sample.store Sample.text_answer Sample.image_answer)
      "cats" 3 Sample.empty_world = (Ok resp, w')
    /\ calls w' =
         [CEncodeText ["cats"]; CQuery TEXT_COLLECTION [1%Q] 3;
          CEncodeClipText ["cats"]; CQuery IMAGE_COLLECTION [1%Q] 3].
Proof.
  destruct (@multimodal_query Sample.models
              (Sample.store Sample.text_answer Sample.image_answer)
              "cats" 3 Sample.empty_world) as [[resp|e] w'] eqn:Hrun;
    [| vm_compute in Hrun; discriminate].
  exists resp, w'. split; [reflexivity|].
  exact (@query_asks_each_collection_in_its_own_space Sample.models
           (Sample.store Sample.text_answer Sample.image_answer)
           "cats" 3 Sample.text_answer Sample.image_answer
           [1%Q] [1%Q] [] [] Sample.empty_world w' resp
           eq_refl eq_refl eq_refl eq_refl Hrun).
Defined.

(** ** What the attribution reads *)

(** X8. The attribution depends on these five keys alone: setting or removing
    any other key of the metadata, such as [ocr_text], [doc_id] or
    [image_path], leaves it as it is. *)
Theorem attribution_ignores_other_keys (metadata : pydict) (key : string) (v : pyval) :
  ~ In key attribution_keys ->
  _format_source_attribution (<[key := v]> metadata)
    = _format_source_attribution metadata
  /\ _format_source_attribution (delete key metadata)
     = _format_source_attribution metadata.
Proof.
  intros Hkey.
  assert (Hne : forall k, In k attribution_keys -> key <> k)
    by (intros k Hk ->; contradiction).
  assert (H1 := Hne "file_type"). assert (H2 := Hne "source_path").
  assert (H3 := Hne "page"). assert (H4 := Hne "chunk_index").
  assert (H5 := Hne "uploaded_at").
  unfold attribution_keys in *. cbn [In] in *.
  unfold _format_source_attribution, has_key, item.
  split.
  - rewrite !lookup_insert_ne by tauto. reflexivity.
  - rewrite !lookup_delete_ne by tauto. reflexivity.
Qed.

Lemma attribution_ignores_other_keys_witness :
  _format_source_attribution
    (<["ocr_text" := PStr "STOP"]>
       (dict [("file_type", PStr "image"); ("source_path", PStr "data/uploads/e.png")]))
  = _format_source_attribution
      (dict [("file_type", PStr "image"); ("source_path", PStr "data/uploads/e.png")]).
Proof.
  apply attribution_ignores_other_keys.
  unfold attribution_keys. cbn [In].
  intros [H | [H | [H | [H | [H | []]]]]]; discriminate.
Defined.

(** ** The endpoints *)


Lemma endpoint_error_is_http (e : exn) : is_HTTPException (endpoint_error e) = true.
Proof. unfold endpoint_error. now destruct e. Qed.





(** X11. The query endpoint returns what [multimodal_query] returns, raises
    nothing but HTTP errors, and turns an exception of the query that is
    not one into status 500 with the text of the exception. *)
Theorem query_endpoint_answers_or_raises_http
    `{EmbeddingModels, VectorStore, Tesseract, Decoders, Host}
    (payload : QueryRequest) (w : world) :
  (forall resp w',
     multimodal_query (req_query payload) (req_top_k payload) w = (Ok resp, w') ->
     query_documents payload w = (Ok resp, w'))
  /\ (forall e w',
        query_documents payload w = (Raise e, w') -> is_HTTPException e = true)
  /\ (forall msg w',
        multimodal_query (req_query payload) (req_top_k payload) w
          = (Raise (Exception msg), w') ->
        query_documents payload w = (Raise (HTTPException 500 msg), w')).
Proof.
  unfold query_documents, try_except, bind, ret, raise.
  split; [|split].
  - intros resp w' ->. reflexivity.
  - intros e w'.
    destruct (multimodal_query _ _ w) as [[a|e0] w1]; [discriminate|].
    intros [= <- _]. apply endpoint_error_is_http.
  - intros msg w' ->. reflexivity.
Qed.

Lemma query_endpoint_witness :
  @query_documents Sample.models
    {| collection_upsert := fun _ _ _ _ _ => Ok tt;
       collection_query := fun _ _ _ => Raise (Exception "collection is gone") |}
    (query_request "cats" None) Sample.empty_world
  = (Raise (HTTPException 500 "collection is gone"),
     {| files := ∅;
        calls := [CEncodeText ["cats"]; CQuery TEXT_COLLECTION [1%Q] 5];
        drawn := 0 |}).
Proof.
  destruct (@query_endpoint_answers_or_raises_http Sample.models
              {| collection_upsert := fun _ _ _ _ _ => Ok tt;
                 collection_query := fun _ _ _ => Raise (Exception "collection is gone") |}
              Sample.tesseract_missing Sample.decoders Sample.host
              (query_request "cats" None) Sample.empty_world)
    as (_ & _ & Hwraps).
  apply Hwraps. reflexivity.
Defined.

(** ** What an upload leaves on disk *)

Section Preserves.

Context (I : world -> world -> Prop).
Hypothesis I_refl : forall w, I w w.
Hypothesis I_trans : forall w1 w2 w3, I w1 w2 -> I w2 w3 -> I w1 w3.

Lemma preserves_ret {A} (a : A) : preserves I (ret a).
Proof. intros w. apply I_refl. Qed.

Lemma preserves_raise {A} (e : exn) : preserves I (@raise A e).
Proof. intros w. apply I_refl. Qed.

Lemma preserves_lift {A} (answer : result A) : preserves I (lift answer).
Proof. intros w. apply I_refl. Qed.

Lemma preserves_read_file (path : string) : preserves I (read_file path).
Proof. intros w. unfold read_file. destruct (files w !! path); apply I_refl. Qed.

Lemma preserves_index {A} (l : list A) (i : nat) : preserves I (index l i).
Proof.
  unfold index. destruct (l !! i); [apply preserves_ret | apply preserves_raise].
Qed.

Lemma preserves_bind {A B} (m : M A) (k : A -> M B) :
  preserves I m -> (forall a, preserves I (k a)) -> preserves I (bind m k).
Proof.
  intros Hm Hk w. unfold bind. specialize (Hm w).
  destruct (m w) as [[a|e] w1]; cbn [snd] in *; [|exact Hm].
  apply I_trans with w1; [exact Hm | apply Hk].
Qed.

Lemma preserves_try_except {A} (body : M A) (handler : exn -> M A) :
  preserves I body -> (forall e, preserves I (handler e)) ->
  preserves I (try_except body handler).
Proof.
  intros Hb Hh w. unfold try_except. specialize (Hb w).
  destruct (body w) as [[a|e] w1]; cbn [snd] in *; [exact Hb|].
  apply I_trans with w1; [exact Hb | apply Hh].
Qed.

Lemma preserves_for_each {A B} (f : A -> M B) (l : list A) :
  (forall a, preserves I (f a)) -> preserves I (for_each f l).
Proof.
  intros Hf. induction l as [|a l IH]; cbn [for_each]; [apply preserves_ret|].
  apply preserves_bind; [apply Hf|]. intros b.
  apply preserves_bind; [exact IH|]. intros bs. apply preserves_ret.
Qed.

End Preserves.











Section Frames.

Context `{EmbeddingModels, VectorStore, Tesseract, Decoders, Host}.






End Frames.


(** ** The chunks of a text *)

Lemma rstrip_cons (c : ascii) (s t : string) :
  Str.rstrip s = Str.rstrip t ->
  Str.rstrip (String c s) = Str.rstrip (String c t).
Proof. intros Hst. cbn [Str.rstrip]. now rewrite Hst. Qed.

Lemma padded_cons_first (c : ascii) (P Q : list string) :
  padded P Q -> padded (Str.cons_first c P) (Str.cons_first c Q).
Proof.
  intros [l q B Hlq HB | x P' Q' HPQ]; cbn [Str.cons_first].
  - apply padded_last; [now apply rstrip_cons | exact HB].
  - now apply padded_cons.
Qed.

Lemma lstrip_rstrip (s : string) :
  Str.rstrip (Str.lstrip s) = Str.lstrip (Str.rstrip s).
Proof.
  induction s as [|c s IH]; [reflexivity|].
  cbn [Str.lstrip]. destruct (Str.isspace c) eqn:Hc.
  - rewrite IH. cbn [Str.rstrip].
    destruct (Str.rstrip s) as [|d r]; [now rewrite Hc|].
    cbn [Str.lstrip]. now rewrite Hc.
  - cbn [Str.rstrip]. destruct (Str.rstrip s) as [|d r]; rewrite ?Hc;
      cbn [Str.lstrip]; now rewrite Hc.
Qed.

Lemma trimmed_rstrip (l q : string) :
  Str.rstrip l = Str.rstrip q -> trimmed l = trimmed q.
Proof.
  intros Hlq. unfold trimmed, Str.strip. now rewrite !lstrip_rstrip, Hlq.
Qed.

Lemma padded_chunks (P Q : list string) :
  padded P Q -> omap trimmed P = omap trimmed Q.
Proof.
  induction 1 as [l q B Hlq HB | x P Q _ IH]; cbn [omap list_omap].
  - apply omap_trimmed_nil in HB. rewrite HB.
    now rewrite (trimmed_rstrip l q Hlq).
  - now rewrite IH.
Qed.

Lemma split_para_cons (s : string) : exists p ps, split_para s = p :: ps.
Proof.
  induction s as [| c | c d s IHs IHd] using string_pair_ind.
  - now exists EmptyString, [].
  - now exists (String c EmptyString), [].
  - rewrite split_para_pair. destruct (is_LF c && is_LF d).
    + now exists EmptyString, (split_para s).
    + destruct IHd as (p & ps & ->). now exists (String c p), ps.
Qed.

Lemma append_cons (c : ascii) (s t : string) :
  String c s +:+ t = String c (s +:+ t).
Proof. reflexivity. Qed.

Lemma append_empty_l (t : string) : EmptyString +:+ t = t.
Proof. reflexivity. Qed.

(** White space after a text goes to its last piece or to pieces of their
    own. *)
Lemma split_para_padded (ws : string) :
  blank ws = true ->
  forall t, padded (split_para t) (split_para (t +:+ ws)).
Proof.
  intros Hws.
  assert (Hall : Forall (fun p => blank p = true) (split_para ws))
    by now apply Forall_blank_split_para.
  induction t as [| c | c d t IHt IHd] using string_pair_ind.
  - rewrite append_empty_l.
    destruct (split_para ws) as [|p ps] eqn:Hs.
    { destruct (split_para_cons ws) as (p & ps & Hp). congruence. }
    inversion Hall as [|? ? Hp Hps]; subst.
    cbn [split_para]. apply padded_last; [|exact Hps].
    apply rstrip_empty_iff in Hp. now rewrite Hp.
  - rewrite append_cons, append_empty_l.
    destruct ws as [|d ws'].
    + cbn [split_para Str.cons_first]. apply padded_last; [reflexivity | constructor].
    + rewrite split_para_pair.
      destruct (is_LF c && is_LF d) eqn:Hcd.
      * apply andb_prop in Hcd as [Hc _]. apply is_LF_eq in Hc as ->.
        cbn [split_para Str.cons_first]. apply padded_last; [reflexivity|].
        cbn [blank] in Hws. apply andb_prop in Hws as [_ Hws'].
        now apply Forall_blank_split_para.
      * destruct (split_para_cons (String d ws')) as (p & ps & Hsplit).
        rewrite Hsplit in *.
        inversion Hall as [|? ? Hp Hps]; subst.
        cbn [split_para Str.cons_first]. apply padded_last; [|exact Hps].
        apply rstrip_cons. apply rstrip_empty_iff in Hp. now rewrite Hp.
  - rewrite !append_cons, !split_para_pair.
    destruct (is_LF c && is_LF d).
    + apply padded_cons. exact IHt.
    + apply padded_cons_first. rewrite <- append_cons. exact IHd.
Qed.

Lemma rstrip_decompose (s : string) :
  exists ws, blank ws = true /\ s = Str.rstrip s +:+ ws.
Proof.
  induction s as [|c s (ws & Hws & Hs)]; [now exists EmptyString|].
  cbn [Str.rstrip]. destruct (Str.rstrip s) as [|d r] eqn:Hr.
  - rewrite append_empty_l in Hs. subst ws.
    destruct (Str.isspace c) eqn:Hc.
    + exists (String c s). split; [|reflexivity]. cbn [blank]. now rewrite Hc, Hws.
    + exists s. split; [exact Hws | reflexivity].
  - exists ws. split; [exact Hws|]. rewrite append_cons. now rewrite <- Hs.
Qed.

Lemma chunk_paragraphs_space (c : ascii) (s : string) :
  Str.isspace c = true ->
  chunk_paragraphs (String c s) = chunk_paragraphs s.
Proof.
  intros Hc. rewrite !chunk_paragraphs_split_para.
  destruct (is_LF c) eqn:Hlf.
  - apply is_LF_eq in Hlf as ->. apply split_para_leading_LF.
  - destruct s as [|d s].
    + cbn [split_para Str.cons_first omap list_omap]. now rewrite trimmed_space.
    + rewrite split_para_pair, Hlf. cbn [andb].
      destruct (split_para_cons (String d s)) as (p & ps & ->).
      cbn [Str.cons_first omap list_omap]. now rewrite trimmed_space.
Qed.

Lemma chunk_paragraphs_before (pre text : string) :
  blank pre = true ->
  chunk_paragraphs (pre +:+ text) = chunk_paragraphs text.
Proof.
  induction pre as [|c pre IH]; intros Hb; [reflexivity|].
  cbn [blank] in Hb. apply andb_prop in Hb as [Hc Hb].
  rewrite append_cons, chunk_paragraphs_space by exact Hc. now apply IH.
Qed.

Lemma chunk_paragraphs_after (text post : string) :
  blank post = true ->
  chunk_paragraphs (text +:+ post) = chunk_paragraphs text.
Proof.
  intros Hb. rewrite !chunk_paragraphs_split_para. symmetry.
  now apply padded_chunks, split_para_padded.
Qed.

Lemma chunk_paragraphs_lstrip (s : string) :
  chunk_paragraphs (Str.lstrip s) = chunk_paragraphs s.
Proof.
  induction s as [|c s IH]; [reflexivity|].
  cbn [Str.lstrip]. destruct (Str.isspace c) eqn:Hc; [|reflexivity].
  now rewrite chunk_paragraphs_space.
Qed.

Lemma chunk_paragraphs_rstrip (s : string) :
  chunk_paragraphs (Str.rstrip s) = chunk_paragraphs s.
Proof.
  destruct (rstrip_decompose s) as (ws & Hws & Hs).
  rewrite Hs at 2. now rewrite chunk_paragraphs_after.
Qed.

(** X13. White space around a text never changes its chunks: none put before
    it or after it does, and stripping the text first, as [_ingest_text]
    and [extract_pdf_text_per_page] do, gives the same chunks. *)
Theorem chunks_ignore_surrounding_white_space (pre text post : string) :
  blank pre = true -> blank post = true ->
  chunk_paragraphs (pre +:+ text +:+ post) = chunk_paragraphs text
  /\ chunk_paragraphs (Str.strip text) = chunk_paragraphs text.
Proof.
  intros Hpre Hpost. split.
  - now rewrite chunk_paragraphs_before, chunk_paragraphs_after.
  - unfold Str.strip. now rewrite chunk_paragraphs_rstrip, chunk_paragraphs_lstrip.
Qed.

Lemma chunks_ignore_surrounding_white_space_witness :
  chunk_paragraphs
    (String Str.LF (String Str.LF (String " " EmptyString))
     +:+ String "A" (String Str.LF (String Str.LF (String "B" EmptyString)))
     +:+ String Str.LF (String Str.LF (String Str.LF EmptyString)))
  = chunk_paragraphs (String "A" (String Str.LF (String Str.LF (String "B" EmptyString)))).
Proof.
  apply (chunks_ignore_surrounding_white_space
           (String Str.LF (String Str.LF (String " " EmptyString)))
           (String "A" (String Str.LF (String Str.LF (String "B" EmptyString))))
           (String Str.LF (String Str.LF (String Str.LF EmptyString))));
    reflexivity.
Defined.

Lemma lstrip_idem (s : string) : Str.lstrip (Str.lstrip s) = Str.lstrip s.
Proof.
  induction s as [|c s IH]; [reflexivity|].
  cbn [Str.lstrip]. destruct (Str.isspace c) eqn:Hc; [exact IH|].
  cbn [Str.lstrip]. now rewrite Hc.
Qed.

Lemma rstrip_idem (s : string) : Str.rstrip (Str.rstrip s) = Str.rstrip s.
Proof.
  induction s as [|c s IH]; [reflexivity|].
  cbn [Str.rstrip]. destruct (Str.rstrip s) as [|d r] eqn:Hr.
  - destruct (Str.isspace c) eqn:Hc; [reflexivity|].
    cbn [Str.rstrip]. now rewrite Hc.
  - change (Str.rstrip (String c (String d r)))
      with (match Str.rstrip (String d r) with
            | EmptyString =>
                if Str.isspace c then EmptyString else String c EmptyString
            | r' => String c r'
            end).
    now rewrite IH.
Qed.

(** Stripping a stripped string changes nothing. *)
Lemma strip_idem (s : string) : Str.strip (Str.strip s) = Str.strip s.
Proof.
  unfold Str.strip.
  now rewrite <- lstrip_rstrip, rstrip_idem, lstrip_idem.
Qed.

Lemma has_blank_line_tail (c : ascii) (s : string) :
  has_blank_line (String c s) = false -> has_blank_line s = false.
Proof.
  destruct s as [|d s]; [reflexivity|].
  change (has_blank_line (String c (String d s)))
    with (is_LF c && is_LF d || has_blank_line (String d s)).
  intros Hb. now apply orb_false_elim in Hb.
Qed.

Lemma has_blank_line_lstrip (s : string) :
  has_blank_line s = false -> has_blank_line (Str.lstrip s) = false.
Proof.
  induction s as [|c s IH]; [reflexivity|]. intros Hb.
  cbn [Str.lstrip]. destruct (Str.isspace c); [|exact Hb].
  apply IH. now apply has_blank_line_tail in Hb.
Qed.

Lemma rstrip_head (s r : string) (d : ascii) :
  Str.rstrip s = String d r -> exists t, s = String d t.
Proof.
  destruct s as [|c s]; [discriminate|]. cbn [Str.rstrip].
  destruct (Str.rstrip s); [destruct (Str.isspace c)|];
    intros [= <- _] || discriminate; now eexists.
Qed.

Lemma has_blank_line_rstrip (s : string) :
  has_blank_line s = false -> has_blank_line (Str.rstrip s) = false.
Proof.
  induction s as [|c s IH]; [reflexivity|]. intros Hb.
  cbn [Str.rstrip]. destruct (Str.rstrip s) as [|d r] eqn:Hr.
  - now destruct (Str.isspace c).
  - destruct (rstrip_head s r d Hr) as [t ->].
    change (has_blank_line (String c (String d r)))
      with (is_LF c && is_LF d || has_blank_line (String d r)).
    change (has_blank_line (String c (String d t)))
      with (is_LF c && is_LF d || has_blank_line (String d t)) in Hb.
    apply orb_false_elim in Hb as [Hcd Hb]. rewrite Hcd. cbn [orb].
    now apply IH.
Qed.

(** The first piece of a text is empty or begins as the text does. *)
Lemma split_para_first (s p : string) (ps : list string) :
  split_para s = p :: ps ->
  p = EmptyString \/ exists c t t', s = String c t /\ p = String c t'.
Proof.
  destruct s as [|c [|d s]].
  - intros [= <- _]. now left.
  - intros [= <- _]. right. now exists c, EmptyString, EmptyString.
  - rewrite split_para_pair. destruct (is_LF c && is_LF d).
    + intros [= <- _]. now left.
    + destruct (split_para_cons (String d s)) as (p' & ps' & ->).
      intros [= <- _]. right. now exists c, (String d s), p'.
Qed.

(** No piece has a line without any character. *)
Lemma split_para_pieces_no_blank_line (s : string) :
  Forall (fun p => has_blank_line p = false) (split_para s).
Proof.
  induction s as [| c | c d s IHs IHd] using string_pair_ind.
  - now repeat constructor.
  - now repeat constructor.
  - rewrite split_para_pair. destruct (is_LF c && is_LF d) eqn:Hcd.
    + now constructor.
    + destruct (split_para (String d s)) as [|p ps] eqn:Hs.
      { destruct (split_para_cons (String d s)) as (p & ps & Hp). congruence. }
      inversion IHd as [|? ? Hp Hps]; subst.
      cbn [Str.cons_first]. constructor; [|exact Hps].
      destruct (split_para_first _ _ _ Hs) as [-> | (c' & t & t' & [= <- <-] & ->)];
        [reflexivity|].
      change (has_blank_line (String c (String d t')))
        with (is_LF c && is_LF d || has_blank_line (String d t')).
      now rewrite Hcd, Hp.
Qed.

(** X14. Every chunk, of any text, has a character, has no white space at
    either end and holds no line without any character: stripping it
    changes nothing and chunking it again gives the chunk itself. *)
Theorem chunks_are_trimmed_paragraphs (text chunk : string) :
  In chunk (chunk_paragraphs text) ->
  Str.nonempty chunk = true
  /\ Str.strip chunk = chunk
  /\ has_blank_line chunk = false
  /\ chunk_paragraphs chunk = [chunk].
Proof.
  rewrite chunk_paragraphs_split_para. intros Hin.
  apply list_elem_of_In, list_elem_of_omap in Hin as (p & Hp & Ht).
  unfold trimmed in Ht.
  destruct (Str.nonempty (Str.strip p)) eqn:Hne; [|discriminate].
  injection Ht as <-.
  assert (Hblank : has_blank_line (Str.strip p) = false).
  { unfold Str.strip. apply has_blank_line_rstrip, has_blank_line_lstrip.
    pose proof (split_para_pieces_no_blank_line text) as Hall.
    rewrite Forall_forall in Hall. apply Hall. exact Hp. }
  split; [exact Hne|]. split; [apply strip_idem|]. split; [exact Hblank|].
  rewrite chunk_paragraphs_split_para, split_para_no_blank_line by exact Hblank.
  cbn [omap list_omap]. unfold trimmed. now rewrite strip_idem, Hne.
Qed.

Lemma chunks_are_trimmed_paragraphs_witness :
  Str.strip (String "B" (String Str.LF (String "C" EmptyString)))
  = String "B" (String Str.LF (String "C" EmptyString)).
Proof.
  apply (chunks_are_trimmed_paragraphs
           (String " " (String "A" (String Str.LF (String Str.LF (String Str.LF
              (String "B" (String Str.LF (String "C" (String " " EmptyString)))))))))
           (String "B" (String Str.LF (String "C" EmptyString)))).
  vm_compute. right. left. reflexivity.
Defined.

(** ** What an ingestion hands to the store *)

Lemma upserted_app (cs cs' : list call) :
  upserted (cs ++ cs') = upserted cs ++ upserted cs'.
Proof. apply omap_app. Qed.

Lemma of_Z_inj (a b : Z) : Str.of_Z a = Str.of_Z b -> a = b.
Proof.
  unfold Str.of_Z. intros Hab.
  apply (f_equal NilEmpty.int_of_string) in Hab.
  rewrite !NilEmpty.isi in Hab. injection Hab as Hab.
  now apply DecimalZ.to_int_inj.
Qed.

Lemma of_nat_inj (a b : nat) : Str.of_nat a = Str.of_nat b -> a = b.
Proof. unfold Str.of_nat. intros Hab. apply of_Z_inj in Hab. lia. Qed.

Lemma append_inj_r (s a b : string) : s +:+ a = s +:+ b -> a = b.
Proof.
  induction s as [|c s IH]; [trivial|].
  change (String c (s +:+ a) = String c (s +:+ b) -> a = b).
  intros [= Hab]. now apply IH.
Qed.

Lemma text_chunk_id_inj `{Host} (doc_id : string) (i j : nat) :
  text_chunk_id doc_id i = text_chunk_id doc_id j -> i = j.
Proof.
  unfold text_chunk_id. intros Hij.
  do 3 apply append_inj_r in Hij. now apply of_nat_inj.
Qed.

Lemma NoDup_map_inj {A B} (f : A -> B) (l : list A) :
  (forall a b, f a = f b -> a = b) -> NoDup l -> NoDup (map f l).
Proof.
  intros Hf. induction 1 as [|a l Ha Hl IH]; cbn [map]; constructor; [|exact IH].
  intros Hin. apply Ha. apply list_elem_of_In, in_map_iff in Hin as (b & Hb & Hin).
  apply Hf in Hb as <-. now apply list_elem_of_In.
Qed.

Lemma chunk_paragraphs_strip (text : string) :
  chunk_paragraphs (Str.strip text) = chunk_paragraphs text.
Proof.
  unfold Str.strip. now rewrite chunk_paragraphs_rstrip, chunk_paragraphs_lstrip.
Qed.

(** X15. A text ingestion that returns has handed the store one batch, in the
    text collection: the chunks of the file as documents, at least one,
    with as many metadatas and as many identifiers, no two of these the
    same; and it reports that number of chunks. *)
Theorem text_ingestion_upserts_one_batch
    `{EmbeddingModels, VectorStore, Host}
    (path : string) (w w' : world) (r : pydict) :
  _ingest_text path w = (Ok r, w') ->
  exists content ids metadatas,
    files w !! path = Some content
    /\ upserted (calls w') =
         upserted (calls w)
         ++ [(TEXT_COLLECTION, ids, metadatas, Some (chunk_paragraphs content))]
    /\ (0 < length (chunk_paragraphs content))%nat
    /\ length ids = length (chunk_paragraphs content)
    /\ length metadatas = length (chunk_paragraphs content)
    /\ NoDup ids
    /\ r !! "ingested_chunks" = Some (PLen (length (chunk_paragraphs content))).
Proof.
  intros Hrun. apply _ingest_text_inv in Hrun
    as (content & emb & Hf & Hb & _ & -> & ->).
  rewrite chunk_paragraphs_strip.
  exists content. eexists. eexists. split; [exact Hf|]. split.
  { unfold after. cbn [calls]. rewrite upserted_app. reflexivity. }
  split.
  { destruct (chunk_paragraphs content) eqn:Hc; [|cbn; lia].
    apply chunk_paragraphs_nil_iff in Hc. congruence. }
  split; [now rewrite length_map, length_seq|].
  split; [now rewrite length_map, length_seq|].
  split; [|reflexivity].
  apply NoDup_map_inj; [apply text_chunk_id_inj | apply NoDup_seq].
Qed.

Lemma text_ingestion_upserts_one_batch_witness :
  exists (r : pydict) (w' : world),
    @_ingest_text Sample.models (Sample.store Sample.no_answer Sample.no_answer)
      Sample.host "data/uploads/two.txt"
      (Sample.world_with "data/uploads/two.txt"
         (String "A" (String Str.LF (String Str.LF (String "B" EmptyString)))))
    = (Ok r, w')
    /\ map batch_shape (upserted (calls w')) = [(TEXT_COLLECTION, 2, 2, Some 2)]%nat.
Proof.
  destruct (@_ingest_text Sample.models
              (Sample.store Sample.no_answer Sample.no_answer) Sample.host
              "data/uploads/two.txt"
              (Sample.world_with "data/uploads/two.txt"
                 (String "A" (String Str.LF (String Str.LF (String "B" EmptyString))))))
    as [[r|e] w'] eqn:Hrun; [| vm_compute in Hrun; discriminate].
  exists r, w'. split; [reflexivity|].
  destruct (@text_ingestion_upserts_one_batch Sample.models
              (Sample.store Sample.no_answer Sample.no_answer) Sample.host
              "data/uploads/two.txt"
              (Sample.world_with "data/uploads/two.txt"
                 (String "A" (String Str.LF (String Str.LF (String "B" EmptyString)))))
              w' r Hrun)
    as (content & ids & metadatas & Hf & Hup & _ & Hids & Hmetas & _ & _).
  vm_compute in Hf. injection Hf as <-.
  rewrite Hup. cbn [map app batch_shape upserted omap list_omap Sample.world_with calls].
  rewrite Hids, Hmetas. reflexivity.
Defined.

Lemma enumerate_snd {A} (start : nat) (l : list A) :
  map snd (enumerate start l) = l.
Proof.
  unfold enumerate. change (map snd (imap ?f l)) with (snd <$> imap f l).
  rewrite fmap_imap.
  rewrite (imap_ext _ (const id)) by reflexivity.
  rewrite imap_const. apply list_fmap_id.
Qed.

Section PdfBatches.

Context `{EmbeddingModels, VectorStore, Tesseract, Decoders, Host}.

Lemma pdf_page_chunks_units (doc_id path : string) (page : nat * string) :
  pdf_page_chunks doc_id path utcnow_isoformat page
  = map (fun p => (p.2, pdf_text_metadata doc_id path page.1 p.1))
        (enumerate 0 (chunk_paragraphs page.2)).
Proof.
  destruct page as [page_num page_text]. unfold pdf_page_chunks. cbn [fst snd].
  destruct (Str.nonempty page_text) eqn:Hne.
  - apply map_ext. now intros [idx chunk].
  - apply nonempty_false in Hne as ->. reflexivity.
Qed.

Lemma pdf_text_units_chunks (doc_id path : string) (pages : list (nat * string)) :
  map fst (flat_map (pdf_page_chunks doc_id path utcnow_isoformat) pages)
  = pdf_chunks pages.
Proof.
  unfold pdf_chunks.
  induction pages as [|page pages IH]; [reflexivity|].
  cbn [flat_map]. rewrite map_app, IH, pdf_page_chunks_units, map_map.
  cbn [fst]. change (map (fun x : nat * string => x.2) ?l) with (map snd l).
  now rewrite enumerate_snd.
Qed.

Lemma pdf_text_units_metadatas (doc_id path : string) (pages : list (nat * string)) :
  map snd (flat_map (pdf_page_chunks doc_id path utcnow_isoformat) pages)
  = pdf_text_metadatas doc_id path pages.
Proof.
  unfold pdf_text_metadatas.
  induction pages as [|page pages IH]; [reflexivity|].
  cbn [flat_map]. rewrite map_app, IH, pdf_page_chunks_units, map_map.
  cbn [snd]. now rewrite <- enumerate_fst, map_map.
Qed.

Lemma same_upserted_refl (w : world) : same_upserted w w.
Proof. reflexivity. Qed.

Lemma same_upserted_trans (w1 w2 w3 : world) :
  same_upserted w1 w2 -> same_upserted w2 w3 -> same_upserted w1 w3.
Proof. unfold same_upserted. congruence. Qed.

Lemma pdf_page_image_unit (doc_id path : string) (rec : nat * string)
    (w w' : world) (u : vec * string * pydict) :
  pdf_page_image doc_id path utcnow_isoformat rec w = (Ok u, w') ->
  (u.1.2 = pdf_image_id doc_id rec.1 rec.2
   /\ exists ocr_text,
        u.2 = pdf_image_metadata doc_id path rec.1 rec.2 ocr_text)
  /\ same_upserted w w'.
Proof.
  destruct rec as [page img_path].
  unfold pdf_page_image, bind, read_file, lift.
  destruct (files w !! img_path) as [content|]; [|discriminate].
  destruct (image_open content) as [img|e]; [|discriminate].
  rewrite ocr_image_run. unfold embed_image, perform.
  destruct (clip_model_encode_image img) as [emb|e]; [|discriminate].
  unfold index. destruct (emb !! 0%nat) as [row|]; [|discriminate].
  unfold ret. intros [= <- <-]. split.
  - split; [reflexivity|]. now exists (ocr_outcome img).
  - unfold same_upserted, after. cbn [calls].
    rewrite !upserted_app. cbn. now rewrite !app_nil_r.
Qed.

Lemma extract_pdf_images_calls (path output_dir : string) (w w' : world)
    (records : list (nat * string)) :
  extract_pdf_images path output_dir w = (Ok records, w') -> calls w' = calls w.
Proof.
  intros Hrun. now apply extract_pdf_images_inv in Hrun as (_ & _ & _ & _ & _ & Hc).
Qed.

(** A PDF ingestion that returns: what it returns and the batches it has
    handed to the store. *)
Lemma _ingest_pdf_batches (path : string) (w w' : world) (r : pydict) :
  _ingest_pdf path w = (Ok r, w') ->
  exists content texts rendered image_metadatas,
    files w !! path = Some content
    /\ pdf_page_texts content = Ok texts
    /\ pdf_render_pages content = Ok rendered
    /\ Forall2 (fun rec m =>
                  exists ocr_text,
                    m = pdf_image_metadata (uuid4 (drawn w)) path rec.1 rec.2 ocr_text)
               (page_records (extract_dir path) rendered) image_metadatas
    /\ r = dict [("status", PStr "ok");
                 ("doc_id", PStr (uuid4 (drawn w)));
                 ("text_chunks", PLen (length (pdf_chunks (numbered_pages texts))));
                 ("embedded_images", PLen (length rendered))]
    /\ upserted (calls w') =
         upserted (calls w)
         ++ batch_of TEXT_COLLECTION
              (pdf_text_ids (uuid4 (drawn w)) (numbered_pages texts))
              (pdf_text_metadatas (uuid4 (drawn w)) path (numbered_pages texts))
              (Some (pdf_chunks (numbered_pages texts)))
         ++ batch_of IMAGE_COLLECTION
              (pdf_image_ids (uuid4 (drawn w))
                 (page_records (extract_dir path) rendered))
              image_metadatas None.
Proof.
  unfold _ingest_pdf, bind at 1, fresh_uuid, try_except.
  set (doc_id := uuid4 (drawn w)).
  set (w1 := {| files := files w; calls := calls w; drawn := S (drawn w) |}).
  unfold bind at 1.
  destruct (extract_pdf_text_per_page path w1) as [[pages|e] w2] eqn:Ep;
    [|discriminate].
  apply extract_pdf_text_per_page_inv in Ep
    as (content & texts & Hf & Ht & -> & ->).
  unfold bind at 1. fold (extract_dir path).
  destruct (extract_pdf_images path (extract_dir path) w1)
    as [[records|e] w3] eqn:Ei; [|discriminate].
  apply extract_pdf_images_inv in Ei
    as (content' & rendered & Hf' & Hr & -> & Hc3).
  rewrite Hf in Hf'. injection Hf' as <-.
  unfold bind at 1.
  destruct (for_each _ _ w3) as [[units|e] w4] eqn:Eu; [|discriminate].
  apply (for_each_inv _
           (fun rec u =>
              u.1.2 = pdf_image_id doc_id rec.1 rec.2
              /\ exists ocr_text,
                   u.2 = pdf_image_metadata doc_id path rec.1 rec.2 ocr_text)
           same_upserted same_upserted_refl same_upserted_trans) in Eu;
    [| intros a wa b wb; apply pdf_page_image_unit].
  destruct Eu as [Hunits Hc4].
  assert (Hids : map (fun u => u.1.2) units
                 = pdf_image_ids doc_id (page_records (extract_dir path) rendered)).
  { unfold pdf_image_ids.
    rewrite (Forall2_map_eq (fun u => u.1.2)
               (fun rec => pdf_image_id doc_id rec.1 rec.2)
               (page_records (extract_dir path) rendered) units).
    - apply map_ext. now intros [page img_path].
    - eapply Forall2_impl; [exact Hunits|]. now intros rec u [Hid _]. }
  assert (Hmetas : Forall2 (fun rec m =>
                      exists ocr_text,
                        m = pdf_image_metadata doc_id path rec.1 rec.2 ocr_text)
                     (page_records (extract_dir path) rendered) (map snd units)).
  { clear -Hunits. induction Hunits as [|rec u l us [_ Hu] _ IH]; cbn [map];
      constructor; assumption. }
  assert (Hlen : length units = length rendered).
  { apply Forall2_length in Hunits. rewrite <- Hunits.
    unfold page_records. now rewrite length_map, enumerate_length. }
  intros Hrun. exists content, texts, rendered, (map snd units).
  split; [exact Hf|]. split; [exact Ht|]. split; [exact Hr|].
  split; [exact Hmetas|].
  rewrite <- Hids.
  rewrite <- (pdf_text_units_ids doc_id path utcnow_isoformat).
  rewrite <- (pdf_text_units_metadatas doc_id path).
  rewrite <- (pdf_text_units_chunks doc_id path).
  rewrite <- Hlen.
  set (text_units := flat_map (pdf_page_chunks doc_id path utcnow_isoformat)
                              (numbered_pages texts)) in *.
  assert (H4 : upserted (calls w4) = upserted (calls w)).
  { unfold same_upserted in Hc4. rewrite Hc4, Hc3. reflexivity. }
  revert Hrun. unfold bind, embed_text, upsert_text, upsert_images, perform, ret.
  destruct text_units as [|tu text_units]; cbn [map].
  - destruct units as [|u units]; cbn [map].
    + intros [= <- <-]. split; [reflexivity|]. rewrite H4. cbn. now rewrite app_nil_r.
    + destruct (collection_upsert _ _ _ _ _) as [[]|e]; [|discriminate].
      intros [= <- <-]. split; [cbn [length]; rewrite ?length_map; reflexivity|].
      cbn [calls]. rewrite upserted_app, H4. reflexivity.
  - destruct (text_model_encode _) as [emb|e]; [|discriminate].
    destruct (collection_upsert TEXT_COLLECTION _ _ _ _) as [[]|e]; [|discriminate].
    destruct units as [|u units]; cbn [map].
    + intros [= <- <-]. split; [cbn [length]; rewrite ?length_map; reflexivity|].
      cbn [calls]. rewrite !upserted_app, H4. cbn.
      rewrite ?app_nil_r, <- ?app_assoc. reflexivity.
    + destruct (collection_upsert IMAGE_COLLECTION _ _ _ _) as [[]|e]; [|discriminate].
      intros [= <- <-]. split; [cbn [length]; rewrite ?length_map; reflexivity|].
      cbn [calls]. rewrite !upserted_app, H4. cbn.
      rewrite ?app_nil_r, <- ?app_assoc. reflexivity.
Qed.

End PdfBatches.

Lemma pdf_chunks_length_ids `{Host} (doc_id : string) (pages : list (nat * string)) :
  length (pdf_text_ids doc_id pages) = length (pdf_chunks pages).
Proof.
  unfold pdf_text_ids, pdf_chunks.
  induction pages as [|[page_num page_text] pages IH]; [reflexivity|].
  cbn [flat_map fst snd]. now rewrite !length_app, IH, length_map, length_seq.
Qed.

Lemma pdf_chunks_length_metadatas `{Host} (doc_id path : string)
    (pages : list (nat * string)) :
  length (pdf_text_metadatas doc_id path pages) = length (pdf_chunks pages).
Proof.
  unfold pdf_text_metadatas, pdf_chunks.
  induction pages as [|[page_num page_text] pages IH]; [reflexivity|].
  cbn [flat_map fst snd]. now rewrite !length_app, IH, length_map, length_seq.
Qed.

Lemma batch_of_shape (collection : string) (ids : list string)
    (metadatas : list pydict) (documents : option (list string)) (n : nat)
    (with_documents : bool) :
  length ids = n -> length metadatas = n ->
  length <$> documents = (if with_documents then Some n else None) ->
  map batch_shape (batch_of collection ids metadatas documents)
  = shape_of collection n with_documents.
Proof.
  intros <- Hm Hd. destruct ids as [|i ids]; [reflexivity|].
  cbn [batch_of map batch_shape shape_of length] in *. now rewrite Hm, Hd.
Qed.

(** X16. A PDF ingestion that returns reports what it has handed to the store:
    [text_chunks] is the number of chunks of the pages, upserted as one
    batch of the text collection with as many identifiers, metadatas and
    documents; [embedded_images] is the number of pages rendered, one image
    per page whatever the page holds, upserted as one batch of the image
    collection without documents. A batch is never empty: with no chunk,
    or no page, there is no upsert. *)
Theorem pdf_ingestion_reports_its_batches
    `{EmbeddingModels, VectorStore, Tesseract, Decoders, Host}
    (path : string) (w w' : world) (r : pydict) :
  _ingest_pdf path w = (Ok r, w') ->
  exists content texts rendered,
    files w !! path = Some content
    /\ pdf_page_texts content = Ok texts
    /\ pdf_render_pages content = Ok rendered
    /\ r !! "text_chunks"
       = Some (PLen (length (pdf_chunks (numbered_pages texts))))
    /\ r !! "embedded_images" = Some (PLen (length rendered))
    /\ map batch_shape (upserted (calls w'))
       = map batch_shape (upserted (calls w))
         ++ shape_of TEXT_COLLECTION (length (pdf_chunks (numbered_pages texts))) true
         ++ shape_of IMAGE_COLLECTION (length rendered) false.
Proof.
  intros Hrun. apply _ingest_pdf_batches in Hrun
    as (content & texts & rendered & image_metadatas
        & Hf & Ht & Hr & Hmetas & -> & Hup).
  exists content, texts, rendered.
  split; [exact Hf|]. split; [exact Ht|]. split; [exact Hr|].
  split; [reflexivity|]. split; [reflexivity|].
  assert (Hlen : length (page_records (extract_dir path) rendered) = length rendered).
  { unfold page_records. now rewrite length_map, enumerate_length. }
  rewrite Hup, !map_app. f_equal. f_equal.
  - apply batch_of_shape.
    + apply pdf_chunks_length_ids.
    + apply pdf_chunks_length_metadatas.
    + reflexivity.
  - apply batch_of_shape.
    + unfold pdf_image_ids. now rewrite length_map.
    + apply Forall2_length in Hmetas. congruence.
    + reflexivity.
Qed.

Lemma pdf_ingestion_reports_its_batches_witness :
  exists (r : pydict) (w' : world),
    @_ingest_pdf Sample.models (Sample.store Sample.no_answer Sample.no_answer)
      Sample.tesseract_missing Sample.decoders Sample.host
      "data/uploads/scan.pdf"
      (Sample.world_with "data/uploads/scan.pdf"
         (String "x" (String Str.LF (String " " EmptyString))))
    = (Ok r, w')
    /\ r !! "text_chunks" = Some (PInt 1)
    /\ r !! "embedded_images" = Some (PInt 2)
    /\ map batch_shape (upserted (calls w'))
       = [(TEXT_COLLECTION, 1, 1, Some 1); (IMAGE_COLLECTION, 2, 2, None)]%nat.
Proof.
  destruct (@_ingest_pdf Sample.models
              (Sample.store Sample.no_answer Sample.no_answer)
              Sample.tesseract_missing Sample.decoders Sample.host
              "data/uploads/scan.pdf"
              (Sample.world_with "data/uploads/scan.pdf"
                 (String "x" (String Str.LF (String " " EmptyString)))))
    as [[r|e] w'] eqn:Hrun; [| vm_compute in Hrun; discriminate].
  exists r, w'. split; [reflexivity|].
  destruct (@pdf_ingestion_reports_its_batches Sample.models
              (Sample.store Sample.no_answer Sample.no_answer)
              Sample.tesseract_missing Sample.decoders Sample.host
              "data/uploads/scan.pdf"
              (Sample.world_with "data/uploads/scan.pdf"
                 (String "x" (String Str.LF (String " " EmptyString))))
              w' r Hrun)
    as (content & texts & rendered & Hf & Ht & Hr & Hn & Hm & Hshape).
  vm_compute in Hf. injection Hf as <-.
  vm_compute in Ht. injection Ht as <-.
  vm_compute in Hr. injection Hr as <-.
  split; [exact Hn|]. split; [exact Hm|]. exact Hshape.
Defined.

Section Attribution.

Context `{Host}.

Lemma attribution_text_metadata (doc_id path : string) (i : nat) :
  _format_source_attribution (text_metadata doc_id path i)
  = attribution path "text" None (Some i).
Proof. reflexivity. Qed.

Lemma attribution_image_metadata (doc_id path ocr_text : string) :
  _format_source_attribution (image_metadata doc_id path ocr_text)
  = attribution path "image" None None.
Proof. reflexivity. Qed.

Lemma attribution_pdf_text_metadata (doc_id path : string) (page idx : nat) :
  _format_source_attribution (pdf_text_metadata doc_id path page idx)
  = attribution path "pdf_text" (Some page) (Some idx).
Proof. reflexivity. Qed.

Lemma attribution_pdf_image_metadata (doc_id path : string) (page : nat)
    (img_path ocr_text : string) :
  _format_source_attribution (pdf_image_metadata doc_id path page img_path ocr_text)
  = attribution path "pdf_image" (Some page) None.
Proof. reflexivity. Qed.

End Attribution.

Lemma in_pdf_text_metadatas `{Host} (doc_id path : string)
    (pages : list (nat * string)) (m : pydict) :
  In m (pdf_text_metadatas doc_id path pages) ->
  exists page idx, m = pdf_text_metadata doc_id path page idx.
Proof.
  unfold pdf_text_metadatas. intros Hin.
  apply in_flat_map in Hin as ([page_num page_text] & _ & Hin).
  apply in_map_iff in Hin as (idx & <- & _). now exists page_num, idx.
Qed.

Lemma Forall2_In_r {A B} (P : A -> B -> Prop) (l : list A) (bs : list B) (b : B) :
  Forall2 P l bs -> In b bs -> exists a, In a l /\ P a b.
Proof.
  induction 1 as [|a b' l bs Hab _ IH]; cbn [In]; [tauto|].
  intros [<- | Hin].
  - exists a. split; [now left | exact Hab].
  - destruct (IH Hin) as (a' & Ha' & HP). exists a'. split; [now right | exact HP].
Qed.

Lemma in_batch_of (b : batch) (collection : string) (ids : list string)
    (metadatas : list pydict) (documents : option (list string)) :
  In b (batch_of collection ids metadatas documents) ->
  b = (collection, ids, metadatas, documents).
Proof.
  unfold batch_of. destruct ids; cbn [In]; [tauto|]. now intros [<- | []].
Qed.

(** X17. What a stored unit is attributed to when it comes back in a result.
    Every metadata an ingestion that returns has handed to the store gives
    the attribution [Source: <the stored path of the upload> | Type: <its
    type>], then the page for the units of a PDF and for these only, then
    the chunk for the units of the text collection and for these only,
    then the time of the upload. *)
Theorem stored_units_are_attributed_to_their_file
    `{EmbeddingModels, VectorStore, Tesseract, Decoders, Host}
    (k : kind) (path : string) (w w' : world) (r : pydict) :
  routine k path w = (Ok r, w') ->
  exists new,
    upserted (calls w') = upserted (calls w) ++ new
    /\ forall collection ids metadatas documents m,
         In (collection, ids, metadatas, documents) new ->
         In m metadatas ->
         exists page chunk,
           _format_source_attribution m
             = attribution path (stored_type k collection) page chunk
           /\ (is_Some page <-> k = KPdf)
           /\ (is_Some chunk <-> collection = TEXT_COLLECTION).
Proof.
  destruct k; cbn [routine]; intros Hrun.
  - apply _ingest_text_inv in Hrun as (content & emb & _ & _ & _ & _ & ->).
    eexists. split.
    { unfold after. cbn [calls]. rewrite upserted_app. reflexivity. }
    cbn. intros collection ids metadatas documents m [[= <- <- <- <-] | []] Hin.
    apply in_map_iff in Hin as (i & <- & _).
    exists None, (Some i). split; [apply attribution_text_metadata|].
    split; split; first [done | (intros [x Hx]; discriminate) | eauto].
  - apply _ingest_image_inv in Hrun as (content & img & emb & _ & _ & _ & _ & ->).
    eexists. split.
    { unfold after. cbn [calls]. rewrite upserted_app. reflexivity. }
    cbn. intros collection ids metadatas documents m [[= <- <- <- <-] | []] [<- | []].
    exists None, None. split; [apply attribution_image_metadata|].
    split; split; first [done | (intros [x Hx]; discriminate) | eauto].
  - apply _ingest_pdf_batches in Hrun
      as (content & texts & rendered & image_metadatas
          & _ & _ & _ & Hmetas & _ & Hup).
    eexists. split; [exact Hup|].
    intros collection ids metadatas documents m Hb Hin.
    apply in_app_or in Hb as [Hb | Hb]; apply in_batch_of in Hb;
      injection Hb as -> -> -> ->.
    + apply in_pdf_text_metadatas in Hin as (page & idx & ->).
      exists (Some page), (Some idx).
      split; [apply attribution_pdf_text_metadata|].
      split; split; first [done | (intros [x Hx]; discriminate) | eauto].
    + destruct (Forall2_In_r _ _ _ _ Hmetas Hin) as (rec & _ & ocr_text & ->).
      exists (Some rec.1), None.
      split; [apply attribution_pdf_image_metadata|].
      split; split; first [done | (intros [x Hx]; discriminate) | eauto].
Qed.

Lemma stored_units_are_attributed_to_their_file_witness :
  exists (r : pydict) (w' : world) (new : list batch),
    @routine Sample.models (Sample.store Sample.no_answer Sample.no_answer)
      Sample.tesseract_missing Sample.decoders Sample.host KPdf
      "data/uploads/scan.pdf"
      (Sample.world_with "data/uploads/scan.pdf" "x")
    = (Ok r, w')
    /\ upserted (calls w') = new
    /\ forall collection ids metadatas documents m,
         In (collection, ids, metadatas, documents) new ->
         In m metadatas ->
         exists page chunk,
           _format_source_attribution m
             = @attribution Sample.host "data/uploads/scan.pdf"
                 (stored_type KPdf collection) page chunk
           /\ (is_Some page <-> KPdf = KPdf)
           /\ (is_Some chunk <-> collection = TEXT_COLLECTION).
Proof.
  destruct (@routine Sample.models
              (Sample.store Sample.no_answer Sample.no_answer)
              Sample.tesseract_missing Sample.decoders Sample.host KPdf
              "data/uploads/scan.pdf"
              (Sample.world_with "data/uploads/scan.pdf" "x"))
    as [[r|e] w'] eqn:Hrun; [| vm_compute in Hrun; discriminate].
  destruct (@stored_units_are_attributed_to_their_file Sample.models
              (Sample.store Sample.no_answer Sample.no_answer)
              Sample.tesseract_missing Sample.decoders Sample.host KPdf
              "data/uploads/scan.pdf"
              (Sample.world_with "data/uploads/scan.pdf" "x") w' r Hrun)
    as (new & Hup & Hnew).
  exists r, w', new. split; [reflexivity|]. split; [exact Hup | exact Hnew].
Defined.

Lemma in_pdf_text_ids `{Host} (doc_id : string) (pages : list (nat * string))
    (id : string) :
  In id (pdf_text_ids doc_id pages) ->
  exists page idx, id = scheme_id "pdftext" doc_id (Some page) (ChunkSuffix idx).
Proof.
  unfold pdf_text_ids. intros Hin.
  apply in_flat_map in Hin as ([page_num page_text] & _ & Hin).
  apply in_map_iff in Hin as (idx & <- & _). now exists page_num, idx.
Qed.

(** X18. The document of the record is the document of what was stored. An
    ingestion that returns gives under [doc_id] the identifier it has
    drawn, and every unit it has handed to the store carries it: in its
    metadata under [doc_id], and in its identifier after the prefix. *)
Theorem returned_doc_id_is_the_stored_one
    `{EmbeddingModels, VectorStore, Tesseract, Decoders, Host}
    (k : kind) (path : string) (w w' : world) (r : pydict) :
  routine k path w = (Ok r, w') ->
  exists new,
    r !! "doc_id" = Some (PStr (uuid4 (drawn w)))
    /\ upserted (calls w') = upserted (calls w) ++ new
    /\ forall collection ids metadatas documents,
         In (collection, ids, metadatas, documents) new ->
         Forall (fun m => m !! "doc_id" = Some (PStr (uuid4 (drawn w)))) metadatas
         /\ Forall (id_of_document (uuid4 (drawn w))) ids.
Proof.
  destruct k; cbn [routine]; intros Hrun.
  - apply _ingest_text_inv in Hrun as (content & emb & _ & _ & _ & -> & ->).
    eexists. split; [reflexivity|]. split.
    { unfold after. cbn [calls]. rewrite upserted_app. reflexivity. }
    cbn. intros collection ids metadatas documents [[= <- <- <- <-] | []].
    split; apply Forall_forall; intros x Hx;
      apply list_elem_of_In, in_map_iff in Hx as (i & <- & _).
    + reflexivity.
    + exists "txt", ("::" +:+ Str.of_nat i). split; [now left | reflexivity].
  - apply _ingest_image_inv in Hrun as (content & img & emb & _ & _ & _ & -> & ->).
    eexists. split; [reflexivity|]. split.
    { unfold after. cbn [calls]. rewrite upserted_app. reflexivity. }
    cbn. intros collection ids metadatas documents [[= <- <- <- <-] | []].
    split.
    + constructor; [reflexivity | constructor].
    + constructor; [|constructor].
      exists "img", EmptyString. split; [right; now left|].
      unfold image_id. cbn. now rewrite append_empty_r.
  - apply _ingest_pdf_batches in Hrun
      as (content & texts & rendered & image_metadatas
          & _ & _ & _ & Hmetas & -> & Hup).
    eexists. split; [reflexivity|]. split; [exact Hup|].
    intros collection ids metadatas documents Hb.
    apply in_app_or in Hb as [Hb | Hb]; apply in_batch_of in Hb;
      injection Hb as -> -> -> ->.
    + split; apply Forall_forall; intros x Hx; apply list_elem_of_In in Hx.
      * apply in_pdf_text_metadatas in Hx as (page & idx & ->). reflexivity.
      * apply in_pdf_text_ids in Hx as (page & idx & ->).
        exists "pdftext", ("::p" +:+ Str.of_nat page +:+ "::c" +:+ Str.of_nat idx).
        split; [right; right; now left | reflexivity].
    + split; apply Forall_forall; intros x Hx; apply list_elem_of_In in Hx.
      * destruct (Forall2_In_r _ _ _ _ Hmetas Hx) as (rec & _ & ocr_text & ->).
        reflexivity.
      * unfold pdf_image_ids in Hx.
        apply in_map_iff in Hx as ([page img_path] & <- & _).
        exists "pdfimg", ("::p" +:+ Str.of_nat page +:+ "::" +:+ path_basename img_path).
        split; [right; right; right; now left | reflexivity].
Qed.

Lemma returned_doc_id_is_the_stored_one_witness :
  exists (r : pydict) (w' : world) (new : list batch),
    @routine Sample.models (Sample.store Sample.no_answer Sample.no_answer)
      Sample.tesseract_missing Sample.decoders Sample.host KText
      "data/uploads/two.txt"
      (Sample.world_with "data/uploads/two.txt"
         (String "A" (String Str.LF (String Str.LF (String "B" EmptyString)))))
    = (Ok r, w')
    /\ r !! "doc_id" = Some (PStr "doc0")
    /\ upserted (calls w') = new
    /\ forall collection ids metadatas documents,
         In (collection, ids, metadatas, documents) new ->
         Forall (fun m => m !! "doc_id" = Some (PStr "doc0")) metadatas
         /\ Forall (id_of_document "doc0") ids.
Proof.
  destruct (@routine Sample.models
              (Sample.store Sample.no_answer Sample.no_answer)
              Sample.tesseract_missing Sample.decoders Sample.host KText
              "data/uploads/two.txt"
              (Sample.world_with "data/uploads/two.txt"
                 (String "A" (String Str.LF (String Str.LF (String "B" EmptyString))))))
    as [[r|e] w'] eqn:Hrun; [| vm_compute in Hrun; discriminate].
  destruct (@returned_doc_id_is_the_stored_one Sample.models
              (Sample.store Sample.no_answer Sample.no_answer)
              Sample.tesseract_missing Sample.decoders Sample.host KText
              "data/uploads/two.txt"
              (Sample.world_with "data/uploads/two.txt"
                 (String "A" (String Str.LF (String Str.LF (String "B" EmptyString)))))
              w' r Hrun)
    as (new & Hdoc & Hup & Hnew).
  exists r, w', new. split; [reflexivity|].
  split; [exact Hdoc|]. split; [exact Hup | exact Hnew].
Defined.

(** ** The pages of a PDF *)

(** A loop that writes one file per element: every file is there at the
    end, and nothing else has changed. *)
Lemma for_each_write_file {A B} (g : A -> string) (c : A -> string) (h : A -> B)
    (l : list A) (w w' : world) (bs : list B) :
  for_each (fun a => write_file (g a) (c a) ;;; ret (h a)) l w = (Ok bs, w') ->
  bs = map h l
  /\ (forall a, In a l -> is_Some (files w' !! g a))
  /\ (forall p, is_Some (files w !! p) -> is_Some (files w' !! p))
  /\ calls w' = calls w
  /\ drawn w' = drawn w.
Proof.
  revert w w' bs. induction l as [|a l IH]; intros w w' bs; cbn [for_each].
  - unfold ret. intros [= <- <-]. now repeat split.
  - unfold bind at 1 2. unfold write_file at 1. unfold ret at 1.
    set (w1 := {| files := <[g a := c a]> (files w);
                  calls := calls w; drawn := drawn w |}).
    unfold bind.
    destruct (for_each _ l w1) as [[bs'|e] w2] eqn:El; [|discriminate].
    unfold ret. intros [= <- <-].
    apply IH in El as (-> & Hin & Hkeep & Hcalls & Hdrawn).
    split; [reflexivity|]. split; [|split; [|split]].
    + intros a' [<- | Ha']; [|now apply Hin].
      apply Hkeep. subst w1. cbn [files]. rewrite lookup_insert_eq. eauto.
    + intros p Hp. apply Hkeep. subst w1. cbn [files].
      destruct (decide (g a = p)) as [->|Hne].
      * rewrite lookup_insert_eq. eauto.
      * now rewrite lookup_insert_ne.
    + exact Hcalls.
    + exact Hdrawn.
Qed.

Lemma for_each_ext {A B} (f g : A -> M B) (l : list A) :
  (forall a, f a = g a) -> for_each f l = for_each g l.
Proof.
  intros Hfg. induction l as [|a l IH]; [reflexivity|].
  cbn [for_each]. now rewrite Hfg, IH.
Qed.

Lemma seq_succ (n : nat) : map (fun i => (i + 1)%nat) (seq 0 n) = seq 1 n.
Proof.
  rewrite <- seq_shift. apply map_ext. intros i. lia.
Qed.

(** X19. The pages of a PDF are numbered from 1, in the order of the file, in
    the texts and in the renderings alike: the texts come stripped, and
    page [n] of the renderings is saved as [page<n>.png] under the output
    directory, where it is to be found afterwards. Extracting the texts
    changes nothing; rendering the pages makes no call, draws no
    identifier and removes no file. *)
Theorem pdf_pages_are_numbered_from_one `{Decoders, Host}
    (path output_dir : string) (w w1 w2 : world)
    (pages records : list (nat * string)) :
  extract_pdf_text_per_page path w = (Ok pages, w1) ->
  extract_pdf_images path output_dir w = (Ok records, w2) ->
  (w1 = w
   /\ map fst pages = seq 1 (length pages)
   /\ Forall (fun page => Str.strip page.2 = page.2) pages)
  /\ (map fst records = seq 1 (length records)
      /\ Forall (fun rec =>
                   rec.2 = path_join output_dir
                             ("page" +:+ Str.of_nat rec.1 +:+ ".png")
                   /\ is_Some (files w2 !! rec.2)) records
      /\ (forall p, is_Some (files w !! p) -> is_Some (files w2 !! p))
      /\ calls w2 = calls w
      /\ drawn w2 = drawn w).
Proof.
  intros Htexts Himages. split.
  - apply extract_pdf_text_per_page_inv in Htexts
      as (content & texts & _ & _ & -> & ->).
    split; [reflexivity|]. unfold numbered_pages. split.
    + rewrite length_map, enumerate_length, <- (enumerate_fst 1 texts), map_map.
      apply map_ext. now intros [idx text].
    + apply Forall_forall. intros page Hin.
      apply list_elem_of_In, in_map_iff in Hin as ([idx text] & <- & _).
      apply strip_idem.
  - revert Himages. unfold extract_pdf_images, bind at 1 2, read_file, lift.
    destruct (files w !! path) as [content|]; [|discriminate].
    destruct (pdf_render_pages content) as [rendered|e]; [|discriminate].
    intros Hloop.
    rewrite (for_each_ext _
               (fun p : nat * string =>
                  write_file
                    (path_join output_dir
                       ("page" +:+ Str.of_nat (p.1 + 1) +:+ ".png")) p.2 ;;;
                  ret ((p.1 + 1)%nat,
                       path_join output_dir
                         ("page" +:+ Str.of_nat (p.1 + 1) +:+ ".png"))))
      in Hloop by now intros [page_index png].
    apply (for_each_write_file
             (fun p : nat * string =>
                path_join output_dir ("page" +:+ Str.of_nat (p.1 + 1) +:+ ".png"))
             snd
             (fun p : nat * string =>
                ((p.1 + 1)%nat,
                 path_join output_dir ("page" +:+ Str.of_nat (p.1 + 1) +:+ ".png"))))
      in Hloop as (-> & Hin & Hkeep & Hcalls & Hdrawn).
    split; [|split; [|split; [|split]]]; try assumption.
    + rewrite length_map, enumerate_length, map_map. cbn [fst].
      rewrite <- seq_succ, <- (enumerate_fst 0 rendered), map_map. reflexivity.
    + apply Forall_forall. intros rec Hrec.
      apply list_elem_of_In, in_map_iff in Hrec as (p & <- & Hp).
      cbn [fst snd]. split; [reflexivity|]. now apply Hin.
Qed.

Lemma pdf_pages_are_numbered_from_one_witness :
  exists (pages records : list (nat * string)) (w2 : world),
    @extract_pdf_images Sample.decoders Sample.host "data/uploads/scan.pdf"
      "data/extracted/scan"
      (Sample.world_with "data/uploads/scan.pdf"
         (String "x" (String Str.LF (String "y" EmptyString))))
    = (Ok records, w2)
    /\ map fst pages = [1; 2]%nat
    /\ map fst records = [1; 2]%nat
    /\ Forall (fun rec => is_Some (files w2 !! rec.2)) records.
Proof.
  destruct (@extract_pdf_text_per_page Sample.decoders "data/uploads/scan.pdf"
              (Sample.world_with "data/uploads/scan.pdf"
                 (String "x" (String Str.LF (String "y" EmptyString)))))
    as [[pages|e] w1] eqn:Htexts; [| vm_compute in Htexts; discriminate].
  destruct (@extract_pdf_images Sample.decoders Sample.host "data/uploads/scan.pdf"
              "data/extracted/scan"
              (Sample.world_with "data/uploads/scan.pdf"
                 (String "x" (String Str.LF (String "y" EmptyString)))))
    as [[records|e] w2] eqn:Himages; [| vm_compute in Himages; discriminate].
  destruct (@pdf_pages_are_numbered_from_one Sample.decoders Sample.host
              "data/uploads/scan.pdf" "data/extracted/scan" _ w1 w2 pages records
              Htexts Himages)
    as ((_ & Hpages & _) & (Hrecords & Hfiles & _)).
  exists pages, records, w2. split; [reflexivity|].
  assert (Hlp : length pages = 2%nat).
  { clear -Htexts. vm_compute in Htexts. now injection Htexts as <- _. }
  assert (Hlr : length records = 2%nat).
  { clear -Himages. vm_compute in Himages. now injection Himages as <- _. }
  rewrite Hlp in Hpages. rewrite Hlr in Hrecords.
  split; [exact Hpages|]. split; [exact Hrecords|].
  eapply Forall_impl; [exact Hfiles|]. now intros rec [_ Hrec].
Defined.

(** ** A negative [top_k] *)




(** ** The calls of an upload *)

Lemma calls_well_formed_refl (w : world) : calls_well_formed w w.
Proof. exists []. split; [now rewrite app_nil_r | constructor]. Qed.

Lemma calls_well_formed_trans (w1 w2 w3 : world) :
  calls_well_formed w1 w2 -> calls_well_formed w2 w3 -> calls_well_formed w1 w3.
Proof.
  intros (n1 & H1 & F1) (n2 & H2 & F2). exists (n1 ++ n2). split.
  - now rewrite H2, H1, app_assoc.
  - now apply Forall_app.
Qed.

Lemma calls_well_formed_same (w w' : world) :
  calls w' = calls w -> calls_well_formed w w'.
Proof. intros Hc. exists []. split; [now rewrite app_nil_r | constructor]. Qed.

Lemma calls_well_formed_perform {A} (c : call) (answer : result A) :
  well_formed_call c -> preserves calls_well_formed (perform c answer).
Proof.
  intros Hc w. exists [c]. split; [reflexivity|]. now repeat constructor.
Qed.

Ltac calls_side :=
  first [ exact calls_well_formed_refl | exact calls_well_formed_trans ].

Ltac calls_step :=
  match goal with
  | |- forall _, _ => intro
  | |- preserves _ (bind _ _) => apply preserves_bind
  | |- preserves _ (try_except _ _) => apply preserves_try_except
  | |- preserves _ (for_each _ _) => apply preserves_for_each
  | |- preserves _ (ret _) => apply preserves_ret
  | |- preserves _ (raise _) => apply preserves_raise
  | |- preserves _ (lift _) => apply preserves_lift
  | |- preserves _ (read_file _) => apply preserves_read_file
  | |- preserves _ (index _ _) => apply preserves_index
  | |- preserves _ (write_file _ _) =>
      intros ?; now apply calls_well_formed_same
  | |- preserves _ fresh_uuid =>
      intros ?; now apply calls_well_formed_same
  | |- preserves _ (let '(_, _) := ?x in _) => destruct x
  end.

Section CallsWellFormed.

Context `{EmbeddingModels, VectorStore, Tesseract, Decoders, Host}.

Lemma calls_well_formed_ocr_image (img : image) :
  preserves calls_well_formed (ocr_image img).
Proof.
  intros w. rewrite ocr_image_run. exists [CImageToString img "eng"].
  split; [reflexivity|]. now repeat constructor.
Qed.

Lemma calls_well_formed_ingest_text (path : string) :
  preserves calls_well_formed (_ingest_text path).
Proof.
  unfold _ingest_text.
  apply preserves_bind; [calls_side | apply preserves_read_file; calls_side |].
  intros raw. destruct (Str.nonempty (Str.strip raw)) eqn:Hne; cbn [negb];
    [| apply preserves_raise; calls_side].
  assert (Hchunks : chunk_paragraphs (Str.strip raw) <> []).
  { intros Hnil. apply (proj1 (chunk_paragraphs_nil_iff _)) in Hnil.
    apply (proj2 (strip_empty_iff _)) in Hnil.
    rewrite strip_idem in Hnil. rewrite Hnil in Hne. discriminate. }
  apply preserves_bind; [calls_side | now apply calls_well_formed_perform |].
  intros emb. repeat first [calls_side | calls_step].
  apply calls_well_formed_perform. cbn [well_formed_call from_option].
  rewrite !length_map, length_seq. repeat split.
  destruct (chunk_paragraphs (Str.strip raw)); [contradiction | discriminate].
Qed.

Lemma calls_well_formed_ingest_image (path : string) :
  preserves calls_well_formed (_ingest_image path).
Proof.
  unfold _ingest_image.
  repeat first [ calls_side | calls_step | apply calls_well_formed_ocr_image
               | apply calls_well_formed_perform; now repeat split ].
Qed.

Lemma calls_well_formed_ingest_pdf (path : string) :
  preserves calls_well_formed (_ingest_pdf path).
Proof.
  unfold _ingest_pdf, extract_pdf_text_per_page, extract_pdf_images,
    pdf_page_image.
  repeat first [ calls_side | calls_step | apply calls_well_formed_ocr_image
               | apply calls_well_formed_perform; exact I ].
  - match goal with
    | |- preserves _ (match ?l with [] => _ | _ :: _ => _ end) =>
        destruct l as [|chunk chunks] eqn:Hchunks
    end; [apply preserves_ret; calls_side|].
    apply preserves_bind; [calls_side | now apply calls_well_formed_perform |].
    intros text_emb. apply calls_well_formed_perform.
    cbn [well_formed_call from_option].
    apply (f_equal length) in Hchunks. rewrite !length_map in *.
    cbn [length] in *. repeat split; [|congruence].
    intros Hnil. apply (f_equal length) in Hnil. rewrite !length_map in Hnil.
    cbn [length] in Hnil. lia.
  - match goal with
    | |- preserves _ (match ?l with [] => _ | _ :: _ => _ end) =>
        destruct l as [|row rows] eqn:Hrows
    end; [apply preserves_ret; calls_side|].
    apply calls_well_formed_perform. cbn [well_formed_call from_option].
    apply (f_equal length) in Hrows. rewrite !length_map in *.
    cbn [length] in *. repeat split.
    intros Hnil. apply (f_equal length) in Hnil. rewrite !length_map in Hnil.
    cbn [length] in Hnil. lia.
Qed.

End CallsWellFormed.

(** X21. However an upload ends, every call it has made is well formed: the
    text model was never asked to embed an empty list, and the store was
    never handed a batch without identifiers, or with a number of
    metadatas or of documents other than that of its identifiers. This
    holds on the paths that fail as on those that return. *)
Theorem upload_makes_well_formed_calls_only
    `{EmbeddingModels, VectorStore, Tesseract, Decoders, Host}
    (file : UploadFile) (w : world) :
  exists new,
    calls (process_upload file w).2 = calls w ++ new
    /\ forall c, In c new -> well_formed_call c.
Proof.
  assert (Hrun : preserves calls_well_formed (process_upload file)).
  { unfold process_upload.
    apply preserves_bind; [calls_side | |].
    { destruct (upload_filename file) as [[|c s]|];
        repeat first [calls_side | calls_step]. }
    intros filename.
    apply preserves_try_except; [calls_side | | ].
    - apply preserves_bind; [calls_side | calls_step |].
      intros _. destruct (classify _ _) as [[| |]|].
      + apply calls_well_formed_ingest_text.
      + apply calls_well_formed_ingest_image.
      + apply calls_well_formed_ingest_pdf.
      + apply preserves_raise; calls_side.
    - intros e. destruct (is_HTTPException e); apply preserves_raise; calls_side. }
  destruct (Hrun w) as (new & Hcalls & Hall).
  exists new. split; [exact Hcalls|].
  intros c Hc. rewrite List.Forall_forall in Hall. now apply Hall.
Qed.

(** ** When a query returns *)

Lemma aligned_covers (r : QueryResult) :
  aligned r = true
  <-> covers (qr_ids r) (qr_metadatas r) /\ covers (qr_ids r) (qr_documents r).
Proof.
  assert (Hcol : forall A (ids : list string) (column : option (list A)),
             match column with
             | Some l => (length ids <=? length l)%nat
             | None => true
             end = true <-> covers ids column).
  { intros A ids [l|]; unfold covers.
    - rewrite Nat.leb_le. split; [now intros Hle l' [= <-] | eauto].
    - split; [now intros _ l' | reflexivity]. }
  unfold aligned. now rewrite andb_true_iff, !Hcol.
Qed.

(** A loop that raises has raised in its body. *)
Lemma for_each_raises {A B} (f : A -> M B) (l : list A) (w w' : world) (e : exn) :
  for_each f l w = (Raise e, w') ->
  exists a w1 w2, In a l /\ f a w1 = (Raise e, w2).
Proof.
  revert w. induction l as [|a l IH]; intros w; cbn [for_each].
  - discriminate.
  - unfold bind at 1. destruct (f a w) as [[b|e0] w1] eqn:Ef.
    + unfold bind. destruct (for_each f l w1) as [[bs|e1] w2] eqn:El;
        [discriminate|].
      intros [= <- <-]. destruct (IH _ El) as (a' & wa & wb & Hin & Hf).
      exists a', wa, wb. split; [now right | exact Hf].
    + intros [= <- <-]. exists a, w, w1. split; [now left | exact Ef].
Qed.

Lemma index_raises {A} (l : list A) (i : nat) (w w' : world) (e : exn) :
  index l i w = (Raise e, w') -> e = IndexError.
Proof.
  unfold index. destruct (l !! i); [discriminate|]. now intros [= <- _].
Qed.

Lemma metadata_at_raises (r : QueryResult) (i : nat) (w w' : world) (e : exn) :
  metadata_at r i w = (Raise e, w') -> e = IndexError.
Proof.
  unfold metadata_at. destruct (qr_metadatas r); [apply index_raises | discriminate].
Qed.

Lemma text_entries_raises (r : QueryResult) (scores : list Q) (w w' : world)
    (e : exn) :
  text_entries r scores w = (Raise e, w') -> e = IndexError.
Proof.
  intros Hrun. apply for_each_raises in Hrun as ([i _id] & w1 & w2 & _ & Hf).
  revert Hf. unfold bind at 1.
  destruct (metadata_at r i w1) as [[m|e0] w3] eqn:Em.
  - unfold bind. destruct (qr_documents r) as [ds|].
    + destruct (index ds i w3) as [[d|e1] w4] eqn:Ed; [discriminate|].
      intros [= <- _]. now apply index_raises in Ed.
    + discriminate.
  - intros [= <- _]. now apply metadata_at_raises in Em.
Qed.

Lemma image_entries_raises (r : QueryResult) (scores : list Q) (w w' : world)
    (e : exn) :
  image_entries r scores w = (Raise e, w') -> e = IndexError.
Proof.
  intros Hrun. apply for_each_raises in Hrun as ([i _id] & w1 & w2 & _ & Hf).
  revert Hf. unfold bind.
  destruct (metadata_at r i w1) as [[m|e0] w3] eqn:Em; [discriminate|].
  intros [= <- _]. now apply metadata_at_raises in Em.
Qed.

(** The entries that index a column reach its last identifier. *)
Lemma for_each_covers {A B} (f : nat * string -> M B) (ids : list string)
    (column : option (list A)) (w w' : world) (bs : list B) :
  (forall p w1 b w2 l,
     f p w1 = (Ok b, w2) -> column = Some l -> is_Some (l !! p.1)) ->
  for_each f (enumerate 0 ids) w = (Ok bs, w') ->
  covers ids column.
Proof.
  intros Hf Hrun l Hl.
  apply (for_each_inv f (fun p _ => is_Some (l !! p.1)) (fun _ _ => True)) in Hrun;
    [| trivial | trivial | intros p w1 b w2 Hp; split; [now apply (Hf p w1 b w2) | trivial]].
  destruct Hrun as [Hall _].
  destruct (Nat.le_gt_cases (length ids) (length l)) as [Hle|Hgt]; [exact Hle|].
  exfalso.
  destruct (lookup_lt_is_Some_2 ids (length l)) as [_id Hid]; [lia|].
  assert (Hin : (length l, _id) ∈ enumerate 0 ids).
  { unfold enumerate. apply elem_of_lookup_imap.
    exists (length l), _id. split; [reflexivity | exact Hid]. }
  apply list_elem_of_lookup in Hin as [j Hj].
  destruct (Forall2_lookup_l _ _ _ _ _ Hall Hj) as (b & _ & [x Hx]).
  cbn [fst] in Hx. apply lookup_lt_Some in Hx. lia.
Qed.

Lemma text_entries_covers (r : QueryResult) (scores : list Q) (w w' : world)
    (ts : list MergedResult) :
  text_entries r scores w = (Ok ts, w') ->
  covers (qr_ids r) (qr_metadatas r) /\ covers (qr_ids r) (qr_documents r).
Proof.
  intros Hrun. unfold text_entries in Hrun. split.
  - eapply for_each_covers; [|exact Hrun].
    intros [i _id] w1 b w2 l Hf Hl. revert Hf.
    unfold bind at 1, metadata_at. rewrite Hl. unfold index. cbn [fst].
    destruct (l !! i); [eauto | discriminate].
  - eapply for_each_covers; [|exact Hrun].
    intros [i _id] w1 b w2 l. unfold bind at 1. intros Hf Hl. revert Hf.
    destruct (metadata_at r i w1) as [[m|e0] w3]; [|discriminate].
    rewrite Hl. unfold bind, index. cbn [fst].
    destruct (l !! i); [eauto | discriminate].
Qed.

Lemma image_entries_covers (r : QueryResult) (scores : list Q) (w w' : world)
    (ts : list MergedResult) :
  image_entries r scores w = (Ok ts, w') ->
  covers (qr_ids r) (qr_metadatas r).
Proof.
  intros Hrun. unfold image_entries in Hrun.
  eapply for_each_covers; [|exact Hrun].
  intros [i _id] w1 b w2 l Hf Hl. revert Hf.
  unfold bind at 1, metadata_at. rewrite Hl. unfold index. cbn [fst].
  destruct (l !! i); [eauto | discriminate].
Qed.

Lemma image_entries_returns (r : QueryResult) (scores : list Q) (w : world) :
  covers (qr_ids r) (qr_metadatas r) ->
  exists ts, image_entries r scores w = (Ok ts, w).
Proof.
  intros Hm.
  set (r' := {| qr_ids := qr_ids r; qr_distances := qr_distances r;
                qr_metadatas := qr_metadatas r; qr_documents := None |}).
  assert (Hal : aligned r' = true).
  { apply aligned_covers. split; [exact Hm | intros l [=]]. }
  eexists. change (image_entries r scores) with (image_entries r' scores).
  apply (image_entries_run r' scores w Hal).
Qed.

(** X22. When the collaborators answer, a query returns exactly when each
    column it indexes has an entry for every identifier of its answer: the
    metadatas and the documents of the text answer and the metadatas of
    the image answer, where the answer has the column at all. Otherwise
    it raises [list index out of range], and raises nothing else. *)
Theorem query_returns_iff_answers_cover_ids `{EmbeddingModels, VectorStore}
    (query : string) (top_k : Z) (tr ir : QueryResult) (w : world) :
  answered query top_k tr ir ->
  ((exists resp w', multimodal_query query top_k w = (Ok resp, w'))
   <-> covers (qr_ids tr) (qr_metadatas tr)
       /\ covers (qr_ids tr) (qr_documents tr)
       /\ covers (qr_ids ir) (qr_metadatas ir))
  /\ (forall e w',
        multimodal_query query top_k w = (Raise e, w') -> e = IndexError).
Proof.
  intros (te & trows & ce & crows & Hte & Htr & Hce & Hir).
  unfold multimodal_query, bind, embed_text, embed_clip_text, query_text,
    query_images, perform.
  rewrite Hte. cbn [index lookup list_lookup ret].
  rewrite Htr, Hce. cbn [index lookup list_lookup ret].
  rewrite Hir.
  destruct (text_entries tr _ _) as [[ts|e] w1] eqn:Et.
  - pose proof (text_entries_covers _ _ _ _ _ Et) as [Hm Hd].
    destruct (image_entries ir _ _) as [[ims|e] w2] eqn:Ei.
    + pose proof (image_entries_covers _ _ _ _ _ Ei) as Hi.
      split; [|discriminate]. split; [now intros _ | eauto].
    + split.
      * split; [intros (resp & w' & [=])|].
        intros (_ & _ & Hi).
        destruct (image_entries_returns ir (_normalize_scores (raw_scores ir)) w1 Hi)
          as [ims Hims].
        rewrite Hims in Ei. discriminate.
      * intros e' w' [= <- _]. now apply image_entries_raises in Ei.
  - split.
    + split; [intros (resp & w' & [=])|].
      intros (Hm & Hd & _).
      assert (Hal : aligned tr = true) by now apply aligned_covers.
      rewrite (text_entries_run tr _ _ Hal) in Et. discriminate.
    + intros e' w' [= <- _]. now apply text_entries_raises in Et.
Qed.

Lemma query_returns_iff_answers_cover_ids_witness :
  @multimodal_query Sample.models
    (Sample.store
       {| qr_ids := ["txt::d::0"; "txt::d::1"];
          qr_distances := Some [1 # 10; 6 # 10]%Q;
          qr_metadatas := Some [∅];
          qr_documents := Some ["A"; "B"] |}
       Sample.no_answer)
    "cats" 3 Sample.empty_world
  = (Raise IndexError,
     {| files := ∅;
        calls := [CEncodeText ["cats"]; CQuery TEXT_COLLECTION [1%Q] 3;
                  CEncodeClipText ["cats"]; CQuery IMAGE_COLLECTION [1%Q] 3];
        drawn := 0 |}).
Proof.
  destruct (@multimodal_query Sample.models
              (Sample.store
                 {| qr_ids := ["txt::d::0"; "txt::d::1"];
                    qr_distances := Some [1 # 10; 6 # 10]%Q;
                    qr_metadatas := Some [∅];
                    qr_documents := Some ["A"; "B"] |}
                 Sample.no_answer)
              "cats" 3 Sample.empty_world) as [[resp|e] w'] eqn:Hrun;
    [vm_compute in Hrun; discriminate|].
  destruct (@query_returns_iff_answers_cover_ids Sample.models
              (Sample.store
                 {| qr_ids := ["txt::d::0"; "txt::d::1"];
                    qr_distances := Some [1 # 10; 6 # 10]%Q;
                    qr_metadatas := Some [∅];
                    qr_documents := Some ["A"; "B"] |}
                 Sample.no_answer)
              "cats" 3
              {| qr_ids := ["txt::d::0"; "txt::d::1"];
                 qr_distances := Some [1 # 10; 6 # 10]%Q;
                 qr_metadatas := Some [∅];
                 qr_documents := Some ["A"; "B"] |}
              Sample.no_answer Sample.empty_world) as [_ Hraises].
  { exists [1%Q], [], [1%Q], []. repeat split; reflexivity. }
  pose proof (Hraises e w' Hrun) as ->.
  vm_compute in Hrun. injection Hrun as <-. reflexivity.
Defined.
